(** * Validation gate runner and contract compiler

    A shallow embedding of [validation-gate-runner/scripts/run_until_green.py]
    (the checklist state machine and the anti-loop controller) and of
    [validation-gate-runner/scripts/compile_checks.py] (checklist
    normalisation, the dependency-cycle search and the fail-closed gate). *)

From Stdlib Require Import List String Ascii Bool Arith ZArith QArith Lia Relations OrdersEx Sorting.
Import ListNotations.
Open Scope string_scope.
Open Scope list_scope.
Close Scope Q_scope.

(** ** Python dictionaries with string keys

    A dict is an association list in insertion order; assigning to a key that
    is already present replaces its value in place, as CPython does. *)

Fixpoint dict_set {V : Type} (d : list (string * V)) (k : string) (v : V) : list (string * V) :=
  match d with
  | [] => [(k, v)]
  | (k', v') :: d' => if String.eqb k k' then (k, v) :: d' else (k', v') :: dict_set d' k v
  end.

Fixpoint dict_get {V : Type} (d : list (string * V)) (k : string) : option V :=
  match d with
  | [] => None
  | (k', v') :: d' => if String.eqb k k' then Some v' else dict_get d' k
  end.

Definition dict_mem {V : Type} (d : list (string * V)) (k : string) : bool :=
  match dict_get d k with Some _ => true | None => false end.

Definition dict_get_default {V : Type} (d : list (string * V)) (k : string) (dflt : V) : V :=
  match dict_get d k with Some v => v | None => dflt end.

(** [x in l] for a list or set of strings. *)
Definition mem (x : string) (l : list string) : bool := existsb (String.eqb x) l.

(** [_dedupe] of run_until_green.py: keep the first occurrence of each value. *)
Definition dedupe (values : list string) : list string :=
  fold_left (fun output value => if mem value output then output else output ++ [value]) values [].

(** ** Checks and the check executor (run_until_green.py, [passes], [run_check]) *)

Record check := mk_check {
  name : string;
  command : string;
  pass_condition : string
}.

(** [token in stdout]. *)
Fixpoint str_contains (token s : string) : bool :=
  String.prefix token s ||
  match s with
  | EmptyString => false
  | String _ s' => str_contains token s'
  end.

Definition stdout_contains_prefix : string := "stdout_contains:".

Definition passes (c : check) (returncode : Z) (stdout : string) : bool :=
  let condition := pass_condition c in
  if String.eqb condition "exit_code_zero" then Z.eqb returncode 0
  else if String.prefix stdout_contains_prefix condition then
    (* [condition.split(":", 1)[1]]: the text after the first colon, which is
       the colon ending the prefix *)
    let token := substring (String.length stdout_contains_prefix)
                   (String.length condition - String.length stdout_contains_prefix) condition in
    str_contains token stdout
  else Z.eqb returncode 0.

(** The external process: return code and captured stdout of the check at
    position [index] when it is run on iteration [iteration], in the
    diagnostic re-run when the flag is set. *)
Definition executor := nat -> bool -> nat -> check -> Z * string.

Definition run_check (exec : executor) (iteration : nat) (diagnostic : bool) (index : nat) (c : check) : bool :=
  let '(rc, out) := exec iteration diagnostic index c in passes c rc out.

Fixpoint run_checks_from (exec : executor) (iteration : nat) (diagnostic : bool) (index : nat)
    (checks : list check) : list (check * bool) :=
  match checks with
  | [] => []
  | c :: cs => (c, run_check exec iteration diagnostic index c) :: run_checks_from exec iteration diagnostic (S index) cs
  end.

Definition run_checks (exec : executor) (iteration : nat) (diagnostic : bool) (checks : list check) : list (check * bool) :=
  run_checks_from exec iteration diagnostic 0 checks.

Definition count_passed (results : list (check * bool)) : nat :=
  List.length (filter snd results).

(** ** Checklist items and the checklist state machine ([_build_checklist_state]) *)

Inductive item_status := Unsatisfied | Satisfied | Blocked.

Definition item_status_eqb (a b : item_status) : bool :=
  match a, b with
  | Unsatisfied, Unsatisfied | Satisfied, Satisfied | Blocked, Blocked => true
  | _, _ => false
  end.

(** A normalised checklist item as the compiler emits it; [satisfied_at_step]
    is an int or None. *)
Record checklist_item := mk_item {
  item_id : string;
  question : string;
  evidence_required : list string;
  strictness : string;
  depends_on : list string;
  status : item_status;
  satisfied_at_step : option Z;
  evidence_refs : list string;
  pass_when_check : string
}.

(** [row = dict(item); row["status"] = status; row["satisfied_at_step"] = ...] *)
Definition with_status (item : checklist_item) (st : item_status) (sat : option Z) : checklist_item :=
  {| item_id := item_id item; question := question item; evidence_required := evidence_required item;
     strictness := strictness item; depends_on := depends_on item; status := st;
     satisfied_at_step := sat; evidence_refs := evidence_refs item;
     pass_when_check := pass_when_check item |}.

Definition is_satisfied (o : option item_status) : bool :=
  match o with Some Satisfied => true | _ => false end.

Definition is_strict (item : checklist_item) : bool := String.eqb (strictness item) "strict".

(** The status rule of lines 90-99: [state_map] holds the statuses computed
    so far in this call. *)
Definition item_new_status (state_map : list (string * item_status)) (check_pass_map : list (string * bool))
    (item : checklist_item) : item_status :=
  let dep_blocked := filter (fun dep => negb (is_satisfied (dict_get state_map dep))) (depends_on item) in
  match dep_blocked with
  | _ :: _ => Blocked
  | [] => if dict_get_default check_pass_map (pass_when_check item) false then Satisfied else Unsatisfied
  end.

(** Lines 101-106. Returns the new [satisfied_at_step] and whether the item is
    appended to [flips]. *)
Definition item_new_step (st : item_status) (sat0 : option Z) (iteration : nat) : option Z * bool :=
  let '(sat1, flip) :=
    match st, sat0 with
    | Satisfied, None => (Some (Z.of_nat iteration), true)
    | _, _ => (sat0, false)
    end in
  match st with
  | Satisfied => (sat1, flip)
  | _ => (None, flip)
  end.

Fixpoint build_checklist_state_from (state_map : list (string * item_status)) (items : list checklist_item)
    (check_pass_map : list (string * bool)) (iteration : nat)
    : list checklist_item * list string * list string * list string :=
  match items with
  | [] => ([], [], [], [])
  | item :: rest =>
      let st := item_new_status state_map check_pass_map item in
      let '(sat, flip) := item_new_step st (satisfied_at_step item) iteration in
      let '(state, flips, strict_fail, strict_blocked) :=
        build_checklist_state_from (dict_set state_map (item_id item) st) rest check_pass_map iteration in
      (with_status item st sat :: state,
       (if flip then [item_id item] else []) ++ flips,
       (if is_strict item && item_status_eqb st Unsatisfied then [item_id item] else []) ++ strict_fail,
       (if is_strict item && item_status_eqb st Blocked then [item_id item] else []) ++ strict_blocked)
  end.

Definition build_checklist_state (items : list checklist_item) (check_pass_map : list (string * bool))
    (iteration : nat) : list checklist_item * list string * list string * list string :=
  build_checklist_state_from [] items check_pass_map iteration.

(** ** The anti-loop controller (the loop of [main] in run_until_green.py)

    Progress scores are exact rationals: [round(x, 6)] is left out, which
    keeps the sign of every delta the code compares for up to 10^6 checks.
    Log records carry no timestamp and no captured output. *)

Inductive log_event :=
| EvCheck (iteration : nat) (check_name : string) (passed : bool)
| EvProgress (iteration : nat) (progress_score progress_delta : Q) (no_progress_step : bool)
    (consecutive_no_progress : nat)
| EvStrategySwitch (iteration : nat) (tag : string)
| EvDiagnosticCheck (iteration : nat) (check_name : string) (passed : bool)
| EvDiagnosticResult (iteration : nat) (diagnostic_progress diagnostic_delta : Q) (diagnostic_passed : nat).

Definition event_iteration (e : log_event) : nat :=
  match e with
  | EvCheck i _ _ | EvProgress i _ _ _ _ | EvStrategySwitch i _
  | EvDiagnosticCheck i _ _ | EvDiagnosticResult i _ _ _ => i
  end.

Record checklist_delta := mk_delta {
  delta_iteration : nat;
  flipped_to_satisfied : list string;
  delta_strict_fail_item_ids : list string;
  strict_blocked_item_ids : list string
}.

(** One line of checklist_timeline.jsonl: iteration, checklist state, delta. *)
Definition timeline_entry : Type := (nat * list checklist_item * checklist_delta)%type.

Record loop_state := mk_ls {
  all_passed : bool;
  aborted : bool;
  strict_early_terminated : bool;
  iterations : nat;
  reason_codes : list string;
  progress_history : list Q;
  progress_deltas : list Q;
  checklist_deltas : list checklist_delta;
  previous_progress : option Q;
  consecutive_no_progress : nat;
  max_consecutive_no_progress : nat;
  strategy_switch_tag : option string;
  diagnostic_ran : bool;
  diagnostic_result : option (Q * Q * nat);
  latest_checklist_state : list checklist_item;
  strict_fail_item_ids : list string;
  iteration_log : list log_event;
  checklist_timeline : list timeline_entry
}.

Definition initial_state (checklist_items : list checklist_item) : loop_state :=
  {| all_passed := false; aborted := false; strict_early_terminated := false; iterations := 0;
     reason_codes := []; progress_history := []; progress_deltas := []; checklist_deltas := [];
     previous_progress := None; consecutive_no_progress := 0; max_consecutive_no_progress := 0;
     strategy_switch_tag := None; diagnostic_ran := false; diagnostic_result := None;
     latest_checklist_state := checklist_items; strict_fail_item_ids := [];
     iteration_log := []; checklist_timeline := [] |}.

(** [round(passed / max(1, len(checks)), 6)] without the rounding. *)
Definition score (passed total : nat) : Q :=
  Qdiv (inject_Z (Z.of_nat passed)) (inject_Z (Z.of_nat (Nat.max 1 total))).

Definition check_pass_map_of (results : list (check * bool)) : list (string * bool) :=
  fold_left (fun m r => dict_set m (name (fst r)) (snd r)) results [].

(** Lines 236-290: run the checks, score them, update the no-progress counter. *)
Definition record_progress (iteration : nat) (results : list (check * bool)) (total : nat)
    (s : loop_state) : loop_state :=
  let progress_score := score (count_passed results) total in
  let progress_delta :=
    match previous_progress s with Some p => Qminus progress_score p | None => progress_score end in
  let no_progress_step :=
    match previous_progress s with Some _ => Qle_bool progress_delta 0%Q | None => false end in
  let cnp := if no_progress_step then S (consecutive_no_progress s) else 0 in
  {| all_passed := all_passed s; aborted := aborted s; strict_early_terminated := strict_early_terminated s;
     iterations := iteration; reason_codes := reason_codes s;
     progress_history := progress_history s ++ [progress_score];
     progress_deltas := progress_deltas s ++ [progress_delta];
     checklist_deltas := checklist_deltas s; previous_progress := Some progress_score;
     consecutive_no_progress := cnp;
     max_consecutive_no_progress := Nat.max (max_consecutive_no_progress s) cnp;
     strategy_switch_tag := strategy_switch_tag s; diagnostic_ran := diagnostic_ran s;
     diagnostic_result := diagnostic_result s; latest_checklist_state := latest_checklist_state s;
     strict_fail_item_ids := strict_fail_item_ids s;
     iteration_log := iteration_log s
       ++ map (fun r => EvCheck iteration (name (fst r)) (snd r)) results
       ++ [EvProgress iteration progress_score progress_delta no_progress_step cnp];
     checklist_timeline := checklist_timeline s |}.

(** Lines 292-318: recompute the checklist and append to the timeline. *)
Definition record_checklist (iteration : nat) (check_pass_map : list (string * bool)) (s : loop_state)
    : loop_state :=
  let '(state, flipped, strict_fails, strict_blocked) :=
    build_checklist_state (latest_checklist_state s) check_pass_map iteration in
  let delta := mk_delta iteration flipped strict_fails strict_blocked in
  {| all_passed := all_passed s; aborted := aborted s; strict_early_terminated := strict_early_terminated s;
     iterations := iterations s; reason_codes := reason_codes s;
     progress_history := progress_history s; progress_deltas := progress_deltas s;
     checklist_deltas := checklist_deltas s ++ [delta]; previous_progress := previous_progress s;
     consecutive_no_progress := consecutive_no_progress s;
     max_consecutive_no_progress := max_consecutive_no_progress s;
     strategy_switch_tag := strategy_switch_tag s; diagnostic_ran := diagnostic_ran s;
     diagnostic_result := diagnostic_result s; latest_checklist_state := state;
     strict_fail_item_ids := strict_fails; iteration_log := iteration_log s;
     checklist_timeline := checklist_timeline s ++ [(iteration, state, delta)] |}.

(** Lines 320-325. *)
Definition strict_abort (s : loop_state) : loop_state :=
  {| all_passed := all_passed s; aborted := true; strict_early_terminated := true;
     iterations := iterations s;
     reason_codes := reason_codes s ++ ["validation_failed/checklist_strict_failed";
                                        "evidence_missing/checklist_evidence_missing"];
     progress_history := progress_history s; progress_deltas := progress_deltas s;
     checklist_deltas := checklist_deltas s; previous_progress := previous_progress s;
     consecutive_no_progress := consecutive_no_progress s;
     max_consecutive_no_progress := max_consecutive_no_progress s;
     strategy_switch_tag := strategy_switch_tag s; diagnostic_ran := diagnostic_ran s;
     diagnostic_result := diagnostic_result s; latest_checklist_state := latest_checklist_state s;
     strict_fail_item_ids := strict_fail_item_ids s; iteration_log := iteration_log s;
     checklist_timeline := checklist_timeline s |}.

(** Lines 327-329. *)
Definition mark_passed (s : loop_state) : loop_state :=
  {| all_passed := true; aborted := aborted s; strict_early_terminated := strict_early_terminated s;
     iterations := iterations s; reason_codes := reason_codes s;
     progress_history := progress_history s; progress_deltas := progress_deltas s;
     checklist_deltas := checklist_deltas s; previous_progress := previous_progress s;
     consecutive_no_progress := consecutive_no_progress s;
     max_consecutive_no_progress := max_consecutive_no_progress s;
     strategy_switch_tag := strategy_switch_tag s; diagnostic_ran := diagnostic_ran s;
     diagnostic_result := diagnostic_result s; latest_checklist_state := latest_checklist_state s;
     strict_fail_item_ids := strict_fail_item_ids s; iteration_log := iteration_log s;
     checklist_timeline := checklist_timeline s |}.

Definition stalled_tag : string := "stalled_no_progress".

(** Lines 331-385: strategy switch and the diagnostic re-run of every check. *)
Definition diagnostic_start (iteration : nat) (diagnostic_results : list (check * bool))
    (diagnostic_progress diagnostic_delta : Q) (s : loop_state) : loop_state :=
  {| all_passed := all_passed s; aborted := aborted s; strict_early_terminated := strict_early_terminated s;
     iterations := iterations s; reason_codes := reason_codes s ++ ["no_progress/no_progress_loop"];
     progress_history := progress_history s; progress_deltas := progress_deltas s;
     checklist_deltas := checklist_deltas s; previous_progress := previous_progress s;
     consecutive_no_progress := consecutive_no_progress s;
     max_consecutive_no_progress := max_consecutive_no_progress s;
     strategy_switch_tag := Some stalled_tag; diagnostic_ran := true;
     diagnostic_result := Some (diagnostic_progress, diagnostic_delta, count_passed diagnostic_results);
     latest_checklist_state := latest_checklist_state s;
     strict_fail_item_ids := strict_fail_item_ids s;
     iteration_log := iteration_log s
       ++ [EvStrategySwitch iteration stalled_tag]
       ++ map (fun r => EvDiagnosticCheck iteration (name (fst r)) (snd r)) diagnostic_results
       ++ [EvDiagnosticResult iteration diagnostic_progress diagnostic_delta (count_passed diagnostic_results)];
     checklist_timeline := checklist_timeline s |}.

(** Lines 387-390. *)
Definition diagnostic_abort (s : loop_state) : loop_state :=
  {| all_passed := all_passed s; aborted := true; strict_early_terminated := strict_early_terminated s;
     iterations := iterations s;
     reason_codes := reason_codes s ++ ["validation_failed/diagnostic_no_improvement"];
     progress_history := progress_history s; progress_deltas := progress_deltas s;
     checklist_deltas := checklist_deltas s; previous_progress := previous_progress s;
     consecutive_no_progress := consecutive_no_progress s;
     max_consecutive_no_progress := max_consecutive_no_progress s;
     strategy_switch_tag := strategy_switch_tag s; diagnostic_ran := diagnostic_ran s;
     diagnostic_result := diagnostic_result s; latest_checklist_state := latest_checklist_state s;
     strict_fail_item_ids := strict_fail_item_ids s; iteration_log := iteration_log s;
     checklist_timeline := checklist_timeline s |}.

(** Lines 392-395: the diagnostic score becomes the new baseline. *)
Definition diagnostic_recover (diagnostic_progress diagnostic_delta : Q) (s : loop_state) : loop_state :=
  {| all_passed := all_passed s; aborted := aborted s; strict_early_terminated := strict_early_terminated s;
     iterations := iterations s; reason_codes := reason_codes s;
     progress_history := progress_history s ++ [diagnostic_progress];
     progress_deltas := progress_deltas s ++ [diagnostic_delta];
     checklist_deltas := checklist_deltas s; previous_progress := Some diagnostic_progress;
     consecutive_no_progress := 0;
     max_consecutive_no_progress := max_consecutive_no_progress s;
     strategy_switch_tag := strategy_switch_tag s; diagnostic_ran := diagnostic_ran s;
     diagnostic_result := diagnostic_result s; latest_checklist_state := latest_checklist_state s;
     strict_fail_item_ids := strict_fail_item_ids s; iteration_log := iteration_log s;
     checklist_timeline := checklist_timeline s |}.

Inductive flow := Continue (s : loop_state) | Break (s : loop_state).

Definition flow_state (r : flow) : loop_state := match r with Continue s | Break s => s end.

(** A timeline line written on iteration [i]: its delta lists the strict
    rows of its state that are unsatisfied and those that are blocked. *)
Definition timeline_entry_ok (i : nat) (e : timeline_entry) : Prop :=
  let '(k, st, d) := e in
  k = i /\ delta_iteration d = i /\
  delta_strict_fail_item_ids d =
    map item_id (filter (fun r => is_strict r && item_status_eqb (status r) Unsatisfied) st) /\
  strict_blocked_item_ids d =
    map item_id (filter (fun r => is_strict r && item_status_eqb (status r) Blocked) st).

(** One pass of the [for iteration in range(1, max_iterations + 1)] body. *)
Definition iteration_step (checks : list check) (checklist_items : list checklist_item) (exec : executor)
    (iteration : nat) (s : loop_state) : flow :=
  let results := run_checks exec iteration false checks in
  let progress_score := score (count_passed results) (List.length checks) in
  let s1 := record_progress iteration results (List.length checks) s in
  let s2 :=
    match checklist_items with
    | [] => s1
    | _ :: _ => record_checklist iteration (check_pass_map_of results) s1
    end in
  if (match checklist_items with [] => false | _ :: _ => match strict_fail_item_ids s2 with [] => false | _ :: _ => true end end)
  then Break (strict_abort s2)
  else if forallb snd results then Break (mark_passed s2)
  else if Nat.leb 2 (consecutive_no_progress s2) then
    let diagnostic_results := run_checks exec iteration true checks in
    let diagnostic_progress := score (count_passed diagnostic_results) (List.length checks) in
    let diagnostic_delta := Qminus diagnostic_progress progress_score in
    let s3 := diagnostic_start iteration diagnostic_results diagnostic_progress diagnostic_delta s2 in
    if Qle_bool diagnostic_delta 0%Q then Break (diagnostic_abort s3)
    else Continue (diagnostic_recover diagnostic_progress diagnostic_delta s3)
  else Continue s2.

(** The state of one pass after the checks and the checklist are recorded
    (lines 236-318), before the termination tests. *)
Definition step_record (checks : list check) (checklist_items : list checklist_item) (exec : executor)
    (iteration : nat) (s : loop_state) : loop_state :=
  let results := run_checks exec iteration false checks in
  let s1 := record_progress iteration results (List.length checks) s in
  match checklist_items with
  | [] => s1
  | _ :: _ => record_checklist iteration (check_pass_map_of results) s1
  end.

(** The fields of a contract that run_until_green.py reads for the loop. *)
Record contract := mk_contract {
  checks : list check;
  checklist_items : list checklist_item;
  max_iterations : Z
}.

Fixpoint run_loop (checks : list check) (checklist_items : list checklist_item) (exec : executor)
    (fuel iteration : nat) (s : loop_state) : loop_state :=
  match fuel with
  | O => s
  | S fuel' =>
      match iteration_step checks checklist_items exec iteration s with
      | Break s' => s'
      | Continue s' => run_loop checks checklist_items exec fuel' (S iteration) s'
      end
  end.

(** [range(1, max_iterations + 1)] runs [max(0, max_iterations)] passes. *)
Definition loop_final (c : contract) (exec : executor) : loop_state :=
  run_loop (checks c) (checklist_items c) exec (Z.to_nat (max_iterations c)) 1
    (initial_state (checklist_items c)).

(** The iterations the loop of a run starts, with the state it starts
    them from. *)
Inductive loop_reaches (c : contract) (exec : executor) : nat -> loop_state -> Prop :=
| reach_start : loop_reaches c exec 1 (initial_state (checklist_items c))
| reach_next (i : nat) (s s' : loop_state) :
    loop_reaches c exec i s -> iteration_step (checks c) (checklist_items c) exec i s = Continue s' ->
    loop_reaches c exec (S i) s'.

(** Lines 397-402. *)
Definition loop_reason_codes (c : contract) (s : loop_state) : list string :=
  reason_codes s ++
  if all_passed s then []
  else ["validation_failed/checks_failed"]
       ++ (if aborted s then ["validation_failed/fail_closed_abort"] else [])
       ++ (if Z.leb (max_iterations c) (Z.of_nat (iterations s)) && negb (aborted s)
           then ["validation_failed/max_iterations_reached"] else []).

Record run_summary := mk_summary {
  summary_all_passed : bool;
  summary_aborted : bool;
  summary_iterations : nat;
  summary_checklist_state : list checklist_item;
  summary_checklist_deltas : list checklist_delta;
  summary_strict_fail_item_ids : list string;
  summary_strict_early_terminated : bool;
  summary_reason_codes : list string;
  summary_strategy_switch_tag : option string;
  summary_diagnostic_ran : bool;
  summary_diagnostic_result : option (Q * Q * nat);
  summary_progress_history : list Q;
  summary_iteration_log : list log_event;
  summary_checklist_timeline : list timeline_entry
}.

(** [main] of run_until_green.py: the summary and the exit status.
    [post_loop_codes] are the codes lines 404-449 append from the contract's
    auxiliary declarations ([run_post_loop_codes] below); they depend on the
    contract only, not on the loop. *)
Definition run_until_green_main (c : contract) (post_loop_codes : list string) (exec : executor)
    : run_summary * Z :=
  let s := loop_final c exec in
  let codes := dedupe (loop_reason_codes c s ++ post_loop_codes) in
  let passed := match codes with [] => all_passed s | _ :: _ => false end in
  (mk_summary passed (aborted s) (iterations s) (latest_checklist_state s) (checklist_deltas s)
     (strict_fail_item_ids s) (strict_early_terminated s) codes (strategy_switch_tag s)
     (diagnostic_ran s) (diagnostic_result s) (progress_history s) (iteration_log s)
     (checklist_timeline s),
   if passed then 0%Z else 1%Z).

(** ** The contract compiler (compile_checks.py) *)

(** [str.strip()] on ASCII text: Python's whitespace is 9-13 and 28-32. *)
Definition is_space (a : ascii) : bool :=
  let n := nat_of_ascii a in
  (Nat.leb 9 n && Nat.leb n 13) || (Nat.leb 28 n && Nat.leb n 32).

Fixpoint lstrip (s : string) : string :=
  match s with
  | EmptyString => EmptyString
  | String a s' => if is_space a then lstrip s' else s
  end.

Definition string_rev (s : string) : string :=
  string_of_list_ascii (rev (list_ascii_of_string s)).

Definition strip (s : string) : string := string_rev (lstrip (string_rev (lstrip s))).

Definition is_empty (s : string) : bool := match s with EmptyString => true | _ => false end.

(** Decimal notation of a natural number, as [str(n)] and [f"{n:03d}"]. *)
Fixpoint decimal_from (fuel n : nat) (acc : string) : string :=
  match fuel with
  | O => acc
  | S fuel' =>
      let acc' := String (ascii_of_nat (48 + n mod 10)) acc in
      if Nat.ltb n 10 then acc' else decimal_from fuel' (n / 10) acc'
  end.

Definition decimal (n : nat) : string := decimal_from (S n) n "".

Fixpoint zeros (k : nat) : string :=
  match k with O => "" | S k' => String "0" (zeros k') end.

Definition pad3 (n : nat) : string :=
  let d := decimal n in String.append (zeros (3 - String.length d)) d.

(** A raw entry of [acceptance_tests]: not an object, or an object whose
    fields are given by the [str()] image of their value ([None]: key absent). *)
Inductive raw_check :=
| RawCheckNotDict
| RawCheck (name command pass_condition : option string).

Definition get_str (o : option string) (dflt : string) : string :=
  match o with Some v => v | None => dflt end.

Fixpoint normalise_checks_from (index : nat) (raw_checks : list raw_check) : list check :=
  match raw_checks with
  | [] => []
  | RawCheckNotDict :: rest => normalise_checks_from (S index) rest
  | RawCheck n c p :: rest =>
      let nm := strip (get_str n (String.append "check-" (decimal (S index)))) in
      let cmd := strip (get_str c "") in
      let pc := strip (get_str p "exit_code_zero") in
      if is_empty cmd then normalise_checks_from (S index) rest
      else mk_check nm cmd pc :: normalise_checks_from (S index) rest
  end.

(** [normalise_checks]; [None] when [acceptance_tests] is not a list. *)
Definition normalise_checks (raw_checks : option (list raw_check)) : list check :=
  match raw_checks with
  | None => []
  | Some l => normalise_checks_from 0 l
  end.

(** The fields of a raw checklist item: [str()] images for scalar fields,
    lists already filtered by [isinstance(.., list)] ([None]: absent or not a
    list) with [str()] applied to their elements, and [satisfied_at_step] as
    the int it holds ([None]: absent, null or not an int). *)
Record raw_item_fields := mk_raw_item {
  ri_item_id : option string;
  ri_question : option string;
  ri_evidence_required : option (list string);
  ri_strictness : option string;
  ri_depends_on : option (list string);
  ri_status : option string;
  ri_satisfied_at_step : option Z;
  ri_evidence_refs : option (list string);
  ri_pass_when_check : option string
}.

Inductive raw_item := RawItemNotDict | RawItem (f : raw_item_fields).

Record raw_checklist := mk_raw_checklist {
  rc_items : option (list raw_item);
  rc_termination_policy : option string;
  rc_version : option string
}.

Record checklist_contract := mk_checklist_contract {
  cc_run_id : string;
  cc_items : list checklist_item;
  cc_termination_policy : string;
  cc_reason_codes : list string;
  cc_version : string
}.

Definition parse_status (s : string) : item_status :=
  if String.eqb s "satisfied" then Satisfied
  else if String.eqb s "blocked" then Blocked
  else Unsatisfied.

Definition get_list (o : option (list string)) : list string :=
  match o with Some l => l | None => [] end.

(** One pass of the item loop of [normalise_checklist]: the normalised item
    (or [None] when it is skipped) and the reason codes it adds. *)
Definition normalise_item (idx : nat) (r : raw_item) : option checklist_item * list string :=
  match r with
  | RawItemNotDict => (None, ["schema_violation/checklist_contract_missing_required"])
  | RawItem f =>
      let iid := strip (get_str (ri_item_id f) (String.append "item-" (pad3 idx))) in
      let q := strip (get_str (ri_question f) "") in
      let strictness0 := strip (get_str (ri_strictness f) "normal") in
      let status0 := strip (get_str (ri_status f) "unsatisfied") in
      let pwc := strip (get_str (ri_pass_when_check f) iid) in
      if is_empty q || is_empty iid then (None, ["schema_violation/checklist_contract_missing_required"])
      else
        let strict_ok := String.eqb strictness0 "strict" || String.eqb strictness0 "normal" in
        (Some (mk_item iid q (get_list (ri_evidence_required f))
                 (if strict_ok then strictness0 else "normal")
                 (get_list (ri_depends_on f)) (parse_status status0) (ri_satisfied_at_step f)
                 (get_list (ri_evidence_refs f)) pwc),
         if strict_ok then [] else ["schema_violation/checklist_invalid_strictness"])
  end.

Fixpoint normalise_items_from (idx : nat) (raw_items : list raw_item) : list checklist_item * list string :=
  match raw_items with
  | [] => ([], [])
  | r :: rest =>
      let '(it, codes) := normalise_item idx r in
      let '(items, codes') := normalise_items_from (S idx) rest in
      (match it with Some i => i :: items | None => items end, codes ++ codes')
  end.

(** [sorted(set(codes))]: insertion into a sorted list without duplicates;
    strings are ordered by code point, as Python orders them. *)
Fixpoint insert_unique (x : string) (l : list string) : list string :=
  match l with
  | [] => [x]
  | y :: l' =>
      match String_as_OT.compare x y with
      | Eq => l
      | Lt => x :: l
      | Gt => y :: insert_unique x l'
      end
  end.

Definition sorted_set (codes : list string) : list string := fold_right insert_unique [] codes.

(** ** Python exceptions

    A computation of the scripts either returns a value or raises one of
    the exceptions below; none of them is caught, so the process then exits
    with status 1 after printing a traceback on stderr. *)

Inductive py_error := RecursionError | OverflowError | ValueError | TypeError.

Inductive outcome (A : Type) := Return (a : A) | Raise (e : py_error).
Arguments Return {A} a.
Arguments Raise {A} e.

(** *** [_checklist_cycle] *)

(** [graph = {item_id: depends_on for item in items}]. *)
Definition build_graph (items : list checklist_item) : list (string * list string) :=
  fold_left (fun g item => dict_set g (item_id item) (depends_on item)) items [].

(** The loop [for dep in graph.get(node, []): if dep in graph and dfs(dep):
    return True] of the nested [dfs], with the shared [visited] and [stack]
    sets given as lists; an exception of a nested call propagates. *)
Fixpoint dfs_deps (dfs : string -> list string -> list string -> outcome (bool * list string * list string))
    (graph : list (string * list string)) (deps visited stack : list string)
    : outcome (bool * list string * list string) :=
  match deps with
  | [] => Return (false, visited, stack)
  | dep :: rest =>
      if dict_mem graph dep then
        match dfs dep visited stack with
        | Raise e => Raise e
        | Return (found, visited', stack') =>
            if found then Return (true, visited', stack') else dfs_deps dfs graph rest visited' stack'
        end
      else dfs_deps dfs graph rest visited stack
  end.

(** [stack.remove(node)] *)
Fixpoint remove_first (x : string) (l : list string) : list string :=
  match l with
  | [] => []
  | y :: l' => if String.eqb x y then l' else y :: remove_first x l'
  end.

(** The recursive [dfs]. [room] is the number of [dfs] frames the
    interpreter still allows on top of the stack when the call is made: a
    call made with no room left raises [RecursionError] (with CPython's
    default recursion limit of 1000, a top-level call from the generator of
    [any(...)] has room for about 995 nested frames). *)
Fixpoint dfs (room : nat) (graph : list (string * list string)) (node : string) (visited stack : list string)
    : outcome (bool * list string * list string) :=
  match room with
  | O => Raise RecursionError
  | S room' =>
      if mem node stack then Return (true, visited, stack)
      else if mem node visited then Return (false, visited, stack)
      else
        match dfs_deps (dfs room' graph) graph (dict_get_default graph node []) (node :: visited) (node :: stack) with
        | Raise e => Raise e
        | Return (found, visited', stack') =>
            if found then Return (true, visited', stack') else Return (false, visited', remove_first node stack')
        end
  end.

(** [any(dfs(node) for node in graph)], short-circuiting; every top-level
    call starts from the same stack depth. *)
Fixpoint any_dfs (room : nat) (graph : list (string * list string)) (nodes visited stack : list string)
    : outcome bool :=
  match nodes with
  | [] => Return false
  | node :: rest =>
      match dfs room graph node visited stack with
      | Raise e => Raise e
      | Return (found, visited', stack') => if found then Return true else any_dfs room graph rest visited' stack'
      end
  end.

Definition checklist_cycle (room : nat) (items : list checklist_item) : outcome bool :=
  let graph := build_graph items in
  any_dfs room graph (map fst graph) [] [].

(** The edges [_checklist_cycle] follows: from a node of the graph to each
    of its dependencies that is a node of the graph. *)
Definition graph_edge (graph : list (string * list string)) (u v : string) : Prop :=
  In v (dict_get_default graph u []) /\ dict_mem graph v = true.

(** The [depends_on] relation of a list of items, restricted to targets that
    are the id of some item. *)
Definition item_edge (items : list checklist_item) (u v : string) : Prop :=
  exists it, In it items /\ item_id it = u /\ In v (depends_on it) /\ In v (map item_id items).

(** The number of graph nodes not yet visited: it bounds the depth of the
    recursion. *)
Definition dfs_unvisited (graph : list (string * list string)) (visited : list string) : nat :=
  List.length (filter (fun k => negb (mem k visited)) (map fst graph)).

(** The invariant of the search: visited nodes that are off the stack lie
    on no cycle. *)
Definition no_black_cycle (graph : list (string * list string)) (visited stack : list string) : Prop :=
  forall b, In b visited -> ~ In b stack -> ~ clos_trans string (graph_edge graph) b b.

(** What a call [dfs(node)] may assume: every node on the stack reaches
    [node]; and what it guarantees: a [True] answer comes from a cycle, a
    [False] answer leaves the stack as it found it. *)
Definition dfs_pre (graph : list (string * list string)) (stack : list string) (node : string) : Prop :=
  forall x, In x stack -> clos_trans string (graph_edge graph) x node.

Definition dfs_post (graph : list (string * list string)) (r : outcome (bool * list string * list string))
    (stack : list string) : Prop :=
  match r with
  | Raise _ => True
  | Return (found, _, stack') =>
      (found = true -> exists u, clos_trans string (graph_edge graph) u u) /\
      (found = false -> stack' = stack)
  end.

(** [normalise_checklist], with the room of the [dfs] frames of
    [_checklist_cycle]; [None] when the raw checklist is not an object. *)
Definition normalise_checklist (room : nat) (raw : option raw_checklist) (run_id : string)
    : outcome (checklist_contract * list string) :=
  match raw with
  | None => Return (mk_checklist_contract run_id [] "strict_gate" [] "1.0.0", [])
  | Some rc =>
      let '(items, codes0) := normalise_items_from 1 (match rc_items rc with Some l => l | None => [] end) in
      match checklist_cycle room items with
      | Raise e => Raise e
      | Return cyc =>
          let codes := codes0 ++ (if cyc then ["schema_violation/checklist_dependency_cycle"] else []) in
          Return (mk_checklist_contract run_id items (get_str (rc_termination_policy rc) "strict_gate")
                    (sorted_set codes) (get_str (rc_version rc) "1.0.0"),
                  sorted_set codes)
      end
  end.

(** ** The checklist status rule as the spec states it (4.3)

    Written from the spec's words, to be compared with
    [build_checklist_state]: an item is blocked when some [depends_on] target's
    current status (its status in the same iteration; none when no item has
    that id) is not satisfied, otherwise satisfied when its check passed,
    otherwise unsatisfied. *)

(** The status of the last row with id [k]. *)
Definition find_status (rows : list checklist_item) (k : string) : option item_status :=
  fold_left (fun acc r => if String.eqb (item_id r) k then Some (status r) else acc) rows None.

Definition spec_status (current : list checklist_item) (check_pass_map : list (string * bool))
    (item : checklist_item) : item_status :=
  if existsb (fun dep => negb (is_satisfied (find_status current dep))) (depends_on item) then Blocked
  else if dict_get_default check_pass_map (pass_when_check item) false then Satisfied else Unsatisfied.

(** Dependencies come before dependents in the list: every [depends_on]
    target that is the id of some item is the id of an earlier item. *)
Fixpoint deps_before (seen all_ids : list string) (items : list checklist_item) : bool :=
  match items with
  | [] => true
  | item :: rest =>
      forallb (fun dep => negb (mem dep all_ids) || mem dep seen) (depends_on item)
      && deps_before (item_id item :: seen) all_ids rest
  end.

Definition topologically_ordered (items : list checklist_item) : bool :=
  deps_before [] (map item_id items) items.

(** The rows and the flipped ids that one call of [build_checklist_state]
    returns. *)
Definition checklist_rows (items : list checklist_item) (cpm : list (string * bool)) (iteration : nat)
    : list checklist_item :=
  fst (fst (fst (build_checklist_state items cpm iteration))).

Definition checklist_flips (items : list checklist_item) (cpm : list (string * bool)) (iteration : nat)
    : list string :=
  snd (fst (fst (build_checklist_state items cpm iteration))).

(** The fields of a checklist row that [_build_checklist_state] copies from
    the item ([row = dict(item)]): all but [status] and
    [satisfied_at_step]. *)
Definition item_frame (it : checklist_item)
    : string * string * list string * string * list string * list string * string :=
  (item_id it, question it, evidence_required it, strictness it, depends_on it, evidence_refs it,
   pass_when_check it).

(** The reason codes the loop itself appends (lines 322-389). *)
Definition loop_codes : list string :=
  ["validation_failed/checklist_strict_failed"; "evidence_missing/checklist_evidence_missing";
   "no_progress/no_progress_loop"; "validation_failed/diagnostic_no_improvement"].

(** The [budget_respected] gate score of the summary:
    [iterations <= max_iterations]. *)
Definition budget_respected (c : contract) (m : run_summary) : bool :=
  Z.leb (Z.of_nat (summary_iterations m)) (max_iterations c).

(** ** JSON values of the task and contract documents

    What [json.loads] produces: [None], a bool, an int, a float, a string, a
    list or a dict (one entry per key, the last one in the document). A
    float is a finite double, given by its exact value, an infinity or NaN
    ([json.loads] accepts [Infinity], [-Infinity] and [NaN]). *)

Inductive pyfloat := FFin (q : Q) | FInf (negative : bool) | FNaN.

#[warnings="-register-all"]
Inductive json :=
| JNull
| JBool (b : bool)
| JInt (z : Z)
| JFloat (f : pyfloat)
| JStr (s : string)
| JList (l : list json)
| JObj (fields : list (string * json)).

(** [isinstance(x, (int, float))]: [bool] is a subclass of [int]. *)
Definition is_number (j : json) : bool :=
  match j with JBool _ | JInt _ | JFloat _ => true | _ => false end.

Definition is_null (j : json) : bool := match j with JNull => true | _ => false end.
Definition is_str (j : json) : bool := match j with JStr _ => true | _ => false end.
Definition is_dict (j : json) : bool := match j with JObj _ => true | _ => false end.

(** [x is True] *)
Definition is_true (j : json) : bool := match j with JBool true => true | _ => false end.

(** [x == "letta"] *)
Definition is_letta (j : json) : bool := match j with JStr s => String.eqb s "letta" | _ => false end.

(** [not str(x).strip()]: [str()] of [None], a bool, a number, a list or a
    dict is never blank, so only a blank string is. *)
Definition str_blank (j : json) : bool := match j with JStr s => is_empty (strip s) | _ => false end.

(** The smallest int [float()] refuses with [OverflowError]: the midpoint
    between the largest double and [2^1024], which rounds to even, upwards. *)
Definition float_overflow : Z := (2 ^ 1024 - 2 ^ 970)%Z.

(** [float(x)] of a number; [None] when it raises. Of an int in range it is
    the nearest double, which is below, equal to or above 0.0 and 1.0
    exactly when the int is (0 and 1 are doubles and rounding is monotone):
    that is all the validators and the score tests compare, so the int's
    own value stands for it. *)
Definition float_conv (j : json) : option pyfloat :=
  match j with
  | JBool b => Some (FFin (if b then 1%Q else 0%Q))
  | JInt z => if Z.leb float_overflow (Z.abs z) then None else Some (FFin (inject_Z z))
  | JFloat f => Some f
  | _ => None
  end.

(** [f < b], [f > b] and [f <= b] for a float [f] and a finite bound [b];
    every comparison with NaN is false. *)
Definition float_lt (f : pyfloat) (b : Q) : bool :=
  match f with FFin q => negb (Qle_bool b q) | FInf neg => neg | FNaN => false end.
Definition float_gt (f : pyfloat) (b : Q) : bool :=
  match f with FFin q => negb (Qle_bool q b) | FInf neg => negb neg | FNaN => false end.
Definition float_le (f : pyfloat) (b : Q) : bool :=
  match f with FFin q => Qle_bool q b | FInf neg => neg | FNaN => false end.

(** The loop [for item in raw: ...] of a validator, [None] when one pass
    raises. *)
Fixpoint collect (f : json -> option (list string)) (l : list json) : option (list string) :=
  match l with
  | [] => Some []
  | x :: rest =>
      match f x with
      | None => None
      | Some a => match collect f rest with None => None | Some b => Some (a ++ b) end
      end
  end.

(** Two runs of a validator report the same set of codes, or both raise. *)
Definition same_codes (o1 o2 : option (list string)) : Prop :=
  match o1, o2 with
  | None, None => True
  | Some a, Some b => forall x, In x a <-> In x b
  | _, _ => False
  end.

Definition evidence_required_fields : list string := ["source"; "location"; "span"; "confidence"].

Definition letta_pointer_required_fields : list string :=
  ["provider"; "folder_id"; "document_id"; "source_uri"; "content_hash"; "synced_at_unix"; "provenance_tag"].

Definition correction_rollout_required : list string := ["run_id"; "task_signature"; "attempt_1"; "attempt_2"].

(** The validators of compile_checks.py. *)
Module CompileChecks.

(** One pass of the loop of [_validate_evidence_objects] (lines 133-145). *)
Definition evidence_item_codes (item : json) : option (list string) :=
  match item with
  | JObj fields =>
      let missing := filter (fun key => negb (dict_mem fields key)) evidence_required_fields in
      let c1 := match missing with [] => [] | _ :: _ => ["schema_violation/evidence_object_missing_required"] end in
      let confidence := dict_get_default fields "confidence" JNull in
      let c2 :=
        if negb (is_number confidence) then Some ["schema_violation/evidence_object_invalid_type"]
        else match float_conv confidence with
             | None => None
             | Some f => Some (if float_lt f 0 || float_gt f 1
                               then ["validation_failed/evidence_confidence_out_of_range"] else [])
             end in
      let c3 := if dict_mem fields "location" && negb (is_dict (dict_get_default fields "location" JNull))
                then ["schema_violation/evidence_object_invalid_type"] else [] in
      match c2 with None => None | Some c2 => Some (c1 ++ c2 ++ c3) end
  | _ => Some ["schema_violation/evidence_object_invalid_type"]
  end.

Definition validate_evidence_objects (raw : json) : option (list string) :=
  match raw with
  | JList l => match collect evidence_item_codes l with None => None | Some codes => Some (sorted_set codes) end
  | _ => Some []
  end.

(** One pass of the loop of [_validate_letta_pointers] (lines 154-172). *)
Definition letta_item_codes (item : json) : option (list string) :=
  match item with
  | JObj fields =>
      let missing := filter (fun key => negb (dict_mem fields key)) letta_pointer_required_fields in
      let c1 := match missing with [] => [] | _ :: _ => ["schema_violation/letta_pointer_missing_required"] end in
      let provider := dict_get_default fields "provider" JNull in
      let c2 := if negb (is_null provider) && negb (is_letta provider)
                then ["schema_violation/letta_pointer_invalid_type"] else [] in
      let c3 := if str_blank (dict_get_default fields "content_hash" (JStr ""))
                then ["validation_failed/letta_pointer_hash_missing"] else [] in
      let synced_at := dict_get_default fields "synced_at_unix" JNull in
      let c4 :=
        if is_null synced_at || negb (is_number synced_at) then Some ["schema_violation/letta_pointer_invalid_type"]
        else match float_conv synced_at with
             | None => None
             | Some f => Some (if float_le f 0 then ["validation_failed/letta_pointer_stale_sync"] else [])
             end in
      let c5 := if is_true (dict_get_default fields "stale" (JBool false))
                   || is_true (dict_get_default fields "is_stale" (JBool false))
                then ["validation_failed/letta_pointer_stale_sync"] else [] in
      match c4 with None => None | Some c4 => Some (c1 ++ c2 ++ c3 ++ c4 ++ c5) end
  | _ => Some ["schema_violation/letta_pointer_invalid_type"]
  end.

Definition validate_letta_pointers (raw : json) : option (list string) :=
  match raw with
  | JNull => Some []
  | JList l => match collect letta_item_codes l with None => None | Some codes => Some (sorted_set codes) end
  | _ => Some ["schema_violation/letta_pointer_invalid_type"]
  end.

(** [_validate_correction_rollout] (lines 176-190). *)
Definition validate_correction_rollout (raw : json) : list string :=
  match raw with
  | JNull => []
  | JObj fields =>
      sorted_set
        (flat_map (fun key => if str_blank (dict_get_default fields key (JStr ""))
                              then ["schema_violation/correction_rollout_missing_required"] else [])
                  correction_rollout_required
         ++ (if dict_mem fields "attempt_2" && str_blank (dict_get_default fields "attempt_2" (JStr ""))
             then ["validation_failed/self_correction_missing_o2"] else [])
         ++ (if dict_mem fields "task_signature" && negb (is_str (dict_get_default fields "task_signature" JNull))
             then ["schema_violation/correction_rollout_mismatched_task_signature"] else []))
  | _ => ["schema_violation/correction_rollout_missing_required"]
  end.

End CompileChecks.

(** The validators of run_until_green.py. *)
Module RunUntilGreen.

(** One pass of the loop of [_validate_evidence_objects] (lines 126-139):
    one code per missing field. *)
Definition evidence_item_codes (item : json) : option (list string) :=
  match item with
  | JObj fields =>
      let c1 := flat_map (fun key => if dict_mem fields key then []
                                     else ["schema_violation/evidence_object_missing_required"])
                         evidence_required_fields in
      let confidence := dict_get_default fields "confidence" JNull in
      let c2 :=
        if negb (is_number confidence) then Some ["schema_violation/evidence_object_invalid_type"]
        else match float_conv confidence with
             | None => None
             | Some f => Some (if float_lt f 0 || float_gt f 1
                               then ["validation_failed/evidence_confidence_out_of_range"] else [])
             end in
      let c3 := if dict_mem fields "location" && negb (is_dict (dict_get_default fields "location" JNull))
                then ["schema_violation/evidence_object_invalid_type"] else [] in
      match c2 with None => None | Some c2 => Some (c1 ++ c2 ++ c3) end
  | _ => Some ["schema_violation/evidence_object_invalid_type"]
  end.

Definition validate_evidence_objects (raw : json) : option (list string) :=
  match raw with
  | JList l => match collect evidence_item_codes l with None => None | Some codes => Some (dedupe codes) end
  | _ => Some []
  end.

(** One pass of the loop of [_validate_letta_pointers] (lines 149-166). *)
Definition letta_item_codes (item : json) : option (list string) :=
  match item with
  | JObj fields =>
      let c1 := flat_map (fun key => if dict_mem fields key then []
                                     else ["schema_violation/letta_pointer_missing_required"])
                         letta_pointer_required_fields in
      let provider := dict_get_default fields "provider" JNull in
      let c2 := if negb (is_null provider || is_letta provider)
                then ["schema_violation/letta_pointer_invalid_type"] else [] in
      let c3 := if str_blank (dict_get_default fields "content_hash" (JStr ""))
                then ["validation_failed/letta_pointer_hash_missing"] else [] in
      let synced_at := dict_get_default fields "synced_at_unix" JNull in
      let c4 :=
        if negb (is_number synced_at) then Some ["schema_violation/letta_pointer_invalid_type"]
        else match float_conv synced_at with
             | None => None
             | Some f => Some (if float_le f 0 then ["validation_failed/letta_pointer_stale_sync"] else [])
             end in
      let c5 := if is_true (dict_get_default fields "stale" (JBool false))
                   || is_true (dict_get_default fields "is_stale" (JBool false))
                then ["validation_failed/letta_pointer_stale_sync"] else [] in
      match c4 with None => None | Some c4 => Some (c1 ++ c2 ++ c3 ++ c4 ++ c5) end
  | _ => Some ["schema_violation/letta_pointer_invalid_type"]
  end.

Definition validate_letta_pointers (raw : json) : option (list string) :=
  match raw with
  | JNull => Some []
  | JList l => match collect letta_item_codes l with None => None | Some codes => Some (dedupe codes) end
  | _ => Some ["schema_violation/letta_pointer_invalid_type"]
  end.

(** [_validate_correction_rollout] (lines 170-184). *)
Definition validate_correction_rollout (raw : json) : list string :=
  match raw with
  | JNull => []
  | JObj fields =>
      dedupe
        (flat_map (fun key => if str_blank (dict_get_default fields key (JStr ""))
                              then ["schema_violation/correction_rollout_missing_required"] else [])
                  correction_rollout_required
         ++ (if dict_mem fields "attempt_2" && str_blank (dict_get_default fields "attempt_2" (JStr ""))
             then ["validation_failed/self_correction_missing_o2"] else [])
         ++ (if dict_mem fields "task_signature" && negb (is_str (dict_get_default fields "task_signature" JNull))
             then ["schema_violation/correction_rollout_mismatched_task_signature"] else []))
  | _ => ["schema_violation/correction_rollout_missing_required"]
  end.

End RunUntilGreen.

(** ** Python conversions and tests on JSON values *)

(** [bool(x)]: [None], [False], zero, the empty string, list and dict are
    false; NaN and the infinities are true. *)
Definition truthy (j : json) : bool :=
  match j with
  | JNull => false
  | JBool b => b
  | JInt z => negb (Z.eqb z 0)
  | JFloat (FFin q) => negb (Qeq_bool q 0)
  | JFloat _ => true
  | JStr s => negb (is_empty s)
  | JList l => match l with [] => false | _ :: _ => true end
  | JObj fields => match fields with [] => false | _ :: _ => true end
  end.

(** [x if isinstance(x, dict) else {}] *)
Definition dict_of (j : json) : list (string * json) :=
  match j with JObj fields => fields | _ => [] end.

(** [x == lit] for a string literal [lit]. *)
Definition str_is (j : json) (lit : string) : bool :=
  match j with JStr s => String.eqb s lit | _ => false end.

(** [str.lower()] on ASCII text. *)
Definition ascii_lower (a : ascii) : ascii :=
  let n := nat_of_ascii a in
  if Nat.leb 65 n && Nat.leb n 90 then ascii_of_nat (n + 32) else a.

Fixpoint lower (s : string) : string :=
  match s with
  | EmptyString => EmptyString
  | String a s' => String (ascii_lower a) (lower s')
  end.

(** [str(x).strip().lower() == "degraded"]: the [str()] image of [None], a
    bool, a number, a list or a dict never is. *)
Definition sync_degraded (j : json) : bool :=
  match j with JStr s => String.eqb (lower (strip s)) "degraded" | _ => false end.

(** [str(x) in {"untrusted", "generated_untrusted"}]: likewise only a string
    can be one of them. *)
Definition untrusted_level (j : json) : bool :=
  str_is j "untrusted" || str_is j "generated_untrusted".

Definition is_digit (a : ascii) : bool :=
  Nat.leb 48 (nat_of_ascii a) && Nat.leb (nat_of_ascii a) 57.

Definition digit_value (a : ascii) : Z := Z.of_nat (nat_of_ascii a - 48).

(** The digits after the first one, [_] only between two digits: the value
    and the number of digits, [None] on any other text. *)
Fixpoint digits_after (s : string) (acc : Z) (count : nat) : option (Z * nat) :=
  match s with
  | EmptyString => Some (acc, count)
  | String a s' =>
      if is_digit a then digits_after s' (acc * 10 + digit_value a)%Z (S count)
      else if Ascii.eqb a "_" then
        match s' with
        | String b s'' =>
            if is_digit b then digits_after s'' (acc * 10 + digit_value b)%Z (S count) else None
        | EmptyString => None
        end
      else None
  end.

(** [sys.int_info.default_max_str_digits] *)
Definition int_max_str_digits : nat := 4300.

(** [int(s)] of a string: surrounding whitespace, an optional sign, then
    decimal digits with single underscores between them, at most 4300 of
    them; [ValueError] otherwise. *)
Definition int_of_str (s : string) : outcome Z :=
  let t := strip s in
  let '(negative, body) :=
    match t with
    | String "-"%char r => (true, r)
    | String "+"%char r => (false, r)
    | _ => (false, t)
    end in
  match body with
  | String a r =>
      if is_digit a then
        match digits_after r (digit_value a) 1 with
        | Some (v, n) =>
            if Nat.ltb int_max_str_digits n then Raise ValueError
            else Return (if negative then Z.opp v else v)
        | None => Raise ValueError
        end
      else Raise ValueError
  | EmptyString => Raise ValueError
  end.

(** [int(x)] of a JSON value: a float is truncated towards zero. *)
Definition py_int (j : json) : outcome Z :=
  match j with
  | JBool b => Return (if b then 1%Z else 0%Z)
  | JInt z => Return z
  | JFloat (FFin q) => Return (Z.quot (Qnum q) (Zpos (Qden q)))
  | JFloat (FInf _) => Raise OverflowError
  | JFloat FNaN => Raise ValueError
  | JStr s => int_of_str s
  | JNull | JList _ | JObj _ => Raise TypeError
  end.

(** The frames [json.dumps(x, indent=2)] needs to encode [x]: its
    pure-Python encoder spends one frame on each list or dict, empty ones
    included, and one on each float it writes ([floatstr]); ints, strings,
    bools and [None] are written without a call. *)
Fixpoint json_depth (j : json) : nat :=
  match j with
  | JList l =>
      S ((fix go (l : list json) : nat :=
            match l with [] => O | x :: r => Nat.max (json_depth x) (go r) end) l)
  | JObj fields =>
      S ((fix go (f : list (string * json)) : nat :=
            match f with [] => O | (_, x) :: r => Nat.max (json_depth x) (go r) end) fields)
  | JFloat _ => 1
  | _ => O
  end.

(** [f >= b] for a float [f] and a finite bound [b]. *)
Definition float_ge (f : pyfloat) (b : Q) : bool :=
  match f with FFin q => Qle_bool b q | FInf neg => negb neg | FNaN => false end.

(** ** The auxiliary declarations of a task or contract object

    Both scripts read the same fields with the same defaults, from the task
    (compile_checks.py, lines 229-245) or from the contract
    (run_until_green.py, lines 192-211). [str()] of a parsed value does not
    raise: [json.loads] has already refused ints of more than 4300 digits. *)

Definition memory_bundle_of (d : list (string * json)) : list (string * json) :=
  dict_of (dict_get_default d "memory_update_bundle" (JObj [])).

Definition execution_audit_of (d : list (string * json)) : list (string * json) :=
  dict_of (dict_get_default d "execution_audit" (JObj [])).

Definition evidence_objects_of (d : list (string * json)) : json :=
  dict_get_default d "evidence_objects" (dict_get_default d "evidence_refs" (JList [])).

(** [correction_rollout], replaced by [{}] unless it is [None] or a dict. *)
Definition rollout_of (d : list (string * json)) : json :=
  match dict_get_default d "correction_rollout" (JObj []) with
  | JNull => JNull
  | JObj fields => JObj fields
  | _ => JObj []
  end.

(** [external_context_pointers], replaced by [[]] unless it is a list. *)
Definition pointers_of (d : list (string * json)) : json :=
  match dict_get_default d "external_context_pointers" (JList []) with
  | JList l => JList l
  | _ => JList []
  end.

Definition policy_of (d : list (string * json)) : list (string * json) :=
  dict_of (dict_get_default d "external_context_policy" (JObj [])).

(** The Letta runtime flags, in order (compile_checks.py lines 264-275,
    run_until_green.py lines 422-433). *)
Definition letta_flag_codes (d : list (string * json)) : list string :=
  let letta_runtime_enabled := truthy (dict_get_default d "letta_runtime_enabled" (JBool false)) in
  let letta_agent_id := dict_get_default d "letta_agent_id" (JStr "") in
  let letta_sync_status := dict_get_default d "letta_sync_status" (JStr "") in
  let letta_publish_attempted := truthy (dict_get_default d "letta_publish_attempted" (JBool false)) in
  let validator_passed := truthy (dict_get_default d "validator_passed" (JBool false)) in
  let governor_approved := truthy (dict_get_default d "governor_approved" (JBool false)) in
  (if letta_runtime_enabled && str_blank letta_agent_id
   then ["validation_failed/letta_agent_missing"] else [])
  ++ (if letta_runtime_enabled && str_blank letta_sync_status
      then ["validation_failed/letta_sync_missing"] else [])
  ++ (if letta_runtime_enabled && sync_degraded letta_sync_status
      then ["integration_degraded/letta_sync_failed"] else [])
  ++ (if truthy (dict_get_default d "letta_sync_stale" (JBool false))
      then ["integration_degraded/letta_stale"] else [])
  ++ (if letta_publish_attempted && negb validator_passed
      then ["validation_failed/letta_publish_without_gate"] else [])
  ++ (if letta_publish_attempted && negb governor_approved
      then ["policy_violation/letta_publish_without_governor"] else []).

(** Direct external writes (compile_checks.py lines 278-285,
    run_until_green.py lines 437-444). *)
Definition direct_write_codes (d : list (string * json)) : list string :=
  let memory_bundle := memory_bundle_of d in
  let direct_external_write :=
    truthy (dict_get_default d "direct_external_memory_write" (JBool false))
    || truthy (dict_get_default d "external_memory_write_committed" (JBool false))
    || truthy (dict_get_default memory_bundle "direct_external_memory_write" (JBool false))
    || truthy (dict_get_default memory_bundle "external_write_committed" (JBool false)) in
  if truthy (dict_get_default (policy_of d) "direct_external_writes_forbidden" (JBool true))
     && direct_external_write
  then ["policy_violation/letta_direct_memory_write_forbidden"] else [].

(** The trust level (compile_checks.py lines 286-290, run_until_green.py
    lines 445-449). *)
Definition trust_codes (d : list (string * json)) : list string :=
  let execution_audit := execution_audit_of d in
  let trust_level :=
    dict_get_default d "trust_level" (dict_get_default execution_audit "trust_level" (JStr "trusted")) in
  if untrusted_level trust_level then
    (if str_blank (dict_get_default execution_audit "execution_profile"
                     (dict_get_default d "requested_profile" (JStr "")))
     then ["validation_failed/missing_execution_profile"] else [])
    ++ (if str_blank (dict_get_default execution_audit "audit_ref" (dict_get_default d "audit_ref" (JStr "")))
        then ["validation_failed/missing_execution_audit_ref"] else [])
  else [].

Definition memory_bundle_required_keys : list string :=
  ["worktree_path"; "candidate_changes"; "evidence_refs"; "commit_message"; "reason_codes"].

(** The memory bundle checks of compile_checks.py (lines 250-259). *)
Definition compile_memory_codes (task : list (string * json)) : list string :=
  let memory_bundle := memory_bundle_of task in
  let memory_required :=
    str_is (dict_get_default task "task_tag" JNull) "memory_write" || truthy (JObj memory_bundle) in
  if memory_required then
    flat_map (fun key => if dict_mem memory_bundle key then []
                         else ["schema_violation/memory_update_bundle_missing_required"])
      memory_bundle_required_keys
    ++ (if truthy (JObj memory_bundle) && negb (truthy (dict_get_default memory_bundle "commit_message" JNull))
        then ["validation_failed/memory_commit_missing"] else [])
    ++ (if truthy (JObj memory_bundle) && negb (truthy (dict_get_default memory_bundle "evidence_refs" JNull))
        then ["validation_failed/memory_provenance_missing"] else [])
    ++ (if truthy (dict_get_default memory_bundle "defrag_run" (JBool false))
           && negb (truthy (dict_get_default memory_bundle "relocation_pointers" JNull))
        then ["validation_failed/defrag_relocation_missing"] else [])
  else [].

(** Lines 250-290 of compile_checks.py: the codes of the auxiliary
    declarations of a task, in order. [_validate_evidence_objects] and
    [_validate_letta_pointers] raise [OverflowError] on an int too large
    for [float()]. *)
Definition compile_aux_codes (task : list (string * json)) : outcome (list string) :=
  let strict_evidence := truthy (dict_get_default task "strict_evidence_objects" (JBool false)) in
  let correction_rollout := rollout_of task in
  let external_context_pointers := pointers_of task in
  match (if strict_evidence then CompileChecks.validate_evidence_objects (evidence_objects_of task)
         else Some []) with
  | None => Raise OverflowError
  | Some evidence_codes =>
      let rollout_codes :=
        if truthy correction_rollout then CompileChecks.validate_correction_rollout correction_rollout
        else [] in
      match (if truthy external_context_pointers
             then CompileChecks.validate_letta_pointers external_context_pointers else Some []) with
      | None => Raise OverflowError
      | Some pointer_codes =>
          Return (compile_memory_codes task ++ evidence_codes ++ rollout_codes ++ letta_flag_codes task
                  ++ pointer_codes ++ direct_write_codes task ++ trust_codes task)
      end
  end.

(** *** [main] of compile_checks.py *)

(** A raw task: the object [read_json] returns ([task_fields]), with the
    views of [acceptance_tests] and [checklist_contract] that the
    normalisation reads. [acceptance_tests] is [None] when it is absent or
    not a list; [task_checklist_contract] is [None] when it is not an object
    (an absent key is the empty object). *)
Record raw_task := mk_task {
  acceptance_tests : option (list raw_check);
  task_checklist_contract : option raw_checklist;
  task_fields : list (string * json)
}.

Record compiled_contract := mk_compiled {
  contract_run_id : string;
  contract_checks : list check;
  contract_checklist : checklist_contract;
  contract_max_iterations : Z;
  contract_progress_delta : Q;
  contract_reason_codes : list string
}.

(** [_fail_payload], with its [skill_result] fields flattened. *)
Record fail_payload := mk_fail_payload {
  fail_error : string;
  fail_reason_codes : list string;
  fail_ok : bool;
  fail_check_count : nat;
  fail_failure_codes : list string;
  fail_progress_delta : Q;
  fail_skill_reason_codes : list string
}.

Definition fail_payload_of (run_id : string) (reason_codes : list string) (check_count : nat) : fail_payload :=
  mk_fail_payload "Validation contract is invalid. Gate fails closed." reason_codes false check_count
    reason_codes 0%Q reason_codes.

(** What [main] prints: the fail payload, the summary of a compiled
    contract, or nothing, when an exception ends the process with status 1
    (its traceback goes to stderr). *)
Inductive compile_output :=
| CompileFailed (p : fail_payload)
| CompileEmitted (ok : bool) (progress_delta : Q) (reason_codes : list string)
| CompileRaised (e : py_error).

Definition tests_codes (checks : list check) : list string :=
  match checks with
  | [] => ["validation_failed/tests_not_run"; "schema_violation/validation_contract_missing_checks"]
  | _ :: _ => []
  end.

(** Lines 246-290 before [sorted(set(...))]; [room] is the number of nested
    [dfs] frames the interpreter still allows when [_checklist_cycle] runs. *)
Definition compile_reason_codes (room : nat) (t : raw_task) (run_id : string) : outcome (list string) :=
  match normalise_checklist room (task_checklist_contract t) run_id with
  | Raise e => Raise e
  | Return (_, checklist_codes) =>
      match compile_aux_codes (task_fields t) with
      | Raise e => Raise e
      | Return aux => Return (tests_codes (normalise_checks (acceptance_tests t)) ++ checklist_codes ++ aux)
      end
  end.

(** [round(min(1.0, len(checks) / 10.0), 3)] *)
Definition static_progress_delta (n : nat) : Q :=
  if Nat.leb 10 n then 1%Q else Qdiv (inject_Z (Z.of_nat n)) (inject_Z 10).

(** The frames [json.dumps(..., indent=2)] needs for the fail payload and
    for the final summary: [skill_result], [tool_calls], its dict and the
    float [duration_ms]. *)
Definition fail_payload_nesting : nat := 5.
Definition compile_summary_nesting : nat := 5.

(** The frames [json.dumps(contract, indent=2)] needs (lines 296-335): the
    checks are dicts of strings, the checklist items dicts holding lists,
    the gate scores dicts of dicts holding a float weight; the other members
    are copied from the task. *)
Definition contract_nesting (task : list (string * json)) (c : compiled_contract) : nat :=
  S (fold_right Nat.max O
       [ match contract_checks c with [] => 1 | _ :: _ => 2 end;
         match cc_items (contract_checklist c) with [] => 2 | _ :: _ => 4 end;
         json_depth (JObj (memory_bundle_of task));
         json_depth (JObj (execution_audit_of task));
         json_depth (match evidence_objects_of task with JList l => JList l | _ => JList [] end);
         json_depth (pointers_of task);
         json_depth (JObj (policy_of task));
         json_depth (rollout_of task);
         json_depth (dict_get_default task "stop_conditions" (JList [JStr "all_checks_pass"]));
         json_depth (dict_get_default task "evidence_paths" (JList []));
         3; 1; 1 ]).

(** [main]: exit status, printed result and the contract.json written (if
    any). [room] is the number of nested [dfs] frames left when
    [_checklist_cycle] runs, [dump_room] the frames [json.dumps] can use in
    [main]; with the default recursion limit both are close to 1000. *)
Definition compile_checks_main (room dump_room : nat) (t : raw_task) (run_id : string)
    : Z * compile_output * option compiled_contract :=
  let checks := normalise_checks (acceptance_tests t) in
  match normalise_checklist room (task_checklist_contract t) run_id with
  | Raise e => (1%Z, CompileRaised e, None)
  | Return (checklist, checklist_codes) =>
      match compile_aux_codes (task_fields t) with
      | Raise e => (1%Z, CompileRaised e, None)
      | Return aux =>
          let reason_codes := sorted_set (tests_codes checks ++ checklist_codes ++ aux) in
          match reason_codes with
          | _ :: _ =>
              if Nat.leb fail_payload_nesting dump_room
              then (1%Z, CompileFailed (fail_payload_of run_id reason_codes (List.length checks)), None)
              else (1%Z, CompileRaised RecursionError, None)
          | [] =>
              match py_int (dict_get_default (task_fields t) "max_iterations" (JInt 5)) with
              | Raise e => (1%Z, CompileRaised e, None)
              | Return mx =>
                  let c := mk_compiled run_id checks checklist mx
                             (static_progress_delta (List.length checks)) [] in
                  if Nat.leb (contract_nesting (task_fields t) c) dump_room then
                    if Nat.leb compile_summary_nesting dump_room
                    then (0%Z, CompileEmitted true (contract_progress_delta c) [], Some c)
                    else (1%Z, CompileRaised RecursionError, Some c)
                  else (1%Z, CompileRaised RecursionError, None)
              end
          end
      end
  end.

(** The checklist items of a task after normalisation, the list
    [_checklist_cycle] searches. *)
Definition normalised_items (t : raw_task) : list checklist_item :=
  match task_checklist_contract t with
  | Some rc => fst (normalise_items_from 1 (match rc_items rc with Some l => l | None => [] end))
  | None => []
  end.

(** *** After the loop of run_until_green.py *)

(** The memory bundle checks of run_until_green.py (lines 404-412). *)
Definition run_memory_codes (memory_bundle : list (string * json)) : list string :=
  if truthy (JObj memory_bundle) then
    (if negb (truthy (dict_get_default memory_bundle "evidence_refs" JNull))
     then ["validation_failed/memory_provenance_missing"] else [])
    ++ (if negb (truthy (dict_get_default memory_bundle "commit_message" JNull))
        then ["validation_failed/memory_commit_missing"] else [])
    ++ (if negb (truthy (dict_get_default memory_bundle "worktree_path" JNull))
        then ["validation_failed/worktree_required_for_memory_write"] else [])
    ++ (if truthy (dict_get_default memory_bundle "defrag_run" (JBool false))
           && negb (truthy (dict_get_default memory_bundle "relocation_pointers" JNull))
        then ["validation_failed/defrag_relocation_missing"] else [])
  else [].

(** Lines 415-421, for a correction rollout that is a non-empty dict:
    [float(score_o1)] and, when it is at least 1.0, [float(score_o2)] raise
    [OverflowError] on an int too large. *)
Definition run_rollout_codes (rollout : json) : outcome (list string) :=
  let base := RunUntilGreen.validate_correction_rollout rollout in
  let score_o1 := dict_get_default (dict_of rollout) "validator_score_o1" JNull in
  let score_o2 := dict_get_default (dict_of rollout) "validator_score_o2" JNull in
  if negb (is_number score_o1) || negb (is_number score_o2)
  then Return (base ++ ["validation_failed/self_correction_unscored"])
  else
    match float_conv score_o1 with
    | None => Raise OverflowError
    | Some f1 =>
        if float_ge f1 1 then
          match float_conv score_o2 with
          | None => Raise OverflowError
          | Some f2 => Return (base ++ if float_lt f2 1 then ["validation_failed/self_correction_regressed"] else [])
          end
        else Return base
    end.

(** Lines 404-449: the codes appended after the loop, from the contract
    object; they do not depend on the loop. *)
Definition run_post_loop_codes (contract_fields : list (string * json)) : outcome (list string) :=
  let strict_evidence := truthy (dict_get_default contract_fields "strict_evidence_objects" (JBool false)) in
  let correction_rollout := rollout_of contract_fields in
  let external_context_pointers := pointers_of contract_fields in
  match (if strict_evidence
         then RunUntilGreen.validate_evidence_objects (evidence_objects_of contract_fields)
         else Some []) with
  | None => Raise OverflowError
  | Some evidence_codes =>
      match (if truthy correction_rollout then run_rollout_codes correction_rollout else Return []) with
      | Raise e => Raise e
      | Return rollout_codes =>
          match (if truthy external_context_pointers
                 then RunUntilGreen.validate_letta_pointers external_context_pointers else Some []) with
          | None => Raise OverflowError
          | Some pointer_codes =>
              Return (run_memory_codes (memory_bundle_of contract_fields) ++ evidence_codes ++ rollout_codes
                      ++ letta_flag_codes contract_fields ++ pointer_codes
                      ++ direct_write_codes contract_fields ++ trust_codes contract_fields)
          end
      end
  end.

(** The frames [json.dumps(summary, indent=2)] needs (lines 469-546): the
    summary nests its own fields once more under [skill_result] and
    [outputs]. Apart from the contract's [execution_audit] and
    [correction_rollout], the fields have a fixed shape: the checklist rows
    and deltas are dicts holding lists, the gate scores dicts of dicts
    holding a float weight, the progress summary a dict of floats and the
    list [history], the diagnostic result a dict of floats. *)
Definition summary_nesting (contract_fields : list (string * json)) (m : run_summary) : nat :=
  let correction_rollout := rollout_of contract_fields in
  let score key :=
    if truthy correction_rollout then dict_get_default (dict_of correction_rollout) key JNull else JNull in
  let outputs :=
    S (fold_right Nat.max O
         [ match summary_checklist_state m with [] => 1 | _ :: _ => 3 end;
           match summary_checklist_deltas m with [] => 1 | _ :: _ => 3 end;
           1; 3; 1;
           match summary_progress_history m with [] => 2 | _ :: _ => 3 end;
           1;
           match summary_diagnostic_result m with None => 1 | Some _ => 2 end;
           json_depth (JObj (execution_audit_of contract_fields));
           json_depth (if truthy correction_rollout then correction_rollout else JObj []);
           S (fold_right Nat.max O
                (map json_depth [score "validator_score_o1"; score "validator_score_o2";
                                 score "improvement_delta"]));
           1 ]) in
  S (S outputs).

(** [main] of run_until_green.py as a process: the exit status and the
    summary, when one is printed. [c] holds what the loop reads from the
    contract and [contract_fields] the contract object; its checks and
    checklist items have the shape compile_checks.py writes. [dump_room] is
    the number of frames [json.dumps] can use in [main]. The lines the loop
    logs are written by the C encoder ([indent] unset) and nest at most four
    levels (the timeline rows), well within the recursion limit. *)
Definition run_until_green (dump_room : nat) (c : contract) (contract_fields : list (string * json))
    (exec : executor) : Z * option run_summary :=
  match run_post_loop_codes contract_fields with
  | Raise _ => (1%Z, None)
  | Return post =>
      let '(m, code) := run_until_green_main c post exec in
      if Nat.leb (summary_nesting contract_fields m) dump_room then (code, Some m) else (1%Z, None)
  end.

(** ** Concrete inputs *)

Definition check_a : check := mk_check "check_a" "./check_a.sh" "exit_code_zero".
Definition check_b : check := mk_check "check_b" "./check_b.sh" "exit_code_zero".
Definition always_fail : check :=
  mk_check "always_fail" "python3 -c 'import sys; sys.exit(1)'" "exit_code_zero".

(** Every check exits with status 1 on every run. *)
Definition failing_exec : executor := fun _ _ _ _ => (1%Z, "").

(** [check_a] passes on iteration 1 only; [check_b] never passes. *)
Definition flaky_exec : executor :=
  fun i d k _ => if Nat.eqb i 1 && negb d && Nat.eqb k 0 then (0%Z, "") else (1%Z, "").

Definition item_a : checklist_item :=
  mk_item "a" "Does a hold?" [] "normal" [] Unsatisfied None [] "check_a".

Definition ratchet_contract : contract := mk_contract [check_a; check_b] [item_a] 2.

(** Scenario B of the spec: one check that always fails, four iterations,
    no checklist. *)
Definition scenario_b_contract : contract := mk_contract [always_fail] [] 4.

(** Scenario D of the spec: a strict item tied to a failing check. *)
Definition strict_item : checklist_item :=
  mk_item "strict-item" "Must pass check" ["iteration_log"] "strict" [] Unsatisfied None [] "always_fail".

Definition scenario_d_contract : contract := mk_contract [always_fail] [strict_item] 10.

(** A strict item [s] behind a normal item [a]: [s] is blocked while
    [check_a] fails (iterations 1 and 2) and unsatisfied once [check_a] passes
    and [check_b] fails (iteration 3); the score stays at 1/2 throughout. *)
Definition item_s : checklist_item :=
  mk_item "s" "Does s hold?" [] "strict" ["a"] Unsatisfied None [] "check_b".

Definition swap_exec : executor :=
  fun i _ k _ => if Nat.leb i 2 then (if Nat.eqb k 0 then (1%Z, "") else (0%Z, ""))
                 else (if Nat.eqb k 0 then (0%Z, "") else (1%Z, "")).

Definition strict_at_stall_contract : contract := mk_contract [check_a; check_b] [item_a; item_s] 5.

(** Item [b] depends on [a] but is listed first; both checks pass. *)
Definition item_b_first : checklist_item :=
  mk_item "b" "Does b hold?" [] "normal" ["a"] Unsatisfied None [] "check_b".

Definition both_pass : list (string * bool) := [("check_a", true); ("check_b", true)].

(** Raw checklist items for the compiler. *)
Definition raw_item_of (iid q : string) (deps : list string) : raw_item :=
  RawItem (mk_raw_item (Some iid) (Some q) None None (Some deps) None None None None).

(** The same item as it appears in the task document. *)
Definition raw_item_json (iid q : string) (deps : list string) : json :=
  JObj [("id", JStr iid); ("question", JStr q); ("depends_on", JList (map JStr deps))].

Definition echo_ok : raw_check :=
  RawCheck (Some "echo_ok") (Some "python3 -c 'print(1)'") None.

Definition cycle_task : raw_task :=
  mk_task (Some [echo_ok])
    (Some (mk_raw_checklist (Some [raw_item_of "a" "A" ["b"]; raw_item_of "b" "B" ["a"]]) None None))
    [("acceptance_tests", JList [JObj [("name", JStr "echo_ok"); ("command", JStr "python3 -c 'print(1)'")]]);
     ("checklist_contract", JObj [("items", JList [raw_item_json "a" "A" ["b"]; raw_item_json "b" "B" ["a"]])])].










(** * Properties *)

(** ** Lists of strings *)

Lemma mem_true_iff (x : string) (l : list string) : mem x l = true <-> In x l.
Proof.
  unfold mem. rewrite existsb_exists. split.
  - intros [y [Hy Heq]]. apply String.eqb_eq in Heq. subst. exact Hy.
  - intros H. exists x. split; [exact H | apply String.eqb_refl].
Qed.

Lemma dedupe_fold_in (values output : list string) (x : string) :
  In x (fold_left (fun output value => if mem value output then output else output ++ [value]) values output)
  <-> In x output \/ In x values.
Proof.
  revert output. induction values as [|v values IH]; intros output; simpl.
  - tauto.
  - destruct (mem v output) eqn:Hm; rewrite IH.
    + apply mem_true_iff in Hm. split; [tauto|]. intros [H|[H|H]]; subst; tauto.
    + rewrite in_app_iff. simpl. tauto.
Qed.

Lemma dedupe_in (values : list string) (x : string) : In x (dedupe values) <-> In x values.
Proof. unfold dedupe. rewrite dedupe_fold_in. simpl. tauto. Qed.

Lemma insert_unique_in (x z : string) (l : list string) : In z (insert_unique x l) <-> In z (x :: l).
Proof.
  induction l as [|y l IH]; simpl.
  - tauto.
  - destruct (String_as_OT.compare_spec x y) as [Heq|Hlt|Hgt]; simpl.
    + unfold String_as_OT.eq in Heq. subst. tauto.
    + tauto.
    + rewrite IH. simpl. tauto.
Qed.

Lemma insert_unique_sorted (x : string) (l : list string) :
  StronglySorted String_as_OT.lt l -> StronglySorted String_as_OT.lt (insert_unique x l).
Proof.
  induction l as [|y l IH]; intros Hs; simpl.
  - repeat constructor.
  - inversion Hs as [|y' l' Hs' Hall]; subst.
    destruct (String_as_OT.compare_spec x y) as [Heq|Hlt|Hgt].
    + exact Hs.
    + constructor; [exact Hs|]. constructor; [exact Hlt|].
      eapply Forall_impl; [|exact Hall]. intros z Hz. transitivity y; assumption.
    + constructor; [apply IH; exact Hs'|].
      apply Forall_forall. intros z Hz. apply insert_unique_in in Hz as [Hz|Hz].
      * subst. exact Hgt.
      * rewrite Forall_forall in Hall. apply Hall. exact Hz.
Qed.

Lemma sorted_set_in (codes : list string) (x : string) : In x (sorted_set codes) <-> In x codes.
Proof.
  unfold sorted_set. induction codes as [|c codes IH]; simpl.
  - tauto.
  - rewrite insert_unique_in. simpl. rewrite IH. tauto.
Qed.


Lemma nonempty_of_in {A : Type} (x : A) (l : list A) : In x l -> l <> [].
Proof. intros H E. subst. exact H. Qed.

(** ** The exit convention of run_until_green.py *)



Lemma main_code (c : contract) (post_loop_codes : list string) (exec : executor) :
  snd (run_until_green_main c post_loop_codes exec) =
  if summary_all_passed (fst (run_until_green_main c post_loop_codes exec)) then 0%Z else 1%Z.
Proof. reflexivity. Qed.




(** ** The fail-closed gate of compile_checks.py *)

Lemma sorted_set_nil_inv (codes : list string) : sorted_set codes = [] -> codes = [].
Proof.
  destruct codes as [|x rest]; [reflexivity|]. intros H. exfalso.
  assert (Hin : In x (sorted_set (x :: rest))) by (apply sorted_set_in; left; reflexivity).
  rewrite H in Hin. exact Hin.
Qed.

Lemma compile_main_raise (room dump_room : nat) (t : raw_task) (run_id : string) (e : py_error) :
  compile_reason_codes room t run_id = Raise e ->
  compile_checks_main room dump_room t run_id = (1%Z, CompileRaised e, None).
Proof.
  unfold compile_reason_codes, compile_checks_main.
  destruct (normalise_checklist room (task_checklist_contract t) run_id) as [[cl cc]|e']; [|congruence].
  destruct (compile_aux_codes (task_fields t)) as [aux|e']; [discriminate|congruence].
Qed.

(** The fail-closed branch of [main]. *)
Lemma compile_main_codes (room dump_room : nat) (t : raw_task) (run_id : string) (codes : list string) :
  compile_reason_codes room t run_id = Return codes -> codes <> [] ->
  compile_checks_main room dump_room t run_id =
    if Nat.leb fail_payload_nesting dump_room
    then (1%Z, CompileFailed (fail_payload_of run_id (sorted_set codes)
                                (List.length (normalise_checks (acceptance_tests t)))), None)
    else (1%Z, CompileRaised RecursionError, None).
Proof.
  unfold compile_reason_codes, compile_checks_main. intros H Hne.
  destruct (normalise_checklist room (task_checklist_contract t) run_id) as [[cl cc]|e']; [|discriminate].
  destruct (compile_aux_codes (task_fields t)) as [aux|e']; [|discriminate].
  injection H as <-.
  destruct (sorted_set (tests_codes (normalise_checks (acceptance_tests t)) ++ cc ++ aux)) as [|y ys] eqn:Hs;
    [exfalso; exact (Hne (sorted_set_nil_inv _ Hs))|reflexivity].
Qed.

(** The branch of [main] that writes a contract. *)
Lemma compile_main_no_codes (room dump_room : nat) (t : raw_task) (run_id : string) :
  compile_reason_codes room t run_id = Return [] ->
  exists checklist,
    normalise_checklist room (task_checklist_contract t) run_id = Return (checklist, []) /\
    compile_checks_main room dump_room t run_id =
      match py_int (dict_get_default (task_fields t) "max_iterations" (JInt 5)) with
      | Raise e => (1%Z, CompileRaised e, None)
      | Return mx =>
          let c := mk_compiled run_id (normalise_checks (acceptance_tests t)) checklist mx
                     (static_progress_delta (List.length (normalise_checks (acceptance_tests t)))) [] in
          if Nat.leb (contract_nesting (task_fields t) c) dump_room then
            if Nat.leb compile_summary_nesting dump_room
            then (0%Z, CompileEmitted true (contract_progress_delta c) [], Some c)
            else (1%Z, CompileRaised RecursionError, Some c)
          else (1%Z, CompileRaised RecursionError, None)
      end.
Proof.
  unfold compile_reason_codes, compile_checks_main. intros H.
  destruct (normalise_checklist room (task_checklist_contract t) run_id) as [[cl cc]|e']; [|discriminate].
  destruct (compile_aux_codes (task_fields t)) as [aux|e']; [|discriminate].
  injection H as H. apply app_eq_nil in H as [Ht H]. apply app_eq_nil in H as [Hcc Haux]. subst cc aux.
  exists cl. split; [reflexivity|]. rewrite Ht. reflexivity.
Qed.


(** ** The checklist state machine *)

Section ChecklistStateMachine.

Variable check_pass_map : list (string * bool).
Variable iteration : nat.

(** What one call computes, row by row: rows keep the item's fields, the
    status is the code's status rule for some [state_map], the step follows
    lines 101-106, and the three id lists are read off the rows. *)
Lemma build_from_shape (items : list checklist_item) (m : list (string * item_status)) :
  let '(state, flips, strict_fail, strict_blocked) :=
    build_checklist_state_from m items check_pass_map iteration in
  map item_id state = map item_id items /\
  map depends_on state = map depends_on items /\
  map pass_when_check state = map pass_when_check items /\
  map strictness state = map strictness items /\
  Forall2 (fun item row =>
      (exists m', status row = item_new_status m' check_pass_map item) /\
      satisfied_at_step row = fst (item_new_step (status row) (satisfied_at_step item) iteration))
    items state /\
  flips = map (fun p => item_id (fst p))
            (filter (fun p => snd (item_new_step (status (snd p)) (satisfied_at_step (fst p)) iteration))
               (combine items state)) /\
  strict_fail = map item_id (filter (fun r => is_strict r && item_status_eqb (status r) Unsatisfied) state) /\
  strict_blocked = map item_id (filter (fun r => is_strict r && item_status_eqb (status r) Blocked) state).
Proof.
  revert m. induction items as [|item rest IH]; intros m; simpl.
  - repeat split; constructor.
  - set (st := item_new_status m check_pass_map item).
    destruct (item_new_step _ _ _) as [sat flip] eqn:Hstep.
    specialize (IH (dict_set m (item_id item) st)).
    destruct (build_checklist_state_from _ rest _ _) as [[[state flips] sf] sb].
    destruct IH as (Hid & Hdep & Hpw & Hstr & HF & Hfl & Hsf & Hsb).
    cbn [map item_id depends_on pass_when_check strictness status satisfied_at_step with_status combine
         filter fst snd].
    rewrite Hid, Hdep, Hpw, Hstr, Hstep.
    split; [reflexivity|]. split; [reflexivity|]. split; [reflexivity|]. split; [reflexivity|].
    split; [|split; [|split]].
    + constructor; [|exact HF]. split.
      * exists m. reflexivity.
      * cbn [with_status status satisfied_at_step]. rewrite Hstep. reflexivity.
    + destruct flip; simpl; rewrite Hfl; reflexivity.
    + unfold is_strict. cbn [strictness with_status].
      destruct (String.eqb (strictness item) "strict"), st; simpl; rewrite Hsf; reflexivity.
    + unfold is_strict. cbn [strictness with_status].
      destruct (String.eqb (strictness item) "strict"), st; simpl; rewrite Hsb; reflexivity.
Qed.

End ChecklistStateMachine.

Lemma item_new_status_satisfied (m : list (string * item_status)) (cpm : list (string * bool))
    (item : checklist_item) :
  item_new_status m cpm item = Satisfied -> dict_get_default cpm (pass_when_check item) false = true.
Proof.
  unfold item_new_status.
  destruct (filter _ (depends_on item)); [|discriminate].
  destruct (dict_get_default cpm (pass_when_check item) false); [reflexivity|discriminate].
Qed.

Lemma item_new_step_fst (st : item_status) (sat0 : option Z) (iteration : nat) :
  fst (item_new_step st sat0 iteration) =
  match st with
  | Satisfied => Some (match sat0 with Some k => k | None => Z.of_nat iteration end)
  | _ => None
  end.
Proof. destruct st, sat0; reflexivity. Qed.

Lemma item_new_step_snd (st : item_status) (sat0 : option Z) (iteration : nat) :
  snd (item_new_step st sat0 iteration) =
  item_status_eqb st Satisfied && match sat0 with None => true | Some _ => false end.
Proof. destruct st, sat0; reflexivity. Qed.

(** C1 (as the code has it): every call recomputes each item's status from
    its dependencies and this iteration's check results, whatever status the
    item had before. An item whose check did not pass this iteration is not
    satisfied, and every item that is not satisfied has its
    [satisfied_at_step] reset to None. A satisfied item keeps a
    [satisfied_at_step] it already had; when it had none, it gets the current
    iteration and is listed in [flipped_to_satisfied]. *)
Theorem checklist_status_recomputed (items : list checklist_item) (cpm : list (string * bool))
    (iteration : nat) :
  let '(state, flips, _, _) := build_checklist_state items cpm iteration in
  Forall2 (fun item row =>
      (dict_get_default cpm (pass_when_check item) false = false -> status row <> Satisfied) /\
      (status row <> Satisfied -> satisfied_at_step row = None) /\
      (status row = Satisfied ->
         satisfied_at_step row =
         Some (match satisfied_at_step item with Some k => k | None => Z.of_nat iteration end)))
    items state /\
  flips = map (fun p => item_id (fst p))
            (filter (fun p => item_status_eqb (status (snd p)) Satisfied
                              && match satisfied_at_step (fst p) with None => true | Some _ => false end)
               (combine items state)).
Proof.
  unfold build_checklist_state.
  pose proof (build_from_shape cpm iteration items []) as Hs.
  destruct (build_checklist_state_from [] items cpm iteration) as [[[state flips] sf] sb].
  destruct Hs as (_ & _ & _ & _ & HF & Hfl & _ & _).
  split.
  - eapply Forall2_impl; [|exact HF].
    intros item row [[m' Hst] Hsat]. rewrite item_new_step_fst in Hsat.
    split; [|split].
    + intros Hfail Hsatis. rewrite Hsatis in Hst. symmetry in Hst.
      apply item_new_status_satisfied in Hst. congruence.
    + intros Hn. rewrite Hsat. destruct (status row); congruence.
    + intros Hy. rewrite Hsat, Hy. reflexivity.
  - rewrite Hfl. f_equal. apply filter_ext. intros [item row]. apply item_new_step_snd.
Qed.

(** C1, counterexample: [item_a] is satisfied on iteration 1 (its check
    passes) and unsatisfied on iteration 2 (its check fails), with
    [satisfied_at_step] back to None. *)
Lemma checklist_ratchet_counterexample :
  ~ (forall (i j : nat) (state_i state_j : list checklist_item) (d_i d_j : checklist_delta)
            (row_i row_j : checklist_item),
       In (i, state_i, d_i) (summary_checklist_timeline (fst (run_until_green_main ratchet_contract [] flaky_exec))) ->
       In (j, state_j, d_j) (summary_checklist_timeline (fst (run_until_green_main ratchet_contract [] flaky_exec))) ->
       i < j -> nth_error state_i 0 = Some row_i -> nth_error state_j 0 = Some row_j ->
       status row_i = Satisfied ->
       status row_j = Satisfied /\ satisfied_at_step row_j = satisfied_at_step row_i).
Proof.
  intros H.
  assert (Ht : summary_checklist_timeline (fst (run_until_green_main ratchet_contract [] flaky_exec)) =
    [(1, [with_status item_a Satisfied (Some 1%Z)], mk_delta 1 ["a"] [] []);
     (2, [with_status item_a Unsatisfied None], mk_delta 2 [] [] [])]) by (vm_compute; reflexivity).
  rewrite Ht in H.
  destruct (H 1 2 _ _ _ _ _ _ (or_introl eq_refl) (or_intror (or_introl eq_refl)) ltac:(lia)
              eq_refl eq_refl eq_refl) as [Hbad _].
  discriminate Hbad.
Qed.

Lemma dict_get_set {V : Type} (m : list (string * V)) (k k' : string) (v : V) :
  dict_get (dict_set m k v) k' = if String.eqb k' k then Some v else dict_get m k'.
Proof.
  induction m as [|[k0 v0] m IH]; simpl.
  - reflexivity.
  - destruct (String.eqb_spec k k0) as [->|Hne]; simpl.
    + destruct (String.eqb k' k0); reflexivity.
    + rewrite IH. destruct (String.eqb_spec k' k0) as [->|Hne'].
      * destruct (String.eqb_spec k0 k); [congruence|reflexivity].
      * reflexivity.
Qed.

Lemma find_status_snoc (l : list checklist_item) (r : checklist_item) (k : string) :
  find_status (l ++ [r]) k = if String.eqb (item_id r) k then Some (status r) else find_status l k.
Proof. unfold find_status. rewrite fold_left_app. reflexivity. Qed.

Lemma find_status_app_notin (l1 l2 : list checklist_item) (k : string) :
  ~ In k (map item_id l2) -> find_status (l1 ++ l2) k = find_status l1 k.
Proof.
  revert l1. induction l2 as [|r l2 IH] using rev_ind; intros l1 Hn.
  - rewrite app_nil_r. reflexivity.
  - rewrite app_assoc, find_status_snoc, IH.
    + rewrite map_app in Hn. simpl in Hn.
      destruct (String.eqb_spec (item_id r) k); [|reflexivity].
      exfalso. apply Hn. apply in_app_iff. right. left. exact e.
    + intros Hin. apply Hn. rewrite map_app. apply in_app_iff. left. exact Hin.
Qed.

Lemma find_status_notin (l : list checklist_item) (k : string) :
  ~ In k (map item_id l) -> find_status l k = None.
Proof. intros Hn. exact (find_status_app_notin [] l k Hn). Qed.

(** The code's rule and the spec's rule agree when the state map and the row
    list give every dependency the same status. *)
Lemma item_new_status_spec (m : list (string * item_status)) (rows : list checklist_item)
    (cpm : list (string * bool)) (item : checklist_item) :
  (forall d, In d (depends_on item) -> dict_get m d = find_status rows d) ->
  item_new_status m cpm item = spec_status rows cpm item.
Proof.
  intros Hd. unfold item_new_status, spec_status.
  destruct (filter _ (depends_on item)) as [|x xs] eqn:Hf;
  destruct (existsb _ (depends_on item)) eqn:He; try reflexivity.
  - exfalso. apply existsb_exists in He as [d [Hin Hd']].
    assert (Hin' : In d (filter (fun dep => negb (is_satisfied (dict_get m dep))) (depends_on item))).
    { apply filter_In. split; [exact Hin|]. rewrite Hd; assumption. }
    rewrite Hf in Hin'. exact Hin'.
  - exfalso. assert (Hx : In x (x :: xs)) by (left; reflexivity).
    rewrite <- Hf in Hx. apply filter_In in Hx as [Hin Hx].
    rewrite Hd in Hx by exact Hin.
    assert (Hc : existsb (fun dep => negb (is_satisfied (find_status rows dep))) (depends_on item) = true).
    { apply existsb_exists. exists x. split; assumption. }
    congruence.
Qed.

Section StatusRule.

Variable cpm : list (string * bool).
Variable iteration : nat.

Lemma build_from_ids (m : list (string * item_status)) (items : list checklist_item) :
  map item_id (fst (fst (fst (build_checklist_state_from m items cpm iteration)))) = map item_id items.
Proof.
  pose proof (build_from_shape cpm iteration items m) as Hs.
  destruct (build_checklist_state_from m items cpm iteration) as [[[state flips] sf] sb].
  apply Hs.
Qed.

(** The code's status of the item at position [n] is the spec's rule
    evaluated against the rows before position [n] only. *)
Lemma build_from_prefix_rule (items pre : list checklist_item) (m : list (string * item_status)) :
  (forall k, dict_get m k = find_status pre k) ->
  forall n item row,
    nth_error items n = Some item ->
    nth_error (fst (fst (fst (build_checklist_state_from m items cpm iteration)))) n = Some row ->
    status row = spec_status (pre ++ firstn n (fst (fst (fst (build_checklist_state_from m items cpm iteration)))))
                   cpm item.
Proof.
  revert pre m. induction items as [|item rest IH]; intros pre m Hm n it row Hit Hrow.
  - destruct n; discriminate.
  - pose proof (IH (pre ++ [with_status item (item_new_status m cpm item)
                                   (fst (item_new_step (item_new_status m cpm item)
                                           (satisfied_at_step item) iteration))])
                   (dict_set m (item_id item) (item_new_status m cpm item))) as IH'.
    revert Hrow IH'. cbn [build_checklist_state_from].
    set (st := item_new_status m cpm item).
    destruct (item_new_step st (satisfied_at_step item) iteration) as [sat flip] eqn:Hstep.
    cbn [fst].
    destruct (build_checklist_state_from (dict_set m (item_id item) st) rest cpm iteration)
      as [[[state flips] sf] sb].
    cbn [fst]. intros Hrow IH'.
    destruct n as [|n].
    + cbn in Hit, Hrow. injection Hit as <-. injection Hrow as <-.
      cbn [status with_status firstn]. rewrite app_nil_r.
      apply item_new_status_spec. intros d _. apply Hm.
    + cbn in Hit, Hrow. cbn [firstn].
      replace (pre ++ with_status item st sat :: firstn n state)
        with ((pre ++ [with_status item st sat]) ++ firstn n state) by (rewrite <- app_assoc; reflexivity).
      apply (IH' ltac:(intros k; rewrite dict_get_set, find_status_snoc; cbn [item_id status with_status];
                       destruct (String.eqb_spec k (item_id item)) as [->|Hne];
                       [rewrite String.eqb_refl; reflexivity
                       |destruct (String.eqb_spec (item_id item) k); [congruence|apply Hm]])
                 n it row Hit Hrow).
Qed.

End StatusRule.

Lemma nodup_app_disjoint {A : Type} (l1 l2 : list A) (x : A) :
  NoDup (l1 ++ l2) -> In x l1 -> ~ In x l2.
Proof.
  induction l1 as [|a l1 IH]; simpl; intros Hnd Hin.
  - contradiction.
  - inversion Hnd as [|? ? Hna Hnd']; subst.
    destruct Hin as [<-|Hin].
    + intros H2. apply Hna. apply in_app_iff. right. exact H2.
    + exact (IH Hnd' Hin).
Qed.

Lemma find_status_some (l : list checklist_item) (k : string) (s : item_status) :
  find_status l k = Some s -> exists r, In r l /\ item_id r = k /\ status r = s.
Proof.
  revert s. induction l as [|r l IH] using rev_ind; intros s Hf.
  - discriminate.
  - rewrite find_status_snoc in Hf.
    destruct (String.eqb_spec (item_id r) k) as [Heq|Hne].
    + injection Hf as <-. exists r. split; [apply in_app_iff; right; left; reflexivity|auto].
    + destruct (IH s Hf) as [r' [Hin Hr']]. exists r'. split; [apply in_app_iff; left; exact Hin|exact Hr'].
Qed.

Lemma spec_status_ext (l1 l2 : list checklist_item) (cpm : list (string * bool)) (item : checklist_item) :
  (forall d, In d (depends_on item) -> find_status l1 d = find_status l2 d) ->
  spec_status l1 cpm item = spec_status l2 cpm item.
Proof.
  intros Hd. unfold spec_status.
  replace (existsb (fun dep => negb (is_satisfied (find_status l1 dep))) (depends_on item))
    with (existsb (fun dep => negb (is_satisfied (find_status l2 dep))) (depends_on item)).
  - reflexivity.
  - induction (depends_on item) as [|d ds IH]; [reflexivity|]. cbn [existsb].
    rewrite Hd by (left; reflexivity). rewrite IH by (intros d' Hin; apply Hd; right; exact Hin).
    reflexivity.
Qed.

Lemma spec_status_fields (rows : list checklist_item) (cpm : list (string * bool)) (a b : checklist_item) :
  depends_on a = depends_on b -> pass_when_check a = pass_when_check b ->
  spec_status rows cpm a = spec_status rows cpm b.
Proof. intros Hd Hp. unfold spec_status. rewrite Hd, Hp. reflexivity. Qed.

Lemma deps_before_nth (items : list checklist_item) (seen all_ids : list string) (n : nat)
    (item : checklist_item) :
  deps_before seen all_ids items = true -> nth_error items n = Some item ->
  forall d, In d (depends_on item) -> In d all_ids ->
  In d seen \/ In d (map item_id (firstn n items)).
Proof.
  revert seen n. induction items as [|it rest IH]; intros seen n Hdb Hn d Hd Hall.
  - destruct n; discriminate.
  - cbn [deps_before] in Hdb. apply andb_prop in Hdb as [Hf Hdb].
    destruct n as [|n].
    + cbn in Hn. injection Hn as <-.
      rewrite forallb_forall in Hf. specialize (Hf d Hd).
      apply orb_prop in Hf as [Hf|Hf].
      * apply mem_true_iff in Hall. rewrite Hall in Hf. discriminate.
      * left. apply mem_true_iff. exact Hf.
    + cbn in Hn. destruct (IH _ n Hdb Hn d Hd Hall) as [[Heq|Hs]|Hin].
      * right. subst. left. reflexivity.
      * left. exact Hs.
      * right. right. exact Hin.
Qed.

(** With unique ids and dependencies listed first, the prefix seen so far
    already holds every dependency's final status. *)
Lemma topological_prefix_status (items state : list checklist_item) (cpm : list (string * bool))
    (n : nat) (item : checklist_item) :
  NoDup (map item_id items) -> topologically_ordered items = true ->
  map item_id state = map item_id items ->
  nth_error items n = Some item ->
  spec_status (firstn n state) cpm item = spec_status state cpm item.
Proof.
  intros Hnd Htop Hids Hn. apply spec_status_ext. intros d Hd.
  rewrite <- (firstn_skipn n state) at 2.
  symmetry. apply find_status_app_notin.
  destruct (in_dec string_dec d (map item_id items)) as [Hall|Hnall].
  - destruct (deps_before_nth items [] (map item_id items) n item Htop Hn d Hd Hall) as [[]|Hin].
    rewrite <- firstn_map, <- Hids in Hin. rewrite <- Hids in Hnd.
    rewrite <- (firstn_skipn n (map item_id state)) in Hnd.
    rewrite <- skipn_map.
    exact (nodup_app_disjoint _ _ d Hnd Hin).
  - intros Hin. apply Hnall. rewrite <- Hids.
    rewrite <- skipn_map in Hin. rewrite <- (firstn_skipn n (map item_id state)).
    apply in_app_iff. right. exact Hin.
Qed.

Lemma in_combine_nth {A B : Type} (l1 : list A) (l2 : list B) (x : A) (y : B) :
  In (x, y) (combine l1 l2) -> exists n, nth_error l1 n = Some x /\ nth_error l2 n = Some y.
Proof.
  revert l2. induction l1 as [|a l1 IH]; intros [|b l2] Hin; try contradiction.
  destruct Hin as [Heq|Hin].
  - injection Heq as <- <-. exists 0. split; reflexivity.
  - destruct (IH l2 Hin) as [n Hn]. exists (S n). exact Hn.
Qed.

Lemma in_firstn_in {A : Type} (n : nat) (l : list A) (x : A) : In x (firstn n l) -> In x l.
Proof. intros H. rewrite <- (firstn_skipn n l). apply in_app_iff. left. exact H. Qed.

Lemma checklist_rows_fields (items : list checklist_item) (cpm : list (string * bool)) (it : nat) :
  map item_id (checklist_rows items cpm it) = map item_id items /\
  map depends_on (checklist_rows items cpm it) = map depends_on items /\
  map pass_when_check (checklist_rows items cpm it) = map pass_when_check items.
Proof.
  unfold checklist_rows, build_checklist_state.
  pose proof (build_from_shape cpm it items []) as Hs.
  destruct (build_checklist_state_from [] items cpm it) as [[[state flips] sf] sb].
  cbn [fst]. destruct Hs as [H1 [H2 [H3 _]]]. auto.
Qed.

Lemma checklist_flips_filter (items : list checklist_item) (cpm : list (string * bool)) (it : nat) :
  checklist_flips items cpm it =
  map (fun p => item_id (fst p))
    (filter (fun p => snd (item_new_step (status (snd p)) (satisfied_at_step (fst p)) it))
       (combine items (checklist_rows items cpm it))).
Proof.
  unfold checklist_flips, checklist_rows, build_checklist_state.
  pose proof (build_from_shape cpm it items []) as Hs.
  destruct (build_checklist_state_from [] items cpm it) as [[[state flips] sf] sb].
  cbn [fst snd]. destruct Hs as [_ [_ [_ [_ [_ [H _]]]]]]. exact H.
Qed.

Lemma checklist_rows_prefix_rule (items : list checklist_item) (cpm : list (string * bool)) (it n : nat)
    (item row : checklist_item) :
  nth_error items n = Some item -> nth_error (checklist_rows items cpm it) n = Some row ->
  status row = spec_status (firstn n (checklist_rows items cpm it)) cpm item.
Proof.
  intros Hi Hr. unfold checklist_rows, build_checklist_state in *.
  exact (build_from_prefix_rule cpm it items [] [] ltac:(intros k; reflexivity) n item row Hi Hr).
Qed.

(** A dependency whose rows are all unsatisfied or blocked blocks every
    dependent row. *)
Lemma checklist_rows_blocked (items : list checklist_item) (cpm : list (string * bool)) (it : nat)
    (a : string) (item row : checklist_item) :
  (forall r, In r (checklist_rows items cpm it) -> item_id r = a -> status r <> Satisfied) ->
  In (item, row) (combine items (checklist_rows items cpm it)) -> In a (depends_on item) ->
  status row = Blocked.
Proof.
  intros Ha Hin Hdep.
  destruct (in_combine_nth _ _ _ _ Hin) as [n [Hi Hr]].
  rewrite (checklist_rows_prefix_rule items cpm it n item row Hi Hr).
  unfold spec_status.
  replace (existsb _ (depends_on item)) with true; [reflexivity|].
  symmetry. apply existsb_exists. exists a. split; [exact Hdep|].
  destruct (find_status _ a) as [s|] eqn:Hf; [|reflexivity].
  destruct (find_status_some _ _ _ Hf) as [r [Hr' [Hid Hs]]].
  apply in_firstn_in in Hr'. specialize (Ha r Hr' Hid).
  destruct s; [reflexivity| |reflexivity]. exfalso. apply Ha. exact Hs.
Qed.

(** C6 (amended). Each iteration computes an item's status from the rows
    before it in the list: the item at position [n] is blocked when some
    [depends_on] target has no satisfied status among the first [n] rows (the
    last row with that id counts; no row counts as not satisfied), otherwise
    satisfied when its check passed, otherwise unsatisfied. When the ids are
    unique and every dependency that names an item comes before its dependent,
    this equals the rule evaluated against the full new state. Whatever the
    order, an item depending on an id none of whose rows is satisfied is
    blocked, and an id all of whose items depend on it is not flipped. *)
Theorem checklist_status_list_order :
  (forall items cpm it n item row,
     nth_error items n = Some item -> nth_error (checklist_rows items cpm it) n = Some row ->
     status row = spec_status (firstn n (checklist_rows items cpm it)) cpm item) /\
  (forall items cpm it,
     NoDup (map item_id items) -> topologically_ordered items = true ->
     forall row, In row (checklist_rows items cpm it) ->
     status row = spec_status (checklist_rows items cpm it) cpm row) /\
  (forall items cpm it a,
     (forall r, In r (checklist_rows items cpm it) -> item_id r = a -> status r <> Satisfied) ->
     (forall item row, In (item, row) (combine items (checklist_rows items cpm it)) ->
        In a (depends_on item) -> status row = Blocked) /\
     (forall b, (forall item, In item items -> item_id item = b -> In a (depends_on item)) ->
        ~ In b (checklist_flips items cpm it))).
Proof.
  split; [exact checklist_rows_prefix_rule|split].
  - intros items cpm it Hnd Htop row Hrow.
    destruct (checklist_rows_fields items cpm it) as [Hids [Hdeps Hpass]].
    destruct (In_nth_error _ _ Hrow) as [n Hn].
    assert (Hlen : n < List.length items).
    { rewrite <- (length_map item_id items), <- Hids, length_map.
      apply nth_error_Some. rewrite Hn. discriminate. }
    apply nth_error_Some in Hlen. destruct (nth_error items n) as [item|] eqn:Hi; [|contradiction].
    rewrite (checklist_rows_prefix_rule items cpm it n item row Hi Hn).
    rewrite (topological_prefix_status items (checklist_rows items cpm it) cpm n item Hnd Htop Hids Hi).
    apply spec_status_fields.
    + assert (H1 := map_nth_error depends_on _ _ Hi). assert (H2 := map_nth_error depends_on _ _ Hn).
      rewrite Hdeps in H2. congruence.
    + assert (H1 := map_nth_error pass_when_check _ _ Hi). assert (H2 := map_nth_error pass_when_check _ _ Hn).
      rewrite Hpass in H2. congruence.
  - intros items cpm it a Ha. split.
    + intros item row Hin Hdep. exact (checklist_rows_blocked items cpm it a item row Ha Hin Hdep).
    + intros b Hb Hflip. rewrite checklist_flips_filter in Hflip.
      apply in_map_iff in Hflip as [[item row] [Hid Hp]]. cbn [fst] in Hid.
      apply filter_In in Hp as [Hp Hflip]. cbn [fst snd] in Hflip.
      apply (in_combine_l items) in Hp as Hitem.
      rewrite (checklist_rows_blocked items cpm it a item row Ha Hp (Hb item Hitem Hid)) in Hflip.
      rewrite item_new_step_snd in Hflip. discriminate.
Qed.

(** C6 (counterexample). With [b] listed before the item [a] it depends on
    and both checks passing, [b] comes out blocked although [a]'s status in
    the same iteration is satisfied; listing [a] first makes [b] satisfied.
    So the status does not follow the current status of the targets, and
    it depends on the item order. *)
Lemma checklist_order_counterexample :
  ~ (forall items cpm it row, In row (checklist_rows items cpm it) ->
       status row = spec_status (checklist_rows items cpm it) cpm row) /\
  map status (checklist_rows [item_b_first; item_a] both_pass 1) = [Blocked; Satisfied] /\
  map status (checklist_rows [item_a; item_b_first] both_pass 1) = [Satisfied; Satisfied].
Proof.
  split; [|split; vm_compute; reflexivity].
  intros H.
  set (rows := checklist_rows [item_b_first; item_a] both_pass 1).
  assert (Hrows : rows = [with_status item_b_first Blocked None; with_status item_a Satisfied (Some 1%Z)])
    by (vm_compute; reflexivity).
  assert (Hin : In (with_status item_b_first Blocked None) rows) by (rewrite Hrows; left; reflexivity).
  specialize (H _ _ _ _ Hin). fold rows in H. rewrite Hrows in H.
  vm_compute in H. discriminate.
Qed.



(** ** The loop *)

Section LoopInvariant.

Variables (checks : list check) (checklist_items : list checklist_item) (exec : executor).
Variable P : nat -> nat -> loop_state -> Prop.
Variable R : loop_state -> Prop.
Hypothesis P_stop : forall i s, P 0 i s -> R s.
Hypothesis P_continue : forall f i s s', P (S f) i s ->
  iteration_step checks checklist_items exec i s = Continue s' -> P f (S i) s'.
Hypothesis P_break : forall f i s s', P (S f) i s ->
  iteration_step checks checklist_items exec i s = Break s' -> R s'.

Lemma run_loop_invariant (fuel i : nat) (s : loop_state) :
  P fuel i s -> R (run_loop checks checklist_items exec fuel i s).
Proof.
  revert i s. induction fuel as [|f IH]; intros i s Hp; cbn [run_loop].
  - exact (P_stop i s Hp).
  - destruct (iteration_step checks checklist_items exec i s) as [s'|s'] eqn:Hstep.
    + exact (IH (S i) s' (P_continue f i s s' Hp Hstep)).
    + exact (P_break f i s s' Hp Hstep).
Qed.

End LoopInvariant.

(** The four ways one pass ends. *)
Lemma iteration_step_cases (checks : list check) (items : list checklist_item) (exec : executor)
    (i : nat) (s : loop_state) :
  let s2 := step_record checks items exec i s in
  let results := run_checks exec i false checks in
  let progress_score := score (count_passed results) (List.length checks) in
  let dr := run_checks exec i true checks in
  let dp := score (count_passed dr) (List.length checks) in
  let dd := Qminus dp progress_score in
  (items <> [] /\ strict_fail_item_ids s2 <> [] /\
   iteration_step checks items exec i s = Break (strict_abort s2)) \/
  ((items = [] \/ strict_fail_item_ids s2 = []) /\ forallb snd results = true /\
   iteration_step checks items exec i s = Break (mark_passed s2)) \/
  ((items = [] \/ strict_fail_item_ids s2 = []) /\ forallb snd results = false /\
   Nat.leb 2 (consecutive_no_progress s2) = true /\
   ((Qle_bool dd 0%Q = true /\
     iteration_step checks items exec i s = Break (diagnostic_abort (diagnostic_start i dr dp dd s2))) \/
    (Qle_bool dd 0%Q = false /\
     iteration_step checks items exec i s = Continue (diagnostic_recover dp dd (diagnostic_start i dr dp dd s2))))) \/
  ((items = [] \/ strict_fail_item_ids s2 = []) /\ forallb snd results = false /\
   Nat.leb 2 (consecutive_no_progress s2) = false /\
   iteration_step checks items exec i s = Continue s2).
Proof.
  cbv zeta.
  assert (Hu : iteration_step checks items exec i s =
    let s2 := step_record checks items exec i s in
    let results := run_checks exec i false checks in
    let progress_score := score (count_passed results) (List.length checks) in
    if match items with [] => false | _ :: _ => match strict_fail_item_ids s2 with [] => false | _ :: _ => true end end
    then Break (strict_abort s2)
    else if forallb snd results then Break (mark_passed s2)
    else if Nat.leb 2 (consecutive_no_progress s2) then
      let dr := run_checks exec i true checks in
      let dp := score (count_passed dr) (List.length checks) in
      let dd := Qminus dp progress_score in
      if Qle_bool dd 0%Q then Break (diagnostic_abort (diagnostic_start i dr dp dd s2))
      else Continue (diagnostic_recover dp dd (diagnostic_start i dr dp dd s2))
    else Continue s2) by reflexivity.
  rewrite Hu. cbv zeta. clear Hu.
  set (s2 := step_record checks items exec i s).
  destruct items as [|it rest]; [|destruct (strict_fail_item_ids s2) eqn:Hsf].
  all: try (left; split; [discriminate|split; [first [discriminate|rewrite Hsf; discriminate]|reflexivity]]).
  all: destruct (forallb snd (run_checks exec i false checks)) eqn:Hall;
       [right; left; split; [auto|split; reflexivity]|].
  all: destruct (Nat.leb 2 (consecutive_no_progress s2)) eqn:Hc;
       [right; right; left; split; [auto|split; [reflexivity|split; [reflexivity|]]]
       |right; right; right; split; [auto|split; [reflexivity|split; reflexivity]]].
  all: match goal with |- context [Qle_bool ?d 0%Q] => destruct (Qle_bool d 0%Q) eqn:Hq end;
       [left; split; reflexivity|right; split; reflexivity].
Qed.

Section StepRecord.

Variables (checks : list check) (items : list checklist_item) (exec : executor) (i : nat) (s : loop_state).

Let s2 := step_record checks items exec i s.

Lemma step_record_fields :
  iterations s2 = i /\ all_passed s2 = all_passed s /\ aborted s2 = aborted s /\
  strict_early_terminated s2 = strict_early_terminated s /\ reason_codes s2 = reason_codes s /\
  diagnostic_ran s2 = diagnostic_ran s.
Proof.
  unfold s2, step_record. destruct items as [|it rest]; [repeat split|].
  unfold record_checklist.
  destruct (build_checklist_state _ _ _) as [[[st fl] sf] sb]. repeat split.
Qed.

Lemma step_record_log :
  exists evs, iteration_log s2 = iteration_log s ++ evs /\ Forall (fun e => event_iteration e = i) evs.
Proof.
  assert (Hp : exists evs,
    iteration_log (record_progress i (run_checks exec i false checks) (List.length checks) s) =
    iteration_log s ++ evs /\ Forall (fun e => event_iteration e = i) evs).
  { eexists. split; [reflexivity|]. apply Forall_app. split.
    - apply Forall_forall. intros e He. apply in_map_iff in He as [r [<- _]]. reflexivity.
    - repeat constructor. }
  unfold s2, step_record. destruct items as [|it rest]; [exact Hp|].
  unfold record_checklist.
  destruct (build_checklist_state _ _ _) as [[[st fl] sf] sb]. exact Hp.
Qed.

Lemma step_record_timeline_nil :
  items = [] -> checklist_timeline s2 = checklist_timeline s.
Proof. intros ->. reflexivity. Qed.

Lemma step_record_timeline_cons :
  items <> [] ->
  exists d, checklist_timeline s2 = checklist_timeline s ++ [(i, latest_checklist_state s2, d)] /\
    delta_iteration d = i /\
    delta_strict_fail_item_ids d = strict_fail_item_ids s2 /\
    delta_strict_fail_item_ids d =
      map item_id (filter (fun r => is_strict r && item_status_eqb (status r) Unsatisfied) (latest_checklist_state s2)) /\
    strict_blocked_item_ids d =
      map item_id (filter (fun r => is_strict r && item_status_eqb (status r) Blocked) (latest_checklist_state s2)).
Proof.
  intros Hne. unfold s2, step_record. destruct items as [|it rest]; [congruence|].
  unfold record_checklist, build_checklist_state.
  set (s1 := record_progress i (run_checks exec i false checks) (List.length checks) s).
  pose proof (build_from_shape (check_pass_map_of (run_checks exec i false checks)) i
                (latest_checklist_state s1) []) as Hs.
  destruct (build_checklist_state_from [] _ _ _) as [[[st fl] sf] sb].
  destruct Hs as [_ [_ [_ [_ [_ [_ [Hsf Hsb]]]]]]].
  eexists. cbn. split; [reflexivity|]. repeat split; assumption.
Qed.

End StepRecord.

Lemma strict_abort_frame (s : loop_state) :
  checklist_timeline (strict_abort s) = checklist_timeline s /\ iteration_log (strict_abort s) = iteration_log s /\
  iterations (strict_abort s) = iterations s.
Proof. repeat split. Qed.

Lemma mark_passed_frame (s : loop_state) :
  checklist_timeline (mark_passed s) = checklist_timeline s /\ iteration_log (mark_passed s) = iteration_log s /\
  iterations (mark_passed s) = iterations s.
Proof. repeat split. Qed.

Lemma diagnostic_start_frame (i : nat) (dr : list (check * bool)) (dp dd : Q) (s : loop_state) :
  checklist_timeline (diagnostic_start i dr dp dd s) = checklist_timeline s /\
  iterations (diagnostic_start i dr dp dd s) = iterations s /\
  exists evs, iteration_log (diagnostic_start i dr dp dd s) = iteration_log s ++ evs /\
              Forall (fun e => event_iteration e = i) evs.
Proof.
  split; [reflexivity|split; [reflexivity|]].
  eexists. split; [reflexivity|].
  constructor; [reflexivity|]. apply Forall_app. split.
  - apply Forall_forall. intros e He. apply in_map_iff in He as [r [<- _]]. reflexivity.
  - repeat constructor.
Qed.

Lemma diagnostic_abort_frame (s : loop_state) :
  checklist_timeline (diagnostic_abort s) = checklist_timeline s /\
  iteration_log (diagnostic_abort s) = iteration_log s /\ iterations (diagnostic_abort s) = iterations s.
Proof. repeat split. Qed.

Lemma diagnostic_recover_frame (dp dd : Q) (s : loop_state) :
  checklist_timeline (diagnostic_recover dp dd s) = checklist_timeline s /\
  iteration_log (diagnostic_recover dp dd s) = iteration_log s /\ iterations (diagnostic_recover dp dd s) = iterations s.
Proof. repeat split. Qed.

Lemma step_record_timeline (checks : list check) (items : list checklist_item) (exec : executor)
    (i : nat) (s : loop_state) :
  exists new, checklist_timeline (step_record checks items exec i s) = checklist_timeline s ++ new /\
    Forall (timeline_entry_ok i) new /\
    (forall e, In e new -> delta_strict_fail_item_ids (snd e) = strict_fail_item_ids (step_record checks items exec i s)) /\
    (items = [] -> new = []) /\
    (items <> [] -> exists e, new = [e]).
Proof.
  destruct items as [|it rest] eqn:Hi.
  - exists []. rewrite step_record_timeline_nil by reflexivity. rewrite app_nil_r.
    repeat split; [constructor|intros e []|intros H; congruence].
  - destruct (step_record_timeline_cons checks (it :: rest) exec i s ltac:(discriminate))
      as [d [Ht [Hd1 [Hd2 [Hd3 Hd4]]]]].
    eexists. split; [exact Ht|]. split; [|split; [|split]].
    + constructor; [|constructor]. cbn. repeat split; assumption.
    + intros e [<-|[]]. exact Hd2.
    + discriminate.
    + intros _. eexists. reflexivity.
Qed.

(** What one pass does to the state, whichever way it ends. *)
Lemma iteration_step_frame (checks : list check) (items : list checklist_item) (exec : executor)
    (i : nat) (s : loop_state) :
  let r := iteration_step checks items exec i s in
  let s' := flow_state r in
  iterations s' = i /\
  (exists evs, iteration_log s' = iteration_log s ++ evs /\ Forall (fun e => event_iteration e = i) evs) /\
  (exists new, checklist_timeline s' = checklist_timeline s ++ new /\ Forall (timeline_entry_ok i) new /\
     ((exists e, In e new /\ delta_strict_fail_item_ids (snd e) <> []) ->
        r = Break s' /\ strict_early_terminated s' = true /\ aborted s' = true /\
        In "validation_failed/checklist_strict_failed" (reason_codes s')) /\
     (strict_early_terminated s' = true ->
        strict_early_terminated s = true \/ exists e, In e new /\ delta_strict_fail_item_ids (snd e) <> [])) /\
  (exists extra, reason_codes s' = reason_codes s ++ extra) /\
  (aborted s' = true -> aborted s = true \/ strict_early_terminated s' = true \/
     In "validation_failed/diagnostic_no_improvement" (reason_codes s')) /\
  (forall s'', r = Continue s'' ->
     aborted s'' = aborted s /\ strict_early_terminated s'' = strict_early_terminated s /\
     all_passed s'' = all_passed s).
Proof.
  cbv zeta.
  destruct (step_record_fields checks items exec i s) as [Hit [Hap [Hab [Hse [Hrc _]]]]].
  destruct (step_record_log checks items exec i s) as [evs [Hlog Hevs]].
  destruct (step_record_timeline checks items exec i s) as [new [Htl [Hok [Hsf [Hnil Hcons]]]]].
  set (s2 := step_record checks items exec i s) in *.
  assert (Hnostrict : (items = [] \/ strict_fail_item_ids s2 = []) ->
                      ~ exists e, In e new /\ delta_strict_fail_item_ids (snd e) <> []).
  { intros [Hn|Hn] [e [He He']].
    - rewrite (Hnil Hn) in He. exact He.
    - apply He'. rewrite (Hsf e He). exact Hn. }
  destruct (iteration_step_cases checks items exec i s)
    as [[Hne [Hsne Hr]]|[[Hg [_ Hr]]|[[Hg [_ [_ [[_ Hr]|[_ Hr]]]]]|[Hg [_ [_ Hr]]]]]];
    fold s2 in Hr; rewrite Hr; cbn [flow_state].
  - split; [exact Hit|]. split; [exists evs; split; assumption|].
    split; [|split; [|split]].
    + exists new. split; [exact Htl|]. split; [exact Hok|]. split.
      * intros _. split; [reflexivity|]. cbn. split; [reflexivity|split; [reflexivity|]].
        apply in_app_iff. right. left. reflexivity.
      * intros _. right. destruct (Hcons Hne) as [e ->]. exists e. split; [left; reflexivity|].
        rewrite (Hsf e (or_introl eq_refl)). exact Hsne.
    + eexists. cbn. rewrite Hrc. reflexivity.
    + intros _. right. left. reflexivity.
    + intros s'' H. discriminate.
  - split; [exact Hit|]. split; [exists evs; split; assumption|].
    split; [|split; [|split]].
    + exists new. split; [exact Htl|]. split; [exact Hok|]. split.
      * intros H. exfalso. exact (Hnostrict Hg H).
      * intros H. left. cbn in H. rewrite <- Hse. exact H.
    + exists []. cbn. rewrite Hrc, app_nil_r. reflexivity.
    + intros H. left. cbn in H. rewrite <- Hab. exact H.
    + intros s'' H. discriminate.
  - destruct (diagnostic_start_frame i (run_checks exec i true checks)
       (score (count_passed (run_checks exec i true checks)) (List.length checks))
       (Qminus (score (count_passed (run_checks exec i true checks)) (List.length checks))
               (score (count_passed (run_checks exec i false checks)) (List.length checks))) s2)
      as [Htl3 [Hit3 [evs3 [Hlog3 Hevs3]]]].
    split; [cbn; exact Hit|]. split.
    { exists (evs ++ evs3). cbn in Hlog3 |- *. rewrite Hlog3, Hlog, app_assoc. split; [reflexivity|].
      apply Forall_app. split; assumption. }
    split; [|split; [|split]].
    + exists new. split; [cbn; exact Htl|]. split; [exact Hok|]. split.
      * intros H. exfalso. exact (Hnostrict Hg H).
      * intros H. left. cbn in H. rewrite <- Hse. exact H.
    + eexists. cbn. rewrite Hrc, <- app_assoc. reflexivity.
    + intros _. right. right. cbn. apply in_app_iff. right. left. reflexivity.
    + intros s'' H. discriminate.
  - destruct (diagnostic_start_frame i (run_checks exec i true checks)
       (score (count_passed (run_checks exec i true checks)) (List.length checks))
       (Qminus (score (count_passed (run_checks exec i true checks)) (List.length checks))
               (score (count_passed (run_checks exec i false checks)) (List.length checks))) s2)
      as [Htl3 [Hit3 [evs3 [Hlog3 Hevs3]]]].
    split; [cbn; exact Hit|]. split.
    { exists (evs ++ evs3). cbn in Hlog3 |- *. rewrite Hlog3, Hlog, app_assoc. split; [reflexivity|].
      apply Forall_app. split; assumption. }
    split; [|split; [|split]].
    + exists new. split; [cbn; exact Htl|]. split; [exact Hok|]. split.
      * intros H. exfalso. exact (Hnostrict Hg H).
      * intros H. left. cbn in H. rewrite <- Hse. exact H.
    + eexists. cbn. rewrite Hrc. reflexivity.
    + intros H. left. cbn in H. rewrite <- Hab. exact H.
    + intros s'' H. injection H as <-. cbn. split; [exact Hab|split; assumption].
  - split; [exact Hit|]. split; [exists evs; split; assumption|].
    split; [|split; [|split]].
    + exists new. split; [exact Htl|]. split; [exact Hok|]. split.
      * intros H. exfalso. exact (Hnostrict Hg H).
      * intros H. left. rewrite <- Hse. exact H.
    + exists []. rewrite Hrc, app_nil_r. reflexivity.
    + intros H. left. rewrite <- Hab. exact H.
    + intros s'' H. injection H as <-. split; [exact Hab|split; assumption].
Qed.

Lemma main_fields (c : contract) (post_loop_codes : list string) (exec : executor) :
  let m := fst (run_until_green_main c post_loop_codes exec) in
  let s := loop_final c exec in
  summary_iterations m = iterations s /\ summary_aborted m = aborted s /\
  summary_strict_early_terminated m = strict_early_terminated s /\
  summary_reason_codes m = dedupe (loop_reason_codes c s ++ post_loop_codes) /\
  summary_iteration_log m = iteration_log s /\ summary_checklist_timeline m = checklist_timeline s /\
  summary_diagnostic_ran m = diagnostic_ran s /\
  (summary_all_passed m = true -> all_passed s = true).
Proof.
  cbv zeta. unfold run_until_green_main. cbn [fst].
  repeat split.
  cbn [summary_all_passed]. destruct (dedupe _); [exact (fun H => H)|discriminate].
Qed.

Lemma loop_code_in_summary (c : contract) (post_loop_codes : list string) (exec : executor) (x : string) :
  In x (reason_codes (loop_final c exec)) ->
  In x (summary_reason_codes (fst (run_until_green_main c post_loop_codes exec))).
Proof.
  intros H. destruct (main_fields c post_loop_codes exec) as [_ [_ [_ [Hrc _]]]].
  cbv zeta in Hrc. rewrite Hrc. apply dedupe_in. apply in_app_iff. left.
  unfold loop_reason_codes. apply in_app_iff. left. exact H.
Qed.

(** The loop stops on the iteration whose checklist delta first reports an
    unsatisfied strict item. *)
Lemma run_loop_strict_stop (checks : list check) (items : list checklist_item) (exec : executor)
    (fuel i : nat) (s : loop_state) :
  (forall e, In e (checklist_timeline s) -> fst (fst e) < i /\ delta_strict_fail_item_ids (snd e) = []) ->
  (forall ev, In ev (iteration_log s) -> event_iteration ev < i) ->
  let s' := run_loop checks items exec fuel i s in
  forall e, In e (checklist_timeline s') -> delta_strict_fail_item_ids (snd e) <> [] ->
    iterations s' = fst (fst e) /\ strict_early_terminated s' = true /\ aborted s' = true /\
    In "validation_failed/checklist_strict_failed" (reason_codes s') /\
    (forall ev, In ev (iteration_log s') -> event_iteration ev <= fst (fst e)) /\
    (forall e', In e' (checklist_timeline s') -> fst (fst e') <= fst (fst e)).
Proof.
  intros Htl Hlog. cbv zeta.
  apply (run_loop_invariant checks items exec
    (fun _ i s => (forall e, In e (checklist_timeline s) -> fst (fst e) < i /\ delta_strict_fail_item_ids (snd e) = []) /\
                  (forall ev, In ev (iteration_log s) -> event_iteration ev < i))); [| | |split; assumption].
  - intros i' s0 [H _] e He Hs. exfalso. exact (Hs (proj2 (H e He))).
  - intros f i' s0 s1 [Ht Hl] Hstep.
    destruct (iteration_step_frame checks items exec i' s0) as [_ [[evs [Hlog' Hevs]] [[new [Htl' [Hok [Hstr _]]]] _]]].
    rewrite Hstep in Hlog', Htl', Hstr. cbn [flow_state] in Hlog', Htl', Hstr.
    split.
    + intros e He. rewrite Htl' in He. apply in_app_iff in He as [He|He].
      * destruct (Ht e He). split; [lia|assumption].
      * rewrite Forall_forall in Hok. specialize (Hok e He).
        destruct e as [[k st] d]. destruct Hok as [-> _]. split; [cbn; lia|]. cbn [snd].
        destruct (delta_strict_fail_item_ids d) eqn:Hd; [reflexivity|].
        exfalso. destruct Hstr as [Hc _]; [exists (i', st, d); split; [exact He|cbn; rewrite Hd; discriminate]|].
        discriminate.
    + intros ev Hev. rewrite Hlog' in Hev. apply in_app_iff in Hev as [Hev|Hev].
      * specialize (Hl ev Hev). lia.
      * rewrite Forall_forall in Hevs. rewrite (Hevs ev Hev). lia.
  - intros f i' s0 s1 [Ht Hl] Hstep e He Hs.
    destruct (iteration_step_frame checks items exec i' s0)
      as [Hit [[evs [Hlog' Hevs]] [[new [Htl' [Hok [Hstr _]]]] _]]].
    rewrite Hstep in Hit, Hlog', Htl', Hstr. cbn [flow_state] in Hit, Hlog', Htl', Hstr.
    rewrite Htl' in He. apply in_app_iff in He as [He|He].
    { exfalso. exact (Hs (proj2 (Ht e He))). }
    assert (Hei : fst (fst e) = i').
    { rewrite Forall_forall in Hok. specialize (Hok e He). destruct e as [[k st] d]. exact (proj1 Hok). }
    destruct (Hstr (ex_intro _ e (conj He Hs))) as [_ [Hse [Hab Hcode]]].
    rewrite Hei. split; [exact Hit|]. split; [exact Hse|]. split; [exact Hab|]. split; [exact Hcode|]. split.
    + intros ev Hev. rewrite Hlog' in Hev. apply in_app_iff in Hev as [Hev|Hev].
      * specialize (Hl ev Hev). lia.
      * rewrite Forall_forall in Hevs. rewrite (Hevs ev Hev). lia.
    + intros e' He'. rewrite Htl' in He'. apply in_app_iff in He' as [He'|He'].
      * destruct (Ht e' He'). lia.
      * rewrite Forall_forall in Hok. specialize (Hok e' He'). destruct e' as [[k st] d].
        destruct Hok as [-> _]. cbn. lia.
Qed.

Lemma summary_passed_no_codes (c : contract) (post_loop_codes : list string) (exec : executor) :
  summary_all_passed (fst (run_until_green_main c post_loop_codes exec)) = true ->
  summary_reason_codes (fst (run_until_green_main c post_loop_codes exec)) = [].
Proof. unfold run_until_green_main. cbn [fst summary_all_passed summary_reason_codes]. destruct (dedupe _); [auto|discriminate]. Qed.

(** Every line of the timeline lists, in its delta, the strict rows of its
    state that are unsatisfied and those that are blocked. *)
Lemma run_loop_entries_ok (checks : list check) (items : list checklist_item) (exec : executor)
    (fuel i : nat) (s : loop_state) :
  (forall e, In e (checklist_timeline s) -> timeline_entry_ok (fst (fst e)) e) ->
  forall e, In e (checklist_timeline (run_loop checks items exec fuel i s)) -> timeline_entry_ok (fst (fst e)) e.
Proof.
  intros Hs.
  apply (run_loop_invariant checks items exec
    (fun _ _ s => forall e, In e (checklist_timeline s) -> timeline_entry_ok (fst (fst e)) e)
    (fun s => forall e, In e (checklist_timeline s) -> timeline_entry_ok (fst (fst e)) e)); [| | |exact Hs].
  - intros i' s0 H. exact H.
  - intros f i' s0 s1 H Hstep e He.
    destruct (iteration_step_frame checks items exec i' s0) as [_ [_ [[new [Htl' [Hok _]]] _]]].
    rewrite Hstep in Htl'. cbn [flow_state] in Htl'. rewrite Htl' in He.
    apply in_app_iff in He as [He|He]; [exact (H e He)|].
    rewrite Forall_forall in Hok. specialize (Hok e He).
    destruct e as [[k st] d]. cbn. destruct Hok as [-> Hok]. split; [reflexivity|exact Hok].
  - intros f i' s0 s1 H Hstep e He.
    destruct (iteration_step_frame checks items exec i' s0) as [_ [_ [[new [Htl' [Hok _]]] _]]].
    rewrite Hstep in Htl'. cbn [flow_state] in Htl'. rewrite Htl' in He.
    apply in_app_iff in He as [He|He]; [exact (H e He)|].
    rewrite Forall_forall in Hok. specialize (Hok e He).
    destruct e as [[k st] d]. cbn. destruct Hok as [-> Hok]. split; [reflexivity|exact Hok].
Qed.

Lemma loop_final_entries_ok (c : contract) (exec : executor) (k : nat) (st : list checklist_item)
    (d : checklist_delta) :
  In (k, st, d) (checklist_timeline (loop_final c exec)) ->
  delta_strict_fail_item_ids d =
    map item_id (filter (fun r => is_strict r && item_status_eqb (status r) Unsatisfied) st) /\
  strict_blocked_item_ids d =
    map item_id (filter (fun r => is_strict r && item_status_eqb (status r) Blocked) st).
Proof.
  intros H. unfold loop_final in H.
  pose proof (run_loop_entries_ok (checks c) (checklist_items c) exec (Z.to_nat (max_iterations c)) 1
                (initial_state (checklist_items c)) ltac:(intros e [])) as Hok.
  specialize (Hok _ H). cbn in Hok. tauto.
Qed.

Lemma strict_unsatisfied_reported (st : list checklist_item) (row : checklist_item) :
  In row st -> is_strict row = true -> status row = Unsatisfied ->
  map item_id (filter (fun r => is_strict r && item_status_eqb (status r) Unsatisfied) st) <> [].
Proof.
  intros Hin Hs Hu Hnil.
  assert (Hf : In row (filter (fun r => is_strict r && item_status_eqb (status r) Unsatisfied) st)).
  { apply filter_In. split; [exact Hin|]. rewrite Hs, Hu. reflexivity. }
  destruct (filter _ st); [contradiction|discriminate].
Qed.

(** C2: when the checklist of iteration [k] has a strict item whose status
    is unsatisfied, the run ends on iteration [k]: no later iteration is
    recorded, the log has no event after [k], the run reports
    strict_early_terminated and aborted, does not pass, and carries
    validation_failed/checklist_strict_failed; the budget [max_iterations]
    plays no part. *)
Theorem strict_failure_stops_run (c : contract) (post_loop_codes : list string) (exec : executor)
    (k : nat) (st : list checklist_item) (d : checklist_delta) (row : checklist_item) :
  In (k, st, d) (summary_checklist_timeline (fst (run_until_green_main c post_loop_codes exec))) ->
  In row st -> is_strict row = true -> status row = Unsatisfied ->
  let m := fst (run_until_green_main c post_loop_codes exec) in
  summary_iterations m = k /\ summary_strict_early_terminated m = true /\ summary_aborted m = true /\
  summary_all_passed m = false /\
  In "validation_failed/checklist_strict_failed" (summary_reason_codes m) /\
  (forall ev, In ev (summary_iteration_log m) -> event_iteration ev <= k) /\
  (forall k' st' d', In (k', st', d') (summary_checklist_timeline m) -> k' <= k).
Proof.
  intros Hin Hrow Hstrict Hu. cbv zeta.
  destruct (main_fields c post_loop_codes exec) as [Hit [Hab [Hse [_ [Hlog [Htl _]]]]]].
  cbv zeta in *. rewrite Htl in Hin.
  assert (Hd : delta_strict_fail_item_ids d <> []).
  { rewrite (proj1 (loop_final_entries_ok c exec k st d Hin)).
    exact (strict_unsatisfied_reported st row Hrow Hstrict Hu). }
  pose proof (run_loop_strict_stop (checks c) (checklist_items c) exec (Z.to_nat (max_iterations c)) 1
                (initial_state (checklist_items c)) ltac:(intros e []) ltac:(intros ev [])) as Hstop.
  cbv zeta in Hstop. fold (loop_final c exec) in Hstop.
  destruct (Hstop (k, st, d) Hin Hd) as [H1 [H2 [H3 [H4 [H5 H6]]]]]. cbn [fst] in *.
  assert (Hcode : In "validation_failed/checklist_strict_failed"
                    (summary_reason_codes (fst (run_until_green_main c post_loop_codes exec))))
    by exact (loop_code_in_summary c post_loop_codes exec _ H4).
  split; [rewrite Hit; exact H1|]. split; [rewrite Hse; exact H2|]. split; [rewrite Hab; exact H3|].
  split.
  { destruct (summary_all_passed _) eqn:Hp; [|reflexivity].
    rewrite (summary_passed_no_codes c post_loop_codes exec Hp) in Hcode. contradiction. }
  split; [exact Hcode|]. split.
  - intros ev Hev. rewrite Hlog in Hev. exact (H5 ev Hev).
  - intros k' st' d' He. rewrite Htl in He. exact (H6 _ He).
Qed.

(** Witness for C2 (Scenario D): a strict item tied to a failing check with
    [max_iterations = 10]; the run stops on iteration 1. *)
Lemma strict_failure_stops_run_witness :
  exists st d,
    In (1, st, d) (summary_checklist_timeline (fst (run_until_green_main scenario_d_contract [] failing_exec))) /\
    summary_iterations (fst (run_until_green_main scenario_d_contract [] failing_exec)) = 1 /\
    summary_strict_early_terminated (fst (run_until_green_main scenario_d_contract [] failing_exec)) = true.
Proof.
  remember (summary_checklist_timeline (fst (run_until_green_main scenario_d_contract [] failing_exec))) as tl eqn:E.
  pose proof E as E'. vm_compute in E'.
  eexists. eexists.
  assert (Hin : In (1, [with_status strict_item Unsatisfied None], mk_delta 1 [] ["strict-item"] []) tl)
    by (rewrite E'; left; reflexivity).
  rewrite E in Hin.
  destruct (strict_failure_stops_run scenario_d_contract [] failing_exec 1 _ _ (with_status strict_item Unsatisfied None)
              Hin (or_introl eq_refl) eq_refl eq_refl) as [H1 [H2 _]].
  split; [rewrite E'; left; reflexivity|]. split; assumption.
Defined.

Lemma iteration_step_break (checks : list check) (items : list checklist_item) (exec : executor)
    (i : nat) (s s' : loop_state) :
  iteration_step checks items exec i s = Break s' ->
  all_passed s' = true \/ strict_early_terminated s' = true \/
  In "validation_failed/diagnostic_no_improvement" (reason_codes s').
Proof.
  intros Hstep.
  destruct (iteration_step_cases checks items exec i s)
    as [[_ [_ Hr]]|[[_ [_ Hr]]|[[_ [_ [_ [[_ Hr]|[_ Hr]]]]]|[_ [_ [_ Hr]]]]]];
    rewrite Hr in Hstep; try discriminate; injection Hstep as <-.
  - right. left. reflexivity.
  - left. reflexivity.
  - right. right. cbn. apply in_app_iff. right. left. reflexivity.
Qed.

(** How the loop ends: a strict early stop comes only from a timeline line
    that reports an unsatisfied strict item; without one, the loop ends with
    all checks passing, with the diagnostic abort, or with the budget spent. *)
Lemma loop_final_outcome (c : contract) (exec : executor) :
  let s := loop_final c exec in
  (strict_early_terminated s = true ->
     exists e, In e (checklist_timeline s) /\ delta_strict_fail_item_ids (snd e) <> []) /\
  ((forall e, In e (checklist_timeline s) -> delta_strict_fail_item_ids (snd e) = []) ->
     strict_early_terminated s = false /\
     (aborted s = true -> In "validation_failed/diagnostic_no_improvement" (reason_codes s)) /\
     (all_passed s = true \/ In "validation_failed/diagnostic_no_improvement" (reason_codes s) \/
      iterations s = Z.to_nat (max_iterations c))).
Proof.
  cbv zeta. unfold loop_final.
  set (mx := Z.to_nat (max_iterations c)).
  apply (run_loop_invariant (checks c) (checklist_items c) exec
    (fun f i s => strict_early_terminated s = false /\ aborted s = false /\ all_passed s = false /\
                  iterations s + 1 = i /\ i + f = mx + 1)).
  - intros i s [Hse [Hab [Hap [Hit Hf]]]]. split.
    + intros H. congruence.
    + intros _. split; [exact Hse|]. split; [intros H; congruence|]. right. right. lia.
  - intros f i s s' [Hse [Hab [Hap [Hit Hf]]]] Hstep.
    destruct (iteration_step_frame (checks c) (checklist_items c) exec i s) as [Hit' [_ [_ [_ [_ Hcont]]]]].
    rewrite Hstep in Hit'. cbn [flow_state] in Hit'.
    destruct (Hcont s' Hstep) as [H1 [H2 H3]].
    split; [congruence|]. split; [congruence|]. split; [congruence|]. split; lia.
  - intros f i s s' [Hse [Hab [Hap [Hit Hf]]]] Hstep.
    destruct (iteration_step_frame (checks c) (checklist_items c) exec i s)
      as [_ [_ [[new [Htl [_ [_ Hstr]]]] [_ [Habort _]]]]].
    rewrite Hstep in Htl, Hstr, Habort. cbn [flow_state] in Htl, Hstr, Habort.
    assert (Hse' : strict_early_terminated s' = true ->
                   exists e, In e (checklist_timeline s') /\ delta_strict_fail_item_ids (snd e) <> []).
    { intros H. destruct (Hstr H) as [H'|[e [He He']]]; [congruence|].
      exists e. split; [rewrite Htl; apply in_app_iff; right; exact He|exact He']. }
    split; [exact Hse'|]. intros Hnone.
    assert (Hf' : strict_early_terminated s' = false).
    { destruct (strict_early_terminated s') eqn:E; [|reflexivity].
      destruct (Hse' eq_refl) as [e [He He']]. exfalso. exact (He' (Hnone e He)). }
    split; [exact Hf'|]. split.
    + intros H. destruct (Habort H) as [H'|[H'|H']]; [congruence|congruence|exact H'].
    + destruct (iteration_step_break _ _ _ _ _ _ Hstep) as [H|[H|H]]; [left; exact H|congruence|right; left; exact H].
  - repeat split; lia.
Qed.

Lemma item_status_eqb_true (a b : item_status) : item_status_eqb a b = true -> a = b.
Proof. destruct a, b; cbn; congruence. Qed.

Lemma strict_filter_nonempty (st : list checklist_item) :
  map item_id (filter (fun r => is_strict r && item_status_eqb (status r) Unsatisfied) st) <> [] ->
  exists row, In row st /\ is_strict row = true /\ status row = Unsatisfied.
Proof.
  destruct (filter _ st) as [|r rs] eqn:Hf; [contradiction|intros _].
  assert (Hr : In r (filter (fun r => is_strict r && item_status_eqb (status r) Unsatisfied) st))
    by (rewrite Hf; left; reflexivity).
  apply filter_In in Hr as [Hin Hr]. apply andb_prop in Hr as [Hs Hu].
  exists r. split; [exact Hin|]. split; [exact Hs|exact (item_status_eqb_true _ _ Hu)].
Qed.

(** C10: a strict early stop happens exactly when some line of the timeline
    has a strict row whose status is unsatisfied. Each line's delta lists
    every strict blocked row in strict_blocked_item_ids and only unsatisfied
    strict rows in strict_fail_item_ids. A run none of whose lines has an
    unsatisfied strict row (strict rows that are blocked, for example by a
    missing dependency, do not count) is not strict-early-terminated; it
    aborts only through the diagnostic, and it ends with all checks passing,
    with the diagnostic abort, or after max_iterations passes. *)
Theorem strict_blocked_never_aborts (c : contract) (post_loop_codes : list string) (exec : executor) :
  let m := fst (run_until_green_main c post_loop_codes exec) in
  (summary_strict_early_terminated m = true <->
     exists k st d row, In (k, st, d) (summary_checklist_timeline m) /\ In row st /\
       is_strict row = true /\ status row = Unsatisfied) /\
  (forall k st d row, In (k, st, d) (summary_checklist_timeline m) -> In row st ->
     is_strict row = true -> status row = Blocked -> In (item_id row) (strict_blocked_item_ids d)) /\
  (forall k st d x, In (k, st, d) (summary_checklist_timeline m) -> In x (delta_strict_fail_item_ids d) ->
     exists r, In r st /\ item_id r = x /\ is_strict r = true /\ status r = Unsatisfied) /\
  ((forall k st d row, In (k, st, d) (summary_checklist_timeline m) -> In row st ->
      is_strict row = true -> status row <> Unsatisfied) ->
     summary_strict_early_terminated m = false /\
     (summary_aborted m = true -> In "validation_failed/diagnostic_no_improvement" (summary_reason_codes m)) /\
     (all_passed (loop_final c exec) = true \/
      In "validation_failed/diagnostic_no_improvement" (summary_reason_codes m) \/
      summary_iterations m = Z.to_nat (max_iterations c))).
Proof.
  cbv zeta.
  destruct (main_fields c post_loop_codes exec) as [Hit [Hab [Hse [_ [_ [Htl _]]]]]].
  cbv zeta in *. rewrite Htl, Hse, Hab, Hit.
  destruct (loop_final_outcome c exec) as [Hout1 Hout2]. cbv zeta in Hout1, Hout2.
  split; [split|split; [|split]].
  - intros H. destruct (Hout1 H) as [[[k st] d] [He Hd]]. cbn [snd] in Hd.
    rewrite (proj1 (loop_final_entries_ok c exec k st d He)) in Hd.
    destruct (strict_filter_nonempty st Hd) as [row Hrow]. exists k, st, d, row. split; [exact He|exact Hrow].
  - intros [k [st [d [row [He [Hrow [Hs Hu]]]]]]].
    assert (Hd : delta_strict_fail_item_ids d <> []).
    { rewrite (proj1 (loop_final_entries_ok c exec k st d He)).
      exact (strict_unsatisfied_reported st row Hrow Hs Hu). }
    pose proof (run_loop_strict_stop (checks c) (checklist_items c) exec (Z.to_nat (max_iterations c)) 1
                  (initial_state (checklist_items c)) ltac:(intros e []) ltac:(intros ev [])) as Hstop.
    cbv zeta in Hstop. fold (loop_final c exec) in Hstop.
    exact (proj1 (proj2 (Hstop (k, st, d) He Hd))).
  - intros k st d row He Hrow Hs Hb.
    rewrite (proj2 (loop_final_entries_ok c exec k st d He)).
    apply in_map. apply filter_In. split; [exact Hrow|]. rewrite Hs, Hb. reflexivity.
  - intros k st d x He Hx.
    rewrite (proj1 (loop_final_entries_ok c exec k st d He)) in Hx.
    apply in_map_iff in Hx as [r [Hid Hr]]. apply filter_In in Hr as [Hin Hr].
    apply andb_prop in Hr as [Hs Hu].
    exists r. split; [exact Hin|]. split; [exact Hid|]. split; [exact Hs|exact (item_status_eqb_true _ _ Hu)].
  - intros Hno.
    assert (Hnone : forall e, In e (checklist_timeline (loop_final c exec)) -> delta_strict_fail_item_ids (snd e) = []).
    { intros [[k st] d] He. cbn [snd].
      rewrite (proj1 (loop_final_entries_ok c exec k st d He)).
      destruct (map item_id _) eqn:Hm; [reflexivity|].
      destruct (strict_filter_nonempty st ltac:(rewrite Hm; discriminate)) as [row [Hrow [Hs Hu]]].
      exfalso. exact (Hno k st d row He Hrow Hs Hu). }
    destruct (Hout2 Hnone) as [H1 [H2 H3]].
    split; [exact H1|]. split.
    + intros H. apply loop_code_in_summary. exact (H2 H).
    + destruct H3 as [H3|[H3|H3]]; [left; exact H3|right; left; apply loop_code_in_summary; exact H3|right; right; exact H3].
Qed.

(** The loop sees the executor only through the pass or fail of each run. *)
(** C3 (amended). One check that fails on every run, no checklist and a
    budget of at least 3 (Scenario B has 4): the score stays 0, the
    no-progress counter reaches 2 on iteration 3, the diagnostic re-run also
    scores 0, and the run aborts there. It runs 3 iterations, and the loop's
    codes are no_progress/no_progress_loop, diagnostic_no_improvement,
    checks_failed and fail_closed_abort, without max_iterations_reached. The
    process exits with status 1; its summary, when printed, reports these
    codes followed by those the contract's auxiliary declarations add after
    the loop, and exactly these four when they add none. *)
Theorem failing_check_diagnostic_abort (dump_room : nat) (ch : check) (contract_fields : list (string * json))
    (exec : executor) (max : Z) :
  (forall it d idx, run_check exec it d idx ch = false) -> (3 <= max)%Z ->
  let c := mk_contract [ch] [] max in
  let s := loop_final c exec in
  iterations s = 3 /\ all_passed s = false /\ aborted s = true /\ diagnostic_ran s = true /\
  loop_reason_codes c s = ["no_progress/no_progress_loop"; "validation_failed/diagnostic_no_improvement";
                           "validation_failed/checks_failed"; "validation_failed/fail_closed_abort"] /\
  match run_until_green dump_room c contract_fields exec with
  | (code, Some m) =>
      code = 1%Z /\ summary_iterations m = 3 /\ summary_all_passed m = false /\
      summary_aborted m = true /\ summary_diagnostic_ran m = true /\
      exists post, run_post_loop_codes contract_fields = Return post /\
        summary_reason_codes m =
          dedupe (["no_progress/no_progress_loop"; "validation_failed/diagnostic_no_improvement";
                   "validation_failed/checks_failed"; "validation_failed/fail_closed_abort"] ++ post) /\
        (post = [] -> summary_reason_codes m =
           ["no_progress/no_progress_loop"; "validation_failed/diagnostic_no_improvement";
            "validation_failed/checks_failed"; "validation_failed/fail_closed_abort"])
  | (code, None) => code = 1%Z
  end.
Proof.
  intros Hrc Hmax. cbv zeta.
  assert (Hn : exists n, Z.to_nat max = 3 + n) by (exists (Z.to_nat max - 3); lia).
  destruct Hn as [n Hn].
  assert (Hloop : iterations (loop_final (mk_contract [ch] [] max) exec) = 3 /\
                  all_passed (loop_final (mk_contract [ch] [] max) exec) = false /\
                  aborted (loop_final (mk_contract [ch] [] max) exec) = true /\
                  diagnostic_ran (loop_final (mk_contract [ch] [] max) exec) = true /\
                  reason_codes (loop_final (mk_contract [ch] [] max) exec) =
                    ["no_progress/no_progress_loop"; "validation_failed/diagnostic_no_improvement"]).
  { unfold loop_final. cbn [max_iterations checks checklist_items]. rewrite Hn.
    cbn [run_loop Nat.add]. unfold iteration_step, run_checks. cbn [run_checks_from].
    rewrite !Hrc. vm_compute. repeat split; reflexivity. }
  destruct Hloop as [Hi [Hp [Ha [Hd Hr]]]].
  assert (Hcodes : loop_reason_codes (mk_contract [ch] [] max) (loop_final (mk_contract [ch] [] max) exec) =
                   ["no_progress/no_progress_loop"; "validation_failed/diagnostic_no_improvement";
                    "validation_failed/checks_failed"; "validation_failed/fail_closed_abort"]).
  { unfold loop_reason_codes. rewrite Hr, Hp, Ha. cbn [max_iterations negb]. rewrite andb_false_r.
    reflexivity. }
  split; [exact Hi|]. split; [exact Hp|]. split; [exact Ha|]. split; [exact Hd|]. split; [exact Hcodes|].
  unfold run_until_green.
  destruct (run_post_loop_codes contract_fields) as [post|e] eqn:Hpost; [|reflexivity].
  pose proof (main_fields (mk_contract [ch] [] max) post exec) as Hf. cbv zeta in Hf.
  pose proof (main_code (mk_contract [ch] [] max) post exec) as Hc.
  destruct (run_until_green_main (mk_contract [ch] [] max) post exec) as [m code] eqn:Hm.
  cbn [fst snd] in Hf, Hc.
  destruct Hf as [Hfi [Hfa [_ [Hfr [_ [_ [Hfd Hfp]]]]]]].
  assert (Hmp : summary_all_passed m = false).
  { destruct (summary_all_passed m) eqn:E; [|reflexivity]. rewrite (Hfp eq_refl) in Hp. discriminate. }
  destruct (Nat.leb _ dump_room); [|reflexivity].
  rewrite Hmp in Hc.
  split; [exact Hc|]. split; [rewrite Hfi; exact Hi|]. split; [exact Hmp|].
  split; [rewrite Hfa; exact Ha|]. split; [rewrite Hfd; exact Hd|].
  exists post. split; [reflexivity|]. rewrite Hfr, Hcodes. split; [reflexivity|].
  intros ->. reflexivity.
Qed.

(** Witness for C3 (amended): Scenario B, the check exiting with status 1,
    [max_iterations = 4] and a contract without auxiliary declarations. *)
Lemma failing_check_diagnostic_abort_witness :
  (forall it d idx, run_check failing_exec it d idx always_fail = false) /\ (3 <= 4)%Z /\
  iterations (loop_final (mk_contract [always_fail] [] 4) failing_exec) = 3.
Proof.
  assert (H1 : forall it d idx, run_check failing_exec it d idx always_fail = false)
    by (intros; reflexivity).
  assert (H2 : (3 <= 4)%Z) by lia.
  split; [exact H1|]. split; [exact H2|].
  exact (proj1 (failing_check_diagnostic_abort 1000 always_fail [] failing_exec 4 H1 H2)).
Defined.

(** C3 (counterexample). Scenario B as written: one check that always
    fails, [max_iterations = 4], no checklist. The run stops after 3
    iterations through the stagnation diagnostic, so it neither runs 4
    iterations nor reports validation_failed/max_iterations_reached. *)
Lemma scenario_b_counterexample :
  exists m, run_until_green 1000 scenario_b_contract [] failing_exec = (1%Z, Some m) /\
            summary_iterations m = 3 /\
            ~ In "validation_failed/max_iterations_reached" (summary_reason_codes m).
Proof.
  eexists. split; [vm_compute; reflexivity|].
  split; [vm_compute; reflexivity|].
  vm_compute. intros H. repeat destruct H as [H|H]; try discriminate. exact H.
Qed.

Lemma step_record_counter (checks : list check) (items : list checklist_item) (exec : executor)
    (i : nat) (s : loop_state) :
  consecutive_no_progress (step_record checks items exec i s) = 0 \/
  consecutive_no_progress (step_record checks items exec i s) = S (consecutive_no_progress s).
Proof.
  assert (H : forall s1, consecutive_no_progress s1 = 0 \/ consecutive_no_progress s1 = S (consecutive_no_progress s) ->
     consecutive_no_progress (match items with [] => s1 | _ :: _ =>
        record_checklist i (check_pass_map_of (run_checks exec i false checks)) s1 end) = 0 \/
     consecutive_no_progress (match items with [] => s1 | _ :: _ =>
        record_checklist i (check_pass_map_of (run_checks exec i false checks)) s1 end) = S (consecutive_no_progress s)).
  { intros s1 Hs1. destruct items; [exact Hs1|]. unfold record_checklist.
    destruct (build_checklist_state _ _ _) as [[[st fl] sf] sb]. exact Hs1. }
  apply H. unfold record_progress. cbn [consecutive_no_progress].
  destruct (match previous_progress s with Some _ => _ | None => false end); auto.
Qed.

Lemma step_record_log_exact (checks : list check) (items : list checklist_item) (exec : executor)
    (i : nat) (s : loop_state) :
  exists sc d np cnp,
    iteration_log (step_record checks items exec i s) =
    iteration_log s ++ map (fun r => EvCheck i (name (fst r)) (snd r)) (run_checks exec i false checks)
                    ++ [EvProgress i sc d np cnp].
Proof.
  assert (H : forall s1, (exists sc d np cnp, iteration_log s1 =
      iteration_log s ++ map (fun r => EvCheck i (name (fst r)) (snd r)) (run_checks exec i false checks)
                      ++ [EvProgress i sc d np cnp]) ->
     exists sc d np cnp, iteration_log (match items with [] => s1 | _ :: _ =>
        record_checklist i (check_pass_map_of (run_checks exec i false checks)) s1 end) =
      iteration_log s ++ map (fun r => EvCheck i (name (fst r)) (snd r)) (run_checks exec i false checks)
                      ++ [EvProgress i sc d np cnp]).
  { intros s1 Hs1. destruct items; [exact Hs1|]. unfold record_checklist.
    destruct (build_checklist_state _ _ _) as [[[st fl] sf] sb]. exact Hs1. }
  apply H. do 4 eexists. reflexivity.
Qed.

Lemma no_diagnostic_result_in_checks (i j : nat) (dp dd : Q) (n : nat) (results : list (check * bool))
    (sc d : Q) (np : bool) (cnp : nat) :
  ~ In (EvDiagnosticResult j dp dd n)
       (map (fun r => EvCheck i (name (fst r)) (snd r)) results ++ [EvProgress i sc d np cnp]).
Proof.
  intros H. apply in_app_iff in H as [H|[H|[]]]; [|discriminate].
  apply in_map_iff in H as [r [Hr _]]. discriminate.
Qed.

Lemma loop_reaches_inv (c : contract) (exec : executor) (i : nat) (s : loop_state) :
  loop_reaches c exec i s ->
  consecutive_no_progress s <= 1 /\ (forall ev, In ev (iteration_log s) -> event_iteration ev < i).
Proof.
  induction 1 as [|i s s' Hr [IHc IHl] Hstep].
  - split; [cbn; lia|intros ev []].
  - destruct (iteration_step_frame (checks c) (checklist_items c) exec i s) as [_ [[evs [Hlog Hevs]] _]].
    rewrite Hstep in Hlog. cbn [flow_state] in Hlog. split.
    + destruct (iteration_step_cases (checks c) (checklist_items c) exec i s)
        as [[_ [_ Hr']]|[[_ [_ Hr']]|[[_ [_ [_ [[_ Hr']|[_ Hr']]]]]|[_ [_ [Hc Hr']]]]]];
        rewrite Hr' in Hstep; try discriminate; injection Hstep as <-.
      * cbn. lia.
      * apply Nat.leb_gt in Hc. lia.
    + intros ev Hev. rewrite Hlog in Hev. apply in_app_iff in Hev as [Hev|Hev].
      * specialize (IHl ev Hev). lia.
      * rewrite Forall_forall in Hevs. rewrite (Hevs ev Hev). lia.
Qed.

(** The diagnostic results that the log holds after one pass from a reached
    state: none, unless the pass ran the diagnostic, and then only its own. *)
Lemma step_diagnostic_events (c : contract) (exec : executor) (i : nat) (s : loop_state)
    (dp dd : Q) (n : nat) :
  loop_reaches c exec i s ->
  let s2 := step_record (checks c) (checklist_items c) exec i s in
  ~ In (EvDiagnosticResult i dp dd n) (iteration_log s2) /\
  (forall dr dp0 dd0, In (EvDiagnosticResult i dp dd n) (iteration_log (diagnostic_start i dr dp0 dd0 s2)) ->
     dp = dp0 /\ dd = dd0 /\ n = count_passed dr).
Proof.
  intros Hr s2.
  destruct (loop_reaches_inv c exec i s Hr) as [_ Hlt].
  destruct (step_record_log_exact (checks c) (checklist_items c) exec i s) as [sc [d [np [cnp Hlog]]]].
  fold s2 in Hlog.
  assert (H2 : ~ In (EvDiagnosticResult i dp dd n) (iteration_log s2)).
  { rewrite Hlog. intros H. apply in_app_iff in H as [H|H].
    - specialize (Hlt _ H). cbn in Hlt. lia.
    - exact (no_diagnostic_result_in_checks _ _ _ _ _ _ _ _ _ _ H). }
  split; [exact H2|]. intros dr dp0 dd0 Hin.
  cbn [diagnostic_start iteration_log] in Hin.
  apply in_app_iff in Hin as [Hin|Hin]; [contradiction|].
  cbn [app] in Hin. destruct Hin as [Hin|Hin]; [discriminate|].
  apply in_app_iff in Hin as [Hin|[Hin|[]]].
  - apply in_map_iff in Hin as [x [Hx _]]. discriminate.
  - injection Hin as H1 H2' H3. auto.
Qed.

(** C5 (amended). On every iteration the loop starts, the no-progress
    counter it starts from is at most 1 and the counter after this
    iteration's score is at most 2. The diagnostic re-run happens on the
    iteration exactly when that counter is 2, no strict checklist failure
    stopped the loop first, and not every check passed. A diagnostic whose
    delta is <= 0 ends the run there, aborted, with
    validation_failed/diagnostic_no_improvement; one whose delta is positive
    resets the counter to 0 and makes the diagnostic score the new
    baseline, so the next iteration's counter is at most 1 and no
    diagnostic runs there. *)
Theorem stagnation_diagnostic_rule (c : contract) (exec : executor) (i : nat) (s : loop_state) :
  loop_reaches c exec i s ->
  let s2 := step_record (checks c) (checklist_items c) exec i s in
  let r := iteration_step (checks c) (checklist_items c) exec i s in
  consecutive_no_progress s <= 1 /\ consecutive_no_progress s2 <= 2 /\
  ((exists dp dd n, In (EvDiagnosticResult i dp dd n) (iteration_log (flow_state r))) <->
     consecutive_no_progress s2 = 2 /\ (checklist_items c = [] \/ strict_fail_item_ids s2 = []) /\
     forallb snd (run_checks exec i false (checks c)) = false) /\
  (forall dp dd n, In (EvDiagnosticResult i dp dd n) (iteration_log (flow_state r)) ->
     (Qle_bool dd 0%Q = true ->
        r = Break (flow_state r) /\ aborted (flow_state r) = true /\
        In "validation_failed/diagnostic_no_improvement" (reason_codes (flow_state r))) /\
     (Qle_bool dd 0%Q = false ->
        r = Continue (flow_state r) /\ consecutive_no_progress (flow_state r) = 0 /\
        previous_progress (flow_state r) = Some dp /\
        consecutive_no_progress (step_record (checks c) (checklist_items c) exec (S i) (flow_state r)) <= 1)).
Proof.
  intros Hr. cbv zeta.
  destruct (loop_reaches_inv c exec i s Hr) as [Hc _].
  assert (Hc2 : consecutive_no_progress (step_record (checks c) (checklist_items c) exec i s) <= 2)
    by (destruct (step_record_counter (checks c) (checklist_items c) exec i s) as [H|H]; lia).
  pose proof (fun dp dd n => step_diagnostic_events c exec i s dp dd n Hr) as Hev. cbv zeta in Hev.
  set (s2 := step_record (checks c) (checklist_items c) exec i s) in *.
  split; [exact Hc|]. split; [exact Hc2|].
  destruct (iteration_step_cases (checks c) (checklist_items c) exec i s)
    as [[Hne [Hsne Hr']]|[[Hg [Hall Hr']]|[[Hg [Hall [Hleb [[Hq Hr']|[Hq Hr']]]]]|[Hg [Hall [Hleb Hr']]]]]];
    fold s2 in Hr'; try fold s2 in Hg; try fold s2 in Hleb; try fold s2 in Hsne; rewrite Hr'; cbn [flow_state].
  - split; [|intros dp dd n H; exfalso; exact (proj1 (Hev dp dd n) H)].
    split; [intros [dp [dd [n H]]]; exfalso; exact (proj1 (Hev dp dd n) H)|].
    intros [_ [[H|H] _]]; contradiction.
  - split; [|intros dp dd n H; exfalso; exact (proj1 (Hev dp dd n) H)].
    split; [intros [dp [dd [n H]]]; exfalso; exact (proj1 (Hev dp dd n) H)|].
    intros [_ [_ H]]. congruence.
  - apply Nat.leb_le in Hleb. split.
    + split; [intros _; split; [lia|split; assumption]|].
      intros _. do 3 eexists. cbn. apply in_app_iff. right. right. apply in_app_iff. right. left. reflexivity.
    + intros dp dd n H. destruct (proj2 (Hev dp dd n) _ _ _ H) as [-> [-> _]]. split.
      * intros _. split; [reflexivity|]. split; [reflexivity|].
        cbn. apply in_app_iff. right. left. reflexivity.
      * intros H'. congruence.
  - apply Nat.leb_le in Hleb. split.
    + split; [intros _; split; [lia|split; assumption]|].
      intros _. do 3 eexists. cbn. apply in_app_iff. right. right. apply in_app_iff. right. left. reflexivity.
    + intros dp dd n H. destruct (proj2 (Hev dp dd n) _ _ _ H) as [-> [-> _]]. split.
      * intros H'. congruence.
      * intros _. split; [reflexivity|]. split; [reflexivity|]. split; [reflexivity|].
        match goal with |- context [step_record ?a ?b ?e (S i) ?st] =>
          destruct (step_record_counter a b e (S i) st) as [H'|H']; rewrite H'; cbn; lia
        end.
  - split; [|intros dp dd n H; exfalso; exact (proj1 (Hev dp dd n) H)].
    split; [intros [dp [dd [n H]]]; exfalso; exact (proj1 (Hev dp dd n) H)|].
    intros [H _]. apply Nat.leb_gt in Hleb. lia.
Qed.

(** Witness for C5 (amended): Scenario B reaches iteration 3 with the
    counter at 2 and runs the diagnostic there. *)
Lemma stagnation_diagnostic_rule_witness :
  exists s, loop_reaches scenario_b_contract failing_exec 3 s /\
    consecutive_no_progress (step_record (checks scenario_b_contract) (checklist_items scenario_b_contract)
                               failing_exec 3 s) = 2 /\
    exists dp dd n, In (EvDiagnosticResult 3 dp dd n)
      (iteration_log (flow_state (iteration_step (checks scenario_b_contract)
                                     (checklist_items scenario_b_contract) failing_exec 3 s))).
Proof.
  pose (s1 := flow_state (iteration_step (checks scenario_b_contract) (checklist_items scenario_b_contract)
                            failing_exec 1 (initial_state (checklist_items scenario_b_contract)))).
  pose (s2 := flow_state (iteration_step (checks scenario_b_contract) (checklist_items scenario_b_contract)
                            failing_exec 2 s1)).
  assert (R1 : loop_reaches scenario_b_contract failing_exec 2 s1).
  { apply (reach_next _ _ 1 (initial_state (checklist_items scenario_b_contract))); [apply reach_start|].
    vm_compute. reflexivity. }
  assert (R2 : loop_reaches scenario_b_contract failing_exec 3 s2).
  { apply (reach_next _ _ 2 s1); [exact R1|]. vm_compute. reflexivity. }
  exists s2. split; [exact R2|].
  destruct (stagnation_diagnostic_rule scenario_b_contract failing_exec 3 s2 R2) as [_ [_ [Hiff _]]].
  assert (Hc : consecutive_no_progress (step_record (checks scenario_b_contract)
                 (checklist_items scenario_b_contract) failing_exec 3 s2) = 2) by (vm_compute; reflexivity).
  split; [exact Hc|]. apply Hiff. split; [exact Hc|]. split; [left; reflexivity|vm_compute; reflexivity].
Defined.

(** C5 (counterexample). Strict item [s] depends on [a]; the score stays
    at 1/2, so the counter reaches 2 on iteration 3. On that iteration [s]
    becomes unsatisfied and the strict stop ends the run before the
    diagnostic: a counter of 2 does not imply a diagnostic run. *)
Lemma stall_strict_counterexample :
  (exists sc d np, In (EvProgress 3 sc d np 2)
     (summary_iteration_log (fst (run_until_green_main strict_at_stall_contract [] swap_exec)))) /\
  ~ (exists dp dd n, In (EvDiagnosticResult 3 dp dd n)
       (summary_iteration_log (fst (run_until_green_main strict_at_stall_contract [] swap_exec)))) /\
  summary_diagnostic_ran (fst (run_until_green_main strict_at_stall_contract [] swap_exec)) = false.
Proof.
  split; [|split].
  - vm_compute. do 3 eexists. repeat (first [left; reflexivity|right]).
  - vm_compute. intros [dp [dd [n H]]]. repeat destruct H as [H|H]; try discriminate. exact H.
  - vm_compute. reflexivity.
Qed.

(** ** Completeness of the cycle search *)

Lemma filter_length_mono {A : Type} (f h : A -> bool) (l : list A) :
  (forall x, f x = true -> h x = true) -> List.length (filter f l) <= List.length (filter h l).
Proof.
  intros Hfh. induction l as [|x l IH]; cbn; [lia|].
  destruct (f x) eqn:Hf; [rewrite (Hfh x Hf); cbn; lia|destruct (h x); cbn; lia].
Qed.

Lemma filter_length_strict {A : Type} (f h : A -> bool) (l : list A) (y : A) :
  (forall x, f x = true -> h x = true) -> In y l -> h y = true -> f y = false ->
  List.length (filter f l) < List.length (filter h l).
Proof.
  intros Hfh Hin Hh Hf. induction l as [|x l IH]; [contradiction|].
  destruct Hin as [<-|Hin].
  - cbn. rewrite Hf, Hh. cbn. pose proof (filter_length_mono f h l Hfh). lia.
  - cbn. specialize (IH Hin).
    destruct (f x) eqn:Hfx; [rewrite (Hfh x Hfx); cbn; lia|destruct (h x); cbn; lia].
Qed.

Lemma dict_get_key {V : Type} (d : list (string * V)) (k : string) (v : V) :
  dict_get d k = Some v -> In k (map fst d).
Proof.
  induction d as [|[k' v'] d IH]; cbn; [discriminate|].
  destruct (String.eqb_spec k k') as [->|_]; [auto|intros H; right; exact (IH H)].
Qed.

Section DfsComplete.

Variable graph : list (string * list string).

Lemma dfs_unvisited_mono (v1 v2 : list string) :
  incl v1 v2 -> dfs_unvisited graph v2 <= dfs_unvisited graph v1.
Proof.
  intros Hi. unfold dfs_unvisited. apply filter_length_mono.
  intros x Hx. apply negb_true_iff in Hx. apply negb_true_iff.
  destruct (mem x v1) eqn:Hm; [|reflexivity].
  apply mem_true_iff in Hm. apply Hi in Hm. apply mem_true_iff in Hm. congruence.
Qed.

Lemma dfs_unvisited_add (u : string) (v : list string) :
  dict_mem graph u = true -> ~ In u v -> dfs_unvisited graph (u :: v) < dfs_unvisited graph v.
Proof.
  intros Hu Hn. unfold dfs_unvisited. apply (filter_length_strict _ _ _ u).
  - intros x Hx. apply negb_true_iff in Hx. apply negb_true_iff.
    destruct (mem x v) eqn:Hm; [|reflexivity].
    apply mem_true_iff in Hm. assert (In x (u :: v)) by (right; exact Hm).
    apply mem_true_iff in H. congruence.
  - unfold dict_mem in Hu. destruct (dict_get graph u) eqn:Hg; [|discriminate].
    exact (dict_get_key _ _ _ Hg).
  - apply negb_true_iff. destruct (mem u v) eqn:Hm; [|reflexivity].
    apply mem_true_iff in Hm. contradiction.
  - apply negb_false_iff. apply mem_true_iff. left. reflexivity.
Qed.

Lemma dfs_unvisited_le (v : list string) : dfs_unvisited graph v <= List.length graph.
Proof.
  unfold dfs_unvisited. rewrite <- (length_map fst graph).
  induction (map fst graph) as [|x l IH]; cbn; [lia|destruct (negb _); cbn; lia].
Qed.

Lemma remove_first_head (x : string) (l : list string) : remove_first x (x :: l) = l.
Proof. cbn. rewrite String.eqb_refl. reflexivity. Qed.

Lemma dict_key_get {V : Type} (d : list (string * V)) (k : string) :
  In k (map fst d) -> exists v, dict_get d k = Some v.
Proof.
  induction d as [|[k' v'] d IH]; cbn; [intros []|].
  intros [<-|Hin]; [rewrite String.eqb_refl; eauto|].
  destruct (String.eqb k k'); [eauto|exact (IH Hin)].
Qed.

(** [graph.get(node, [])] of a node outside the graph. *)
Lemma dict_get_default_nomem (u : string) : dict_mem graph u = false -> dict_get_default graph u [] = [].
Proof. unfold dict_mem, dict_get_default. destruct (dict_get graph u); [discriminate|reflexivity]. Qed.

(** A call of [dfs] that returns [False] restores the stack, adds its node
    (and possibly others) to [visited], and keeps the invariant: every node
    it leaves visited and off the stack lies on no cycle. *)
Lemma dfs_false (room : nat) :
  forall u visited stack visited' stack',
    no_black_cycle graph visited stack -> dict_mem graph u = true ->
    dfs room graph u visited stack = Return (false, visited', stack') ->
    stack' = stack /\ incl visited visited' /\ In u visited' /\ ~ In u stack /\
    no_black_cycle graph visited' stack.
Proof.
  induction room as [|f IH]; intros u visited stack vr sr Hinv Hu Hres; [discriminate|].
  assert (Hdeps : forall deps vis st vis' st',
    no_black_cycle graph vis st ->
    dfs_deps (dfs f graph) graph deps vis st = Return (false, vis', st') ->
    st' = st /\ incl vis vis' /\ no_black_cycle graph vis' st /\
    (forall d, In d deps -> dict_mem graph d = true -> In d vis' /\ ~ In d st)).
  { induction deps as [|d rest IHd]; intros vis st vis' st' Hinv' Hres'.
    - cbn [dfs_deps] in Hres'. injection Hres' as <- <-.
      split; [reflexivity|]. split; [apply incl_refl|]. split; [exact Hinv'|]. intros d [].
    - cbn [dfs_deps] in Hres'.
      destruct (dict_mem graph d) eqn:Hd.
      + destruct (dfs f graph d vis st) as [[[found vis1] st1]|e] eqn:Hdfs; [|discriminate].
        destruct found; [discriminate|].
        destruct (IH d vis st vis1 st1 Hinv' Hd Hdfs) as [-> [Hi1 [Hin1 [Hnin1 Hinv1]]]].
        destruct (IHd vis1 st vis' st' Hinv1 Hres') as [Hs [Hi2 [Hinv2 Hall]]].
        split; [exact Hs|]. split; [exact (incl_tran Hi1 Hi2)|]. split; [exact Hinv2|].
        intros d' [<-|Hd'] Hmem; [split; [apply Hi2; exact Hin1|exact Hnin1]|exact (Hall d' Hd' Hmem)].
      + destruct (IHd vis st vis' st' Hinv' Hres') as [Hs [Hi2 [Hinv2 Hall]]].
        split; [exact Hs|]. split; [exact Hi2|]. split; [exact Hinv2|].
        intros d' [<-|Hd'] Hmem; [congruence|exact (Hall d' Hd' Hmem)]. }
  cbn [dfs] in Hres.
  destruct (mem u stack) eqn:Hs; [discriminate|].
  assert (Hns : ~ In u stack) by (intros H; apply mem_true_iff in H; congruence).
  destruct (mem u visited) eqn:Hv.
  { injection Hres as <- <-. split; [reflexivity|]. split; [apply incl_refl|].
    split; [apply mem_true_iff; exact Hv|]. split; [exact Hns|exact Hinv]. }
  assert (Hnv : ~ In u visited) by (intros H; apply mem_true_iff in H; congruence).
  assert (Hinv0 : no_black_cycle graph (u :: visited) (u :: stack)).
  { intros b [<-|Hb] Hbs; [exfalso; apply Hbs; left; reflexivity|].
    apply Hinv; [exact Hb|intros H; apply Hbs; right; exact H]. }
  destruct (dfs_deps (dfs f graph) graph (dict_get_default graph u []) (u :: visited) (u :: stack))
    as [[[found vis'] st']|e] eqn:Hloop; [|discriminate].
  destruct found; [discriminate|].
  injection Hres as <- <-.
  destruct (Hdeps _ _ _ _ _ Hinv0 Hloop) as [-> [Hi [Hinv' Hall]]].
  rewrite remove_first_head.
  split; [reflexivity|]. split; [intros x Hx; apply Hi; right; exact Hx|].
  split; [apply Hi; left; reflexivity|]. split; [exact Hns|].
  intros b Hb Hbs.
  destruct (String.eqb_spec b u) as [->|Hne].
  - intros Hc. apply clos_trans_t1n_iff in Hc.
    inversion Hc as [? He | v ? He Hrest]; subst.
    + destruct He as [Hdep Hmem].
      destruct (Hall u Hdep Hmem) as [_ Hn]. apply Hn. left. reflexivity.
    + destruct He as [Hdep Hmem]. destruct (Hall v Hdep Hmem) as [Hvin Hvn].
      apply (Hinv' v Hvin Hvn).
      apply clos_trans_t1n_iff in Hrest.
      apply (t_trans _ _ _ u _ Hrest). apply t_step. split; assumption.
  - apply (Hinv' b Hb). intros [H|H]; [congruence|contradiction].
Qed.

(** With more room than unvisited nodes, a call of [dfs] returns. *)
Lemma dfs_returns (room : nat) :
  forall u visited stack, dfs_unvisited graph visited < room ->
  exists found visited' stack',
    dfs room graph u visited stack = Return (found, visited', stack') /\ incl visited visited'.
Proof.
  induction room as [|f IH]; intros u visited stack Hr; [lia|].
  assert (Hdeps : forall deps vis st, dfs_unvisited graph vis < f ->
    exists found vis' st',
      dfs_deps (dfs f graph) graph deps vis st = Return (found, vis', st') /\ incl vis vis').
  { induction deps as [|d rest IHd]; intros vis st Hf; cbn [dfs_deps].
    - exists false, vis, st. split; [reflexivity|apply incl_refl].
    - destruct (dict_mem graph d); [|exact (IHd vis st Hf)].
      destruct (IH d vis st Hf) as [found [vis1 [st1 [Hd Hi1]]]]. rewrite Hd.
      destruct found; [exists true, vis1, st1; split; [reflexivity|exact Hi1]|].
      pose proof (dfs_unvisited_mono _ _ Hi1) as Hm.
      destruct (IHd vis1 st1 ltac:(lia)) as [found' [vis2 [st2 [Hd2 Hi2]]]].
      exists found', vis2, st2. split; [exact Hd2|exact (incl_tran Hi1 Hi2)]. }
  cbn [dfs].
  destruct (mem u stack); [exists true, visited, stack; split; [reflexivity|apply incl_refl]|].
  destruct (mem u visited) eqn:Hv; [exists false, visited, stack; split; [reflexivity|apply incl_refl]|].
  assert (Hnv : ~ In u visited) by (intros H; apply mem_true_iff in H; congruence).
  assert (Hloop : exists found vis' st',
    dfs_deps (dfs f graph) graph (dict_get_default graph u []) (u :: visited) (u :: stack)
      = Return (found, vis', st') /\ incl (u :: visited) vis').
  { destruct (dict_mem graph u) eqn:Hu.
    - apply Hdeps. pose proof (dfs_unvisited_add u visited Hu Hnv). lia.
    - rewrite (dict_get_default_nomem u Hu). cbn [dfs_deps].
      exists false, (u :: visited), (u :: stack). split; [reflexivity|apply incl_refl]. }
  destruct Hloop as [found [vis' [st' [Hl Hi]]]]. rewrite Hl.
  assert (Hi' : incl visited vis') by (intros x Hx; apply Hi; right; exact Hx).
  destruct found.
  - exists true, vis', st'. split; [reflexivity|exact Hi'].
  - exists false, vis', (remove_first u st'). split; [reflexivity|exact Hi'].
Qed.

(** The only exception [dfs] raises is [RecursionError]. *)
Lemma dfs_raise (room : nat) :
  forall u visited stack e, dfs room graph u visited stack = Raise e -> e = RecursionError.
Proof.
  induction room as [|f IH]; intros u visited stack e H; cbn [dfs] in H; [congruence|].
  assert (Hdeps : forall deps vis st, dfs_deps (dfs f graph) graph deps vis st = Raise e -> e = RecursionError).
  { induction deps as [|d rest IHd]; intros vis st Hd; cbn [dfs_deps] in Hd; [discriminate|].
    destruct (dict_mem graph d); [|exact (IHd _ _ Hd)].
    destruct (dfs f graph d vis st) as [[[found vis1] st1]|e'] eqn:E.
    - destruct found; [discriminate|exact (IHd _ _ Hd)].
    - injection Hd as <-. exact (IH _ _ _ _ E). }
  destruct (mem u stack); [discriminate|]. destruct (mem u visited); [discriminate|].
  destruct (dfs_deps _ _ _ _ _) as [[[found vis1] st1]|e'] eqn:E.
  - destruct found; discriminate.
  - injection H as <-. exact (Hdeps _ _ _ E).
Qed.

Lemma any_dfs_returns (room : nat) (nodes : list string) :
  forall visited stack, List.length graph < room -> exists b, any_dfs room graph nodes visited stack = Return b.
Proof.
  induction nodes as [|n rest IH]; intros visited stack Hr; cbn [any_dfs]; [eexists; reflexivity|].
  pose proof (dfs_unvisited_le visited) as Hle.
  destruct (dfs_returns room n visited stack ltac:(lia)) as [found [v' [s' [Hd _]]]].
  rewrite Hd. destruct found; [eexists; reflexivity|exact (IH v' s' Hr)].
Qed.

Lemma any_dfs_raise (room : nat) (nodes : list string) :
  forall visited stack e, any_dfs room graph nodes visited stack = Raise e ->
  e = RecursionError /\ room <= List.length graph.
Proof.
  intros visited stack e H. split.
  - revert visited stack H. induction nodes as [|n rest IH]; intros visited stack H; cbn [any_dfs] in H;
      [discriminate|].
    destruct (dfs room graph n visited stack) as [[[found v'] s']|e'] eqn:E.
    + destruct found; [discriminate|exact (IH _ _ H)].
    + injection H as <-. exact (dfs_raise room _ _ _ _ E).
  - destruct (Nat.le_gt_cases room (List.length graph)) as [Hle|Hgt]; [exact Hle|].
    destruct (any_dfs_returns room nodes visited stack Hgt) as [b Hb]. congruence.
Qed.

Lemma any_dfs_false (room : nat) (nodes visited : list string) :
  no_black_cycle graph visited [] -> (forall n, In n nodes -> dict_mem graph n = true) ->
  any_dfs room graph nodes visited [] = Return false ->
  forall n, In n nodes -> ~ clos_trans string (graph_edge graph) n n.
Proof.
  revert visited. induction nodes as [|n rest IH]; intros vis Hinv Hmem Hany m Hm; [contradiction|].
  cbn [any_dfs] in Hany.
  destruct (dfs room graph n vis []) as [[[found vis'] st']|e] eqn:Hd; [|discriminate].
  destruct found; [discriminate|].
  destruct (dfs_false room n vis [] vis' st' Hinv (Hmem n (or_introl eq_refl)) Hd)
    as [-> [_ [Hin [_ Hinv']]]].
  destruct Hm as [<-|Hm].
  - exact (Hinv' n Hin (fun H => H)).
  - exact (IH vis' Hinv' (fun x Hx => Hmem x (or_intror Hx)) Hany m Hm).
Qed.

(** The search never answers [False] on a graph with a cycle: it finds the
    cycle, or runs out of room. *)
Lemma any_dfs_complete (room : nat) (u : string) :
  clos_trans string (graph_edge graph) u u ->
  any_dfs room graph (map fst graph) [] [] <> Return false.
Proof.
  intros Hc Hany.
  assert (Hkey : In u (map fst graph)).
  { assert (Hfirst : forall x y, clos_trans string (graph_edge graph) x y -> exists z, graph_edge graph x z)
      by (induction 1; eauto).
    destruct (Hfirst u u Hc) as [v [Hv _]].
    unfold dict_get_default in Hv. destruct (dict_get graph u) eqn:Hg; [|contradiction].
    exact (dict_get_key _ _ _ Hg). }
  refine (any_dfs_false room (map fst graph) [] _ _ Hany u Hkey Hc).
  - intros b [].
  - intros n Hn. destruct (dict_key_get graph n Hn) as [v Hv]. unfold dict_mem. rewrite Hv. reflexivity.
Qed.

End DfsComplete.

Lemma build_graph_get_notin (items : list checklist_item) :
  forall (m : list (string * list string)) k, ~ In k (map item_id items) ->
  dict_get (fold_left (fun g item => dict_set g (item_id item) (depends_on item)) items m) k = dict_get m k.
Proof.
  induction items as [|it rest IH]; intros m k Hn; [reflexivity|].
  cbn [fold_left]. rewrite IH by (intros H; apply Hn; right; exact H).
  rewrite dict_get_set. destruct (String.eqb_spec k (item_id it)) as [->|_]; [|reflexivity].
  exfalso. apply Hn. left. reflexivity.
Qed.

Lemma build_graph_get (items : list checklist_item) :
  NoDup (map item_id items) ->
  forall (m : list (string * list string)) it, In it items ->
  dict_get (fold_left (fun g item => dict_set g (item_id item) (depends_on item)) items m) (item_id it) =
  Some (depends_on it).
Proof.
  induction items as [|it0 rest IH]; intros Hnd m it Hin; [contradiction|].
  inversion Hnd as [|? ? Hn0 Hnd']; subst. cbn [fold_left].
  destruct Hin as [<-|Hin].
  - rewrite build_graph_get_notin by exact Hn0. rewrite dict_get_set, String.eqb_refl. reflexivity.
  - exact (IH Hnd' _ it Hin).
Qed.

Lemma build_graph_mem (items : list checklist_item) :
  forall (m : list (string * list string)) k, In k (map item_id items) \/ dict_mem m k = true ->
  dict_mem (fold_left (fun g item => dict_set g (item_id item) (depends_on item)) items m) k = true.
Proof.
  induction items as [|it rest IH]; intros m k H.
  - destruct H as [[]|H]; exact H.
  - cbn [fold_left]. apply IH.
    destruct H as [[Hk|Hk]|Hk]; [right|left; exact Hk|right].
    + unfold dict_mem. rewrite dict_get_set, Hk, String.eqb_refl. reflexivity.
    + unfold dict_mem in *. rewrite dict_get_set. destruct (String.eqb k (item_id it)); [reflexivity|exact Hk].
Qed.

(** With unique ids, the graph has the edges of the [depends_on] relation. *)
Lemma item_edge_graph_edge (items : list checklist_item) (u v : string) :
  NoDup (map item_id items) -> item_edge items u v -> graph_edge (build_graph items) u v.
Proof.
  intros Hnd [it [Hin [Hid [Hdep Hv]]]]. subst u. split.
  - unfold dict_get_default, build_graph. rewrite (build_graph_get items Hnd [] it Hin). exact Hdep.
  - unfold build_graph. apply build_graph_mem. left. exact Hv.
Qed.

Lemma item_cycle_graph_cycle (items : list checklist_item) (u w : string) :
  NoDup (map item_id items) -> clos_trans string (item_edge items) u w ->
  clos_trans string (graph_edge (build_graph items)) u w.
Proof.
  intros Hnd. induction 1 as [x y Hxy|x y z _ IH1 _ IH2].
  - apply t_step. exact (item_edge_graph_edge items x y Hnd Hxy).
  - exact (t_trans _ _ x y z IH1 IH2).
Qed.

Lemma dict_set_length {V : Type} (d : list (string * V)) (k : string) (v : V) :
  List.length (dict_set d k v) <= S (List.length d).
Proof. induction d as [|[k' v'] d IH]; cbn; [lia|]. destruct (String.eqb k k'); cbn; lia. Qed.

Lemma build_graph_length (items : list checklist_item) : List.length (build_graph items) <= List.length items.
Proof.
  unfold build_graph.
  assert (H : forall m, List.length (fold_left (fun g item => dict_set g (item_id item) (depends_on item)) items m)
                        <= List.length m + List.length items).
  { induction items as [|it rest IH]; intros m; cbn [fold_left List.length]; [lia|].
    specialize (IH (dict_set m (item_id it) (depends_on it))).
    pose proof (dict_set_length m (item_id it) (depends_on it)). lia. }
  exact (H []).
Qed.

Lemma checklist_cycle_complete (room : nat) (items : list checklist_item) (u : string) :
  NoDup (map item_id items) -> clos_trans string (item_edge items) u u ->
  checklist_cycle room items <> Return false.
Proof.
  intros Hnd Hc. unfold checklist_cycle.
  exact (any_dfs_complete (build_graph items) room u (item_cycle_graph_cycle items u u Hnd Hc)).
Qed.

(** With more room than items, [_checklist_cycle] returns. *)
Lemma checklist_cycle_returns (room : nat) (items : list checklist_item) :
  List.length items < room -> exists b, checklist_cycle room items = Return b.
Proof.
  intros H. unfold checklist_cycle. apply any_dfs_returns.
  pose proof (build_graph_length items). lia.
Qed.

(** [_checklist_cycle] raises only [RecursionError], and only when the room
    is at most the number of items. *)
Lemma checklist_cycle_raise (room : nat) (items : list checklist_item) (e : py_error) :
  checklist_cycle room items = Raise e -> e = RecursionError /\ room <= List.length items.
Proof.
  intros H. unfold checklist_cycle in H.
  destruct (any_dfs_raise _ room _ _ _ _ H) as [He Hr].
  pose proof (build_graph_length items). split; [exact He|lia].
Qed.



(** ** Soundness of the cycle search *)

Section DfsSound.

Variable graph : list (string * list string).

Lemma dfs_deps_sound (room : nat)
    (IH : forall node visited stack, dfs_pre graph stack node -> dfs_post graph (dfs room graph node visited stack) stack) :
  forall deps visited stack,
    (forall d, In d deps -> dict_mem graph d = true -> dfs_pre graph stack d) ->
    dfs_post graph (dfs_deps (dfs room graph) graph deps visited stack) stack.
Proof.
  induction deps as [|d deps IHd]; intros visited stack Hpre; cbn [dfs_deps].
  - split; [discriminate|reflexivity].
  - destruct (dict_mem graph d) eqn:Hm.
    + pose proof (IH d visited stack (Hpre d (or_introl eq_refl) Hm)) as Hd.
      destruct (dfs room graph d visited stack) as [[[found visited'] stack']|e]; [|exact I].
      destruct Hd as [Ht Hf]. destruct found.
      * split; [intros _; exact (Ht eq_refl)|discriminate].
      * rewrite (Hf eq_refl). apply IHd. intros d' Hd' Hm'. exact (Hpre d' (or_intror Hd') Hm').
    + apply IHd. intros d' Hd' Hm'. exact (Hpre d' (or_intror Hd') Hm').
Qed.

Lemma dfs_sound (room : nat) :
  forall node visited stack, dfs_pre graph stack node -> dfs_post graph (dfs room graph node visited stack) stack.
Proof.
  induction room as [|room IH]; intros node visited stack Hpre; cbn [dfs].
  - exact I.
  - destruct (mem node stack) eqn:Hs.
    + split; [intros _|discriminate]. exists node. apply Hpre. apply mem_true_iff. exact Hs.
    + destruct (mem node visited); [split; [discriminate|reflexivity]|].
      pose proof (dfs_deps_sound room IH (dict_get_default graph node []) (node :: visited) (node :: stack))
        as Hd.
      destruct (dfs_deps (dfs room graph) graph (dict_get_default graph node []) (node :: visited) (node :: stack))
        as [[[found visited'] stack']|e]; [|exact I].
      assert (Hpre' : forall d, In d (dict_get_default graph node []) -> dict_mem graph d = true ->
                        dfs_pre graph (node :: stack) d).
      { intros d Hin Hm x [<-|Hx].
        - apply t_step. split; assumption.
        - apply t_trans with node; [exact (Hpre x Hx)|]. apply t_step. split; assumption. }
      destruct (Hd Hpre') as [Ht Hf]. destruct found.
      * split; [intros _; exact (Ht eq_refl)|discriminate].
      * split; [discriminate|]. intros _. rewrite (Hf eq_refl). cbn [remove_first].
        rewrite String.eqb_refl. reflexivity.
Qed.

Lemma any_dfs_sound (room : nat) :
  forall nodes visited, any_dfs room graph nodes visited [] = Return true ->
  exists u, clos_trans string (graph_edge graph) u u.
Proof.
  induction nodes as [|node nodes IHn]; intros visited H; cbn [any_dfs] in H; [discriminate|].
  assert (Hpre : dfs_pre graph [] node) by (intros x []).
  pose proof (dfs_sound room node visited [] Hpre) as Hp.
  destruct (dfs room graph node visited []) as [[[found visited'] stack']|e]; [|discriminate].
  destruct Hp as [Ht Hf]. destruct found; [exact (Ht eq_refl)|].
  rewrite (Hf eq_refl) in H. exact (IHn visited' H).
Qed.

End DfsSound.

Lemma build_graph_get_some (items : list checklist_item) :
  forall (m : list (string * list string)) k l,
  dict_get (fold_left (fun g item => dict_set g (item_id item) (depends_on item)) items m) k = Some l ->
  (exists it, In it items /\ item_id it = k /\ depends_on it = l) \/ dict_get m k = Some l.
Proof.
  induction items as [|it rest IH]; intros m k l H; [right; exact H|].
  cbn [fold_left] in H. destruct (IH _ k l H) as [[it' [Hin Hrest]]|H'].
  - left. exists it'. split; [right; exact Hin|exact Hrest].
  - rewrite dict_get_set in H'. destruct (String.eqb_spec k (item_id it)) as [->|_].
    + left. exists it. injection H' as <-. split; [left; reflexivity|auto].
    + right. exact H'.
Qed.

Lemma build_graph_mem_in (items : list checklist_item) :
  forall (m : list (string * list string)) k,
  dict_mem (fold_left (fun g item => dict_set g (item_id item) (depends_on item)) items m) k = true ->
  In k (map item_id items) \/ dict_mem m k = true.
Proof.
  induction items as [|it rest IH]; intros m k H; [right; exact H|].
  cbn [fold_left] in H. destruct (IH _ k H) as [Hin|H'].
  - left. right. exact Hin.
  - unfold dict_mem in H'. rewrite dict_get_set in H'.
    destruct (String.eqb_spec k (item_id it)) as [->|_].
    + left. left. reflexivity.
    + right. exact H'.
Qed.

Lemma graph_edge_item_edge (items : list checklist_item) (u v : string) :
  graph_edge (build_graph items) u v -> item_edge items u v.
Proof.
  intros [Hv Hm]. unfold dict_get_default, build_graph in Hv.
  destruct (dict_get (fold_left _ items []) u) as [l|] eqn:Hg; [|contradiction].
  destruct (build_graph_get_some items [] u l Hg) as [[it [Hin [Hid Hdep]]]|H]; [|discriminate].
  exists it. split; [exact Hin|]. split; [exact Hid|]. split; [rewrite Hdep; exact Hv|].
  destruct (build_graph_mem_in items [] v Hm) as [H|H]; [exact H|discriminate].
Qed.

(** ** The acyclicity gate of compile_checks.py *)

(** Every cycle [_checklist_cycle] reports is a cycle of the items'
    [depends_on] relation. *)
Lemma checklist_cycle_sound (room : nat) (items : list checklist_item) :
  checklist_cycle room items = Return true -> exists u, clos_trans string (item_edge items) u u.
Proof.
  intros H. unfold checklist_cycle in H. destruct (any_dfs_sound _ room _ [] H) as [u Hu].
  exists u. clear H. revert Hu. generalize u at 1 3. intros w Hu.
  induction Hu as [x y Hxy|x y z _ IH1 _ IH2].
  - apply t_step. exact (graph_edge_item_edge items x y Hxy).
  - exact (t_trans _ _ x y z IH1 IH2).
Qed.




(** * Further properties of the two scripts *)

(** ** [_dedupe] *)

Lemma dedupe_fold_extends (values output : list string) :
  exists rest, fold_left (fun output value => if mem value output then output else output ++ [value]) values output
               = output ++ rest.
Proof.
  revert output. induction values as [|v values IH]; intros output; simpl.
  - exists []. rewrite app_nil_r. reflexivity.
  - destruct (mem v output).
    + exact (IH output).
    + destruct (IH (output ++ [v])) as [rest E]. rewrite E. exists (v :: rest).
      rewrite <- app_assoc. reflexivity.
Qed.

Lemma dedupe_fold_nodup (values output : list string) :
  NoDup output ->
  NoDup (fold_left (fun output value => if mem value output then output else output ++ [value]) values output).
Proof.
  revert output. induction values as [|v values IH]; intros output Hnd; simpl; [exact Hnd|].
  destruct (mem v output) eqn:Hm; apply IH; [exact Hnd|].
  apply NoDup_app; [exact Hnd|repeat constructor; intros []|].
  intros x Hx [<-|[]]. apply (proj2 (mem_true_iff v output)) in Hx. congruence.
Qed.

Lemma dedupe_fold_fresh (values output : list string) :
  NoDup values -> (forall x, In x values -> ~ In x output) ->
  fold_left (fun output value => if mem value output then output else output ++ [value]) values output
  = output ++ values.
Proof.
  revert output. induction values as [|v values IH]; intros output Hnd Hfr; simpl.
  - rewrite app_nil_r. reflexivity.
  - inversion Hnd as [|? ? Hv Hnd']; subst.
    destruct (mem v output) eqn:Hm.
    + exfalso. apply (Hfr v); [left; reflexivity|]. apply mem_true_iff. exact Hm.
    + rewrite IH; [rewrite <- app_assoc; reflexivity|exact Hnd'|].
      intros x Hx Hin. apply in_app_iff in Hin as [Hin|[<-|[]]].
      * exact (Hfr x (or_intror Hx) Hin).
      * exact (Hv Hx).
Qed.

Lemma sorted_set_sorted (codes : list string) : StronglySorted String_as_OT.lt (sorted_set codes).
Proof.
  unfold sorted_set. induction codes as [|c codes IH]; simpl.
  - constructor.
  - apply insert_unique_sorted. exact IH.
Qed.

Lemma sorted_set_of_sorted (codes : list string) :
  StronglySorted String_as_OT.lt codes -> sorted_set codes = codes.
Proof.
  induction 1 as [|y l Hs IH Hall]; [reflexivity|].
  unfold sorted_set. cbn [fold_right]. fold (sorted_set l). rewrite IH.
  destruct l as [|z l]; [reflexivity|]. cbn [insert_unique].
  inversion Hall as [|? ? Hyz _]; subst.
  destruct (String_as_OT.compare_spec y z) as [Heq|Hlt|Hgt].
  - unfold String_as_OT.eq in Heq. subst. exfalso. exact (StrictOrder_Irreflexive z Hyz).
  - reflexivity.
  - exfalso. apply (StrictOrder_Irreflexive y). transitivity z; assumption.
Qed.

(** [_dedupe] returns each value once, keeps the values in the order of
    their first occurrence (so the deduplication of a prefix is a prefix of
    the result) and returns a list without repetitions unchanged. *)
Theorem dedupe_first_occurrence (values more : list string) :
  NoDup (dedupe values) /\
  (forall x, In x (dedupe values) <-> In x values) /\
  (NoDup values -> dedupe values = values) /\
  dedupe (dedupe values) = dedupe values /\
  (exists rest, dedupe (values ++ more) = dedupe values ++ rest).
Proof.
  assert (Hnd : NoDup (dedupe values)) by (apply dedupe_fold_nodup; constructor).
  assert (Hid : forall l, NoDup l -> dedupe l = l)
    by (intros l Hl; unfold dedupe; rewrite dedupe_fold_fresh; [reflexivity|exact Hl|intros x _ []]).
  split; [exact Hnd|]. split; [apply dedupe_in|]. split; [exact (Hid values)|].
  split; [exact (Hid _ Hnd)|].
  unfold dedupe. rewrite fold_left_app. apply dedupe_fold_extends.
Qed.

(** [sorted(set(codes))] as compile_checks.py computes it is strictly
    increasing in Python's string order (byte order on ASCII), holds exactly
    the given codes, leaves a strictly increasing list unchanged; so every
    reason-code list the compiler prints on failure is strictly sorted. *)
Theorem sorted_set_strictly_sorted (codes : list string) :
  StronglySorted String_as_OT.lt (sorted_set codes) /\
  (forall x, In x (sorted_set codes) <-> In x codes) /\
  (StronglySorted String_as_OT.lt codes -> sorted_set codes = codes) /\
  (forall room dump_room t run_id p out,
     compile_checks_main room dump_room t run_id = (1%Z, CompileFailed p, out) ->
     StronglySorted String_as_OT.lt (fail_reason_codes p)).
Proof.
  split; [apply sorted_set_sorted|]. split; [apply sorted_set_in|].
  split; [apply sorted_set_of_sorted|].
  intros room dump_room t run_id p out Hm.
  destruct (compile_reason_codes room t run_id) as [cs|e] eqn:Hc.
  - destruct cs as [|x rest].
    + destruct (compile_main_no_codes room dump_room t run_id Hc) as [cl [_ Hm']].
      rewrite Hm' in Hm. destruct (py_int _) as [mx|e]; [|discriminate Hm]. cbv zeta in Hm.
      destruct (Nat.leb (contract_nesting _ _) dump_room);
        [destruct (Nat.leb compile_summary_nesting dump_room)|]; discriminate Hm.
    + rewrite (compile_main_codes room dump_room t run_id (x :: rest) Hc ltac:(discriminate)) in Hm.
      destruct (Nat.leb fail_payload_nesting dump_room); [|discriminate Hm].
      injection Hm as <- _. exact (sorted_set_sorted (x :: rest)).
  - rewrite (compile_main_raise room dump_room t run_id e Hc) in Hm. discriminate Hm.
Qed.

(** [_checklist_cycle] answers [True] only when the graph it builds has a
    cycle, and every cycle it reports is a cycle of the items' [depends_on]
    relation (restricted to targets that are item ids), so the cycle code is
    never raised for an acyclic checklist. It never answers [False] when the
    graph has a cycle, nor, with pairwise distinct ids, when that relation
    has one. The only exception it raises is [RecursionError], when the
    room for the nested [dfs] frames is at most the number of items; with
    more room it returns. *)
Theorem checklist_cycle_exact (room : nat) (items : list checklist_item) :
  (checklist_cycle room items = Return true -> exists u, clos_trans string (graph_edge (build_graph items)) u u) /\
  (forall u, clos_trans string (graph_edge (build_graph items)) u u -> checklist_cycle room items <> Return false) /\
  (checklist_cycle room items = Return true -> exists u, clos_trans string (item_edge items) u u) /\
  (NoDup (map item_id items) ->
     forall u, clos_trans string (item_edge items) u u -> checklist_cycle room items <> Return false) /\
  (List.length items < room -> exists b, checklist_cycle room items = Return b) /\
  (forall e, checklist_cycle room items = Raise e -> e = RecursionError /\ room <= List.length items).
Proof.
  split; [intros H; unfold checklist_cycle in H; exact (any_dfs_sound _ room _ [] H)|].
  split; [intros u Hu; exact (any_dfs_complete (build_graph items) room u Hu)|].
  split; [exact (checklist_cycle_sound room items)|].
  split; [intros Hnd u Hu; exact (checklist_cycle_complete room items u Hnd Hu)|].
  split; [exact (checklist_cycle_returns room items)|].
  intros e. exact (checklist_cycle_raise room items e).
Qed.

Lemma checklist_cycle_exact_witness :
  NoDup (map item_id (normalised_items cycle_task)) /\
  clos_trans string (item_edge (normalised_items cycle_task)) "a" "a" /\
  checklist_cycle 995 (normalised_items cycle_task) <> Return false.
Proof.
  assert (Hnd : NoDup (map item_id (normalised_items cycle_task))).
  { vm_compute. constructor; [simpl; intros [H|[]]; discriminate H|].
    constructor; [intros []|constructor]. }
  assert (Hab : item_edge (normalised_items cycle_task) "a" "b").
  { vm_compute. eexists. split; [left; reflexivity|]. simpl. auto. }
  assert (Hba : item_edge (normalised_items cycle_task) "b" "a").
  { vm_compute. eexists. split; [right; left; reflexivity|]. simpl. auto. }
  assert (Hc : clos_trans string (item_edge (normalised_items cycle_task)) "a" "a")
    by exact (t_trans _ _ _ "b" _ (t_step _ _ _ _ Hab) (t_step _ _ _ _ Hba)).
  split; [exact Hnd|]. split; [exact Hc|].
  exact (proj1 (proj2 (proj2 (proj2 (checklist_cycle_exact 995 (normalised_items cycle_task))))) Hnd "a" Hc).
Defined.

(** ** Normalisation of checks and checklist items *)

Lemma is_empty_false (s : string) : is_empty s = false -> s <> "".
Proof. destruct s; [discriminate|intros _; discriminate]. Qed.

Lemma normalise_checks_from_props (raw : list raw_check) :
  forall index,
  (forall c, In c (normalise_checks_from index raw) -> command c <> "") /\
  List.length (normalise_checks_from index raw) <= List.length raw /\
  (normalise_checks_from index raw = [] <->
   forall n cm p, In (RawCheck n cm p) raw -> is_empty (strip (get_str cm "")) = true).
Proof.
  induction raw as [|r rest IH]; intros index; cbn [normalise_checks_from].
  - split; [intros c []|]. split; [cbn; lia|]. split; [intros _ n cm p []|reflexivity].
  - destruct (IH (S index)) as [Hc [Hl Hnil]]. destruct r as [|n cm p].
    + split; [exact Hc|]. split; [cbn [List.length]; lia|].
      rewrite Hnil. split; intros H n' cm' p' Hin.
      * destruct Hin as [E|Hin]; [discriminate E|exact (H n' cm' p' Hin)].
      * exact (H n' cm' p' (or_intror Hin)).
    + destruct (is_empty (strip (get_str cm ""))) eqn:He.
      * split; [exact Hc|]. split; [cbn [List.length]; lia|].
        rewrite Hnil. split; intros H n' cm' p' Hin.
        -- destruct Hin as [E|Hin]; [injection E as _ <- _; exact He|exact (H n' cm' p' Hin)].
        -- exact (H n' cm' p' (or_intror Hin)).
      * split; [intros c [<-|Hin]; [exact (is_empty_false _ He)|exact (Hc c Hin)]|].
        split; [cbn [List.length]; lia|].
        split; [discriminate|]. intros H. rewrite (H n cm p (or_introl eq_refl)) in He. discriminate.
Qed.

Lemma normalise_checks_commands (raw : option (list raw_check)) :
  forall c, In c (normalise_checks raw) -> command c <> "".
Proof.
  destruct raw as [l|]; [exact (proj1 (normalise_checks_from_props l 0)) | intros c []].
Qed.

(** [normalise_checks] keeps only checks with a non-blank command, never
    more checks than entries, and returns no check exactly when no entry
    that is an object has a non-blank command (or [acceptance_tests] is not a
    list); every other entry yields one check. *)
Theorem normalise_checks_nonblank (raw : option (list raw_check)) :
  (forall c, In c (normalise_checks raw) -> command c <> "") /\
  List.length (normalise_checks raw) <= List.length (match raw with Some l => l | None => [] end) /\
  (normalise_checks raw = [] <->
   forall l, raw = Some l -> forall n cm p, In (RawCheck n cm p) l -> is_empty (strip (get_str cm "")) = true).
Proof.
  destruct raw as [l|].
  - destruct (normalise_checks_from_props l 0) as [Hc [Hl Hnil]]. unfold normalise_checks.
    split; [exact Hc|]. split; [exact Hl|]. rewrite Hnil. split.
    + intros H l' E. injection E as <-. exact H.
    + intros H. exact (H l eq_refl).
  - split; [intros c []|]. split; [cbn; lia|]. split; [intros _ l E; discriminate|reflexivity].
Qed.

Lemma normalise_item_cases (idx : nat) (r : raw_item) :
  let '(it, codes) := normalise_item idx r in
  match it with
  | None => codes = ["schema_violation/checklist_contract_missing_required"]
  | Some i =>
      item_id i <> "" /\ question i <> "" /\ (strictness i = "strict" \/ strictness i = "normal") /\
      (codes = [] \/ codes = ["schema_violation/checklist_invalid_strictness"])
  end.
Proof.
  destruct r as [|f]; [reflexivity|]. unfold normalise_item.
  set (iid := strip (get_str (ri_item_id f) (String.append "item-" (pad3 idx)))).
  set (q := strip (get_str (ri_question f) "")).
  set (st := strip (get_str (ri_strictness f) "normal")).
  destruct (is_empty q) eqn:Hq; [reflexivity|]. destruct (is_empty iid) eqn:Hi; [reflexivity|].
  cbn [orb]. cbn [item_id question strictness].
  split; [exact (is_empty_false _ Hi)|]. split; [exact (is_empty_false _ Hq)|].
  destruct (String.eqb_spec st "strict") as [E|_]; [cbn [orb]; auto|].
  destruct (String.eqb_spec st "normal") as [E|_]; cbn [orb]; auto.
Qed.

(** The item loop of [normalise_checklist] accounts for every raw item:
    each one either becomes a checklist item or adds one
    [checklist_contract_missing_required] code (non-object, blank
    [item_id] or blank [question]); every kept item has a non-blank id and
    question and a strictness of [strict] or [normal]; and the only other
    code it can add is [checklist_invalid_strictness]. *)
Theorem normalise_items_accounting (idx : nat) (raw : list raw_item) :
  let '(items, codes) := normalise_items_from idx raw in
  List.length items + count_occ string_dec codes "schema_violation/checklist_contract_missing_required"
    = List.length raw /\
  Forall (fun it => item_id it <> "" /\ question it <> "" /\
                    (strictness it = "strict" \/ strictness it = "normal")) items /\
  (forall x, In x codes -> x = "schema_violation/checklist_contract_missing_required" \/
                          x = "schema_violation/checklist_invalid_strictness").
Proof.
  revert idx. induction raw as [|r rest IH]; intros idx; cbn [normalise_items_from].
  - split; [reflexivity|]. split; [constructor|intros x []].
  - pose proof (normalise_item_cases idx r) as Hr.
    destruct (normalise_item idx r) as [it codes].
    specialize (IH (S idx)). destruct (normalise_items_from (S idx) rest) as [items codes'].
    destruct IH as [Hc [Hf Hx]]. rewrite count_occ_app. cbn [List.length].
    destruct it as [i|].
    + destruct Hr as [Hi [Hq [Hs Hcodes]]].
      split; [destruct Hcodes as [->| ->]; cbn; lia|].
      split; [constructor; [auto|exact Hf]|].
      intros x Hin. apply in_app_iff in Hin as [Hin|Hin]; [|exact (Hx x Hin)].
      destruct Hcodes as [->| ->]; [destruct Hin|destruct Hin as [<-|[]]; auto].
    + subst codes. split; [cbn; lia|]. split; [exact Hf|].
      intros x Hin. apply in_app_iff in Hin as [[<-|[]]|Hin]; [auto|exact (Hx x Hin)].
Qed.

(** ** What the compiler writes *)

Lemma normalise_checklist_props (room : nat) (raw : option raw_checklist) (run_id : string)
    (cl : checklist_contract) (codes : list string) :
  normalise_checklist room raw run_id = Return (cl, codes) ->
  cc_reason_codes cl = codes /\
  cc_items cl =
    match raw with
    | Some rc => fst (normalise_items_from 1 (match rc_items rc with Some l => l | None => [] end))
    | None => []
    end /\
  (codes = [] -> checklist_cycle room (cc_items cl) = Return false).
Proof.
  destruct raw as [rc|].
  - unfold normalise_checklist.
    destruct (normalise_items_from 1 (match rc_items rc with Some l => l | None => [] end)) as [items codes0].
    destruct (checklist_cycle room items) as [b|e] eqn:Hc; [|discriminate].
    intros H. injection H as <- <-. cbn [cc_reason_codes cc_items fst].
    split; [reflexivity|]. split; [reflexivity|].
    intros H. destruct b; [exfalso|exact Hc].
    apply sorted_set_nil_inv in H. apply app_eq_nil in H as [_ H]. discriminate H.
  - cbn. intros H. injection H as <- <-. split; [reflexivity|]. split; [reflexivity|].
    intros _. reflexivity.
Qed.

Lemma json_depth_obj_cons (k : string) (x : json) (r : list (string * json)) :
  json_depth (JObj ((k, x) :: r)) = S (Nat.max (json_depth x) (pred (json_depth (JObj r)))).
Proof. reflexivity. Qed.

Lemma json_depth_obj_pos (r : list (string * json)) : 1 <= json_depth (JObj r).
Proof. cbn [json_depth]. lia. Qed.

(** A member of a dict nests less deeply than the dict. *)
Lemma json_depth_obj_member (fields : list (string * json)) (k : string) (v : json) :
  dict_get fields k = Some v -> json_depth v < json_depth (JObj fields).
Proof.
  induction fields as [|[k' x] r IH]; cbn [dict_get]; [discriminate|].
  rewrite json_depth_obj_cons. pose proof (json_depth_obj_pos r) as Hp.
  destruct (String.eqb k k'); [intros H; injection H as <-; lia|].
  intros H. specialize (IH H). lia.
Qed.

Lemma fold_max_le (l : list nat) (m : nat) : Forall (fun x => x <= m) l -> fold_right Nat.max O l <= m.
Proof. induction 1 as [|x l Hx _ IH]; cbn [fold_right]; lia. Qed.

(** [json.dumps] of the contract needs no more frames than the task it is
    compiled from, or 5. *)
Lemma contract_nesting_bound (task : list (string * json)) (c : compiled_contract) :
  contract_nesting task c <= Nat.max 5 (json_depth (JObj task)).
Proof.
  pose proof (json_depth_obj_pos task) as HD.
  assert (Hget : forall k d, json_depth (dict_get_default task k d) <= Nat.max (json_depth d) (pred (json_depth (JObj task)))).
  { intros k d. unfold dict_get_default. destruct (dict_get task k) as [v|] eqn:E; [|lia].
    pose proof (json_depth_obj_member task k v E). lia. }
  assert (Hdict : forall j, json_depth (JObj (dict_of j)) <= Nat.max 1 (json_depth j)).
  { intros j. destruct j; cbn [dict_of]; try (cbn [json_depth]; lia). }
  assert (Hlist : forall j, json_depth (match j with JList l => JList l | _ => JList [] end) <= Nat.max 1 (json_depth j)).
  { intros j. destruct j; cbn [json_depth]; lia. }
  assert (Hroll : forall j, json_depth (match j with JNull => JNull | JObj f => JObj f | _ => JObj [] end)
                            <= Nat.max 1 (json_depth j)).
  { intros j. destruct j; cbn [json_depth]; lia. }
  assert (H1 : json_depth (JObj (memory_bundle_of task)) <= Nat.max 1 (pred (json_depth (JObj task)))).
  { unfold memory_bundle_of. pose proof (Hdict (dict_get_default task "memory_update_bundle" (JObj []))).
    pose proof (Hget "memory_update_bundle" (JObj [])). cbn [json_depth] in *. lia. }
  assert (H2 : json_depth (JObj (execution_audit_of task)) <= Nat.max 1 (pred (json_depth (JObj task)))).
  { unfold execution_audit_of. pose proof (Hdict (dict_get_default task "execution_audit" (JObj []))).
    pose proof (Hget "execution_audit" (JObj [])). cbn [json_depth] in *. lia. }
  assert (H3 : json_depth (match evidence_objects_of task with JList l => JList l | _ => JList [] end)
               <= Nat.max 1 (pred (json_depth (JObj task)))).
  { pose proof (Hlist (evidence_objects_of task)). unfold evidence_objects_of in *.
    pose proof (Hget "evidence_objects" (dict_get_default task "evidence_refs" (JList []))).
    pose proof (Hget "evidence_refs" (JList [])). cbn [json_depth] in *. lia. }
  assert (H4 : json_depth (pointers_of task) <= Nat.max 1 (pred (json_depth (JObj task)))).
  { unfold pointers_of. pose proof (Hlist (dict_get_default task "external_context_pointers" (JList []))).
    pose proof (Hget "external_context_pointers" (JList [])). cbn [json_depth] in *. lia. }
  assert (H5 : json_depth (JObj (policy_of task)) <= Nat.max 1 (pred (json_depth (JObj task)))).
  { unfold policy_of. pose proof (Hdict (dict_get_default task "external_context_policy" (JObj []))).
    pose proof (Hget "external_context_policy" (JObj [])). cbn [json_depth] in *. lia. }
  assert (H6 : json_depth (rollout_of task) <= Nat.max 1 (pred (json_depth (JObj task)))).
  { unfold rollout_of. pose proof (Hroll (dict_get_default task "correction_rollout" (JObj []))).
    pose proof (Hget "correction_rollout" (JObj [])). cbn [json_depth] in *. lia. }
  assert (H7 : json_depth (dict_get_default task "stop_conditions" (JList [JStr "all_checks_pass"]))
               <= Nat.max 1 (pred (json_depth (JObj task)))).
  { pose proof (Hget "stop_conditions" (JList [JStr "all_checks_pass"])). cbn [json_depth] in *. lia. }
  assert (H8 : json_depth (dict_get_default task "evidence_paths" (JList []))
               <= Nat.max 1 (pred (json_depth (JObj task)))).
  { pose proof (Hget "evidence_paths" (JList [])). cbn [json_depth] in *. lia. }
  unfold contract_nesting.
  assert (Hf : fold_right Nat.max O
       [ match contract_checks c with [] => 1 | _ :: _ => 2 end;
         match cc_items (contract_checklist c) with [] => 2 | _ :: _ => 4 end;
         json_depth (JObj (memory_bundle_of task));
         json_depth (JObj (execution_audit_of task));
         json_depth (match evidence_objects_of task with JList l => JList l | _ => JList [] end);
         json_depth (pointers_of task);
         json_depth (JObj (policy_of task));
         json_depth (rollout_of task);
         json_depth (dict_get_default task "stop_conditions" (JList [JStr "all_checks_pass"]));
         json_depth (dict_get_default task "evidence_paths" (JList []));
         3; 1; 1 ] <= Nat.max 4 (pred (json_depth (JObj task)))).
  { apply fold_max_le.
    repeat constructor; try lia.
    - destruct (contract_checks c); lia.
    - destruct (cc_items (contract_checklist c)); lia. }
  lia.
Qed.

(** [main] of compile_checks.py exits with status 0 or 1. It exits with 0
    only when no reason code accumulates, and then it writes a contract and
    prints [ok = true] with no reason code. A contract it writes comes from
    a task with no reason code; its [max_iterations] is [int()] of the
    task's; it has at least one check (as [read_contract] of
    run_until_green.py requires), only checks with a non-blank command, the
    normalised checklist items, an acyclic checklist ([_checklist_cycle]
    answers [False] on its items) and empty reason-code lists. When no
    reason code accumulates, [main] exits with status 1, writes nothing and
    prints nothing if [int()] of [max_iterations] raises; otherwise it exits
    with 0 as long as [json.dumps] has room for the task's own nesting. *)
Theorem compile_written_contract (room dump_room : nat) (t : raw_task) (run_id : string) :
  let '(code, out, written) := compile_checks_main room dump_room t run_id in
  (code = 0%Z \/ code = 1%Z) /\
  (code = 0%Z ->
     compile_reason_codes room t run_id = Return [] /\ written <> None /\
     out = CompileEmitted true (static_progress_delta (List.length (normalise_checks (acceptance_tests t)))) []) /\
  (forall cc, written = Some cc ->
     compile_reason_codes room t run_id = Return [] /\
     py_int (dict_get_default (task_fields t) "max_iterations" (JInt 5)) = Return (contract_max_iterations cc) /\
     contract_checks cc <> [] /\ Forall (fun c => command c <> "") (contract_checks cc) /\
     cc_items (contract_checklist cc) = normalised_items t /\
     checklist_cycle room (cc_items (contract_checklist cc)) = Return false /\
     cc_reason_codes (contract_checklist cc) = [] /\ contract_reason_codes cc = []) /\
  (compile_reason_codes room t run_id = Return [] ->
     match py_int (dict_get_default (task_fields t) "max_iterations" (JInt 5)) with
     | Raise e => code = 1%Z /\ out = CompileRaised e /\ written = None
     | Return _ =>
         json_depth (JObj (task_fields t)) <= dump_room -> compile_summary_nesting <= dump_room -> code = 0%Z
     end).
Proof.
  destruct (compile_reason_codes room t run_id) as [codes|e] eqn:Hc.
  2: { rewrite (compile_main_raise room dump_room t run_id e Hc).
       split; [right; reflexivity|]. split; [intros H; discriminate H|].
       split; [intros cc H; discriminate H|]. intros H; discriminate H. }
  destruct codes as [|x rest].
  2: { rewrite (compile_main_codes room dump_room t run_id (x :: rest) Hc ltac:(discriminate)).
       destruct (Nat.leb fail_payload_nesting dump_room);
         (split; [right; reflexivity|]; split; [intros H; discriminate H|];
          split; [intros cc H; discriminate H|]; intros H; discriminate H). }
  destruct (compile_main_no_codes room dump_room t run_id Hc) as [cl [Hn Hm]]. rewrite Hm.
  pose proof Hc as Hc'. unfold compile_reason_codes in Hc'. rewrite Hn in Hc'.
  destruct (compile_aux_codes (task_fields t)) as [aux|e]; [|discriminate Hc'].
  injection Hc' as Hc'. apply app_eq_nil in Hc' as [Ht _].
  assert (Hchecks : normalise_checks (acceptance_tests t) <> []) by (intros E; rewrite E in Ht; discriminate Ht).
  destruct (normalise_checklist_props room _ run_id cl [] Hn) as [Hrc [Hitems Hcyc]].
  pose proof (normalise_checks_commands (acceptance_tests t)) as Hcmd.
  destruct (py_int (dict_get_default (task_fields t) "max_iterations" (JInt 5))) as [mx|e] eqn:Hpy.
  - cbv zeta.
    pose proof (contract_nesting_bound (task_fields t)
                  (mk_compiled run_id (normalise_checks (acceptance_tests t)) cl mx
                     (static_progress_delta (List.length (normalise_checks (acceptance_tests t)))) [])) as Hb.
    destruct (Nat.leb (contract_nesting (task_fields t) _) dump_room) eqn:Hn1;
      [destruct (Nat.leb compile_summary_nesting dump_room) eqn:Hn2|].
    + split; [left; reflexivity|].
      split; [intros _; split; [reflexivity|]; split; [discriminate|reflexivity]|].
      split; [|intros _ _ _; reflexivity].
      intros cc E. injection E as <-.
      cbn [contract_checks contract_checklist contract_max_iterations contract_reason_codes].
      split; [reflexivity|]. split; [reflexivity|]. split; [exact Hchecks|].
      split; [apply Forall_forall; exact Hcmd|]. split; [unfold normalised_items; exact Hitems|].
      split; [exact (Hcyc eq_refl)|]. split; [exact Hrc|reflexivity].
    + split; [right; reflexivity|]. split; [intros H; discriminate H|].
      split.
      * intros cc E. injection E as <-.
        cbn [contract_checks contract_checklist contract_max_iterations contract_reason_codes].
        split; [reflexivity|]. split; [reflexivity|]. split; [exact Hchecks|].
        split; [apply Forall_forall; exact Hcmd|]. split; [unfold normalised_items; exact Hitems|].
        split; [exact (Hcyc eq_refl)|]. split; [exact Hrc|reflexivity].
      * intros _ _ Hs. apply Nat.leb_le in Hs. congruence.
    + split; [right; reflexivity|]. split; [intros H; discriminate H|].
      split; [intros cc H; discriminate H|].
      intros _ Hd Hs. apply Nat.leb_gt in Hn1. unfold compile_summary_nesting in Hs. lia.
  - split; [right; reflexivity|]. split; [intros H; discriminate H|].
    split; [intros cc H; discriminate H|].
    intros _. split; [reflexivity|]. split; reflexivity.
Qed.

(** ** Bounds kept by the loop *)

Lemma score_bounds (p t : nat) : (p <= t)%nat -> (0 <= score p t <= 1)%Q.
Proof.
  intros H. unfold score.
  assert (Hm : (Z.of_nat p <= Z.of_nat (Nat.max 1 t) /\ 0 < Z.of_nat (Nat.max 1 t))%Z) by lia.
  set (m := Z.of_nat (Nat.max 1 t)) in *. set (z := Z.of_nat p) in *.
  assert (Hz : (0 <= z)%Z) by (unfold z; lia).
  assert (Hpos : (0 < inject_Z m)%Q) by (unfold Qlt; cbn [Qnum Qden inject_Z]; lia).
  split.
  - apply Qle_shift_div_l; [exact Hpos|]. unfold Qle, Qmult; cbn [Qnum Qden inject_Z]. lia.
  - apply Qle_shift_div_r; [exact Hpos|]. unfold Qle, Qmult; cbn [Qnum Qden inject_Z]. lia.
Qed.

Lemma run_checks_from_length (exec : executor) (i : nat) (d : bool) (checks : list check) :
  forall idx, List.length (run_checks_from exec i d idx checks) = List.length checks.
Proof. induction checks as [|c cs IH]; intros idx; cbn; [reflexivity|rewrite IH; reflexivity]. Qed.

Lemma count_passed_le (exec : executor) (i : nat) (d : bool) (checks : list check) :
  (count_passed (run_checks exec i d checks) <= List.length checks)%nat.
Proof.
  unfold count_passed, run_checks. rewrite <- (run_checks_from_length exec i d checks 0).
  apply filter_length_le.
Qed.

Lemma build_from_frame (cpm : list (string * bool)) (iteration : nat) (items : list checklist_item) :
  forall m, map item_frame (fst (fst (fst (build_checklist_state_from m items cpm iteration)))) =
            map item_frame items.
Proof.
  induction items as [|it rest IH]; intros m; [reflexivity|]. cbn [build_checklist_state_from].
  destruct (item_new_step _ _ _) as [sat flip].
  specialize (IH (dict_set m (item_id it) (item_new_status m cpm it))).
  destruct (build_checklist_state_from _ rest cpm iteration) as [[[st fl] sf] sb].
  cbn [fst map] in *. rewrite IH. reflexivity.
Qed.

Lemma step_record_more (checks : list check) (items : list checklist_item) (exec : executor)
    (i : nat) (s : loop_state) :
  let s2 := step_record checks items exec i s in
  progress_history s2 =
    progress_history s ++ [score (count_passed (run_checks exec i false checks)) (List.length checks)] /\
  max_consecutive_no_progress s2 = Nat.max (max_consecutive_no_progress s) (consecutive_no_progress s2) /\
  map item_frame (latest_checklist_state s2) = map item_frame (latest_checklist_state s).
Proof.
  unfold step_record. destruct items as [|it rest]; [repeat split|].
  unfold record_checklist.
  pose proof (build_from_frame (check_pass_map_of (run_checks exec i false checks)) i
    (latest_checklist_state (record_progress i (run_checks exec i false checks) (List.length checks) s)) [])
    as Hf.
  unfold build_checklist_state.
  destruct (build_checklist_state_from _ _ _ _) as [[[st fl] sf] sb].
  cbn [fst] in Hf. cbn. split; [reflexivity|]. split; [reflexivity|]. exact Hf.
Qed.

Lemma iteration_step_props (checks : list check) (items : list checklist_item) (exec : executor)
    (i : nat) (s : loop_state) :
  let r := iteration_step checks items exec i s in
  let s' := flow_state r in
  (forall s0, r = Continue s0 ->
     all_passed s0 = all_passed s /\ aborted s0 = aborted s /\ (consecutive_no_progress s0 <= 1)%nat) /\
  (forall s0, r = Break s0 -> all_passed s0 = true \/ aborted s0 = true) /\
  (exists new, reason_codes s' = reason_codes s ++ new /\ forall x, In x new -> In x loop_codes) /\
  (exists new, progress_history s' = progress_history s ++ new /\ new <> [] /\
     Forall (fun q => 0 <= q <= 1)%Q new) /\
  (max_consecutive_no_progress s' <=
     Nat.max (max_consecutive_no_progress s) (S (consecutive_no_progress s)))%nat /\
  map item_frame (latest_checklist_state s') = map item_frame (latest_checklist_state s).
Proof.
  cbv zeta.
  pose proof (step_record_fields checks items exec i s) as [_ [Hap [Hab [_ [Hrc _]]]]].
  pose proof (step_record_more checks items exec i s) as [Hph [Hmx Hfr]].
  pose proof (step_record_counter checks items exec i s) as Hcnt.
  set (s2 := step_record checks items exec i s) in *.
  assert (Hsc : (0 <= score (count_passed (run_checks exec i false checks)) (List.length checks) <= 1)%Q)
    by (apply score_bounds; apply count_passed_le).
  assert (Hdc : (0 <= score (count_passed (run_checks exec i true checks)) (List.length checks) <= 1)%Q)
    by (apply score_bounds; apply count_passed_le).
  assert (Hmx' : (max_consecutive_no_progress s2 <=
                  Nat.max (max_consecutive_no_progress s) (S (consecutive_no_progress s)))%nat) by lia.
  destruct (iteration_step_cases checks items exec i s)
    as [[_ [_ Hr]]|[[_ [_ Hr]]|[[_ [_ [Hle [[_ Hr]|[_ Hr]]]]]|[_ [_ [Hle Hr]]]]]];
    fold s2 in Hr; rewrite Hr; cbn [flow_state].
  - split; [intros s0 E; discriminate|]. split; [intros s0 E; injection E as <-; right; reflexivity|].
    cbn [reason_codes progress_history max_consecutive_no_progress latest_checklist_state strict_abort].
    split; [eexists; split; [rewrite Hrc; reflexivity|]; intros x Hx; cbn in Hx |- *; tauto|].
    split; [eexists; split; [exact Hph|split; [discriminate|repeat constructor; apply Hsc]]|].
    split; [exact Hmx'|exact Hfr].
  - split; [intros s0 E; discriminate|]. split; [intros s0 E; injection E as <-; left; reflexivity|].
    cbn [reason_codes progress_history max_consecutive_no_progress latest_checklist_state mark_passed].
    split; [exists []; rewrite app_nil_r; split; [exact Hrc|intros x []]|].
    split; [eexists; split; [exact Hph|split; [discriminate|repeat constructor; apply Hsc]]|].
    split; [exact Hmx'|exact Hfr].
  - split; [intros s0 E; discriminate|]. split; [intros s0 E; injection E as <-; right; reflexivity|].
    cbn [reason_codes progress_history max_consecutive_no_progress latest_checklist_state
         diagnostic_abort diagnostic_start].
    split; [eexists; split; [rewrite Hrc, <- app_assoc; reflexivity|]; intros x Hx; cbn in Hx |- *; tauto|].
    split; [eexists; split; [exact Hph|split; [discriminate|repeat constructor; apply Hsc]]|].
    split; [exact Hmx'|exact Hfr].
  - split; [intros s0 E; injection E as <-; cbn; split; [exact Hap|split; [exact Hab|lia]]|].
    split; [intros s0 E; discriminate|].
    cbn [reason_codes progress_history max_consecutive_no_progress latest_checklist_state
         diagnostic_recover diagnostic_start].
    split; [eexists; split; [rewrite Hrc; reflexivity|]; intros x Hx; cbn in Hx |- *; tauto|].
    split; [eexists; split; [rewrite Hph, <- app_assoc; reflexivity|split; [discriminate|]]|].
    + repeat constructor; [apply Hsc|apply Hsc|apply Hdc|apply Hdc].
    + split; [exact Hmx'|exact Hfr].
  - split; [intros s0 E; injection E as <-; split; [exact Hap|split; [exact Hab|]]|].
    + change (step_record checks items exec i s) with s2 in Hle. apply Nat.leb_gt in Hle. lia.
    + split; [intros s0 E; discriminate|].
      split; [exists []; rewrite app_nil_r; split; [exact Hrc|intros x []]|].
      split; [eexists; split; [exact Hph|split; [discriminate|repeat constructor; apply Hsc]]|].
      split; [exact Hmx'|exact Hfr].
Qed.

Lemma loop_final_bounds (c : contract) (exec : executor) :
  let s := loop_final c exec in
  (iterations s <= Z.to_nat (max_iterations c))%nat /\
  ((1 <= Z.to_nat (max_iterations c))%nat -> (1 <= iterations s)%nat) /\
  (all_passed s = true \/ aborted s = true \/ iterations s = Z.to_nat (max_iterations c)) /\
  (max_consecutive_no_progress s <= 2)%nat /\
  Forall (fun q => 0 <= q <= 1)%Q (progress_history s) /\
  (iterations s <= List.length (progress_history s))%nat /\
  (forall x, In x (reason_codes s) -> In x loop_codes) /\
  map item_frame (latest_checklist_state s) = map item_frame (checklist_items c).
Proof.
  set (mx := Z.to_nat (max_iterations c)).
  set (P := fun (fuel i : nat) (s : loop_state) =>
    (1 <= i)%nat /\ i + fuel = mx + 1 /\ iterations s = i - 1 /\ all_passed s = false /\ aborted s = false /\
    (consecutive_no_progress s <= 1)%nat /\ (max_consecutive_no_progress s <= 2)%nat /\
    Forall (fun q => 0 <= q <= 1)%Q (progress_history s) /\
    (i - 1 <= List.length (progress_history s))%nat /\
    (forall x, In x (reason_codes s) -> In x loop_codes) /\
    map item_frame (latest_checklist_state s) = map item_frame (checklist_items c)).
  set (R := fun (s : loop_state) =>
    (iterations s <= mx)%nat /\ ((1 <= mx)%nat -> (1 <= iterations s)%nat) /\
    (all_passed s = true \/ aborted s = true \/ iterations s = mx) /\
    (max_consecutive_no_progress s <= 2)%nat /\
    Forall (fun q => 0 <= q <= 1)%Q (progress_history s) /\
    (iterations s <= List.length (progress_history s))%nat /\
    (forall x, In x (reason_codes s) -> In x loop_codes) /\
    map item_frame (latest_checklist_state s) = map item_frame (checklist_items c)).
  cbv zeta. change (R (loop_final c exec)). unfold loop_final.
  apply (run_loop_invariant (checks c) (checklist_items c) exec P R).
  - intros i s [H1 [Hf [Hit [Hap [Hab [Hc [Hm [Hq [Hl [Hr Hfr]]]]]]]]]].
    repeat split; try lia; auto.
  - intros f i s s' [H1 [Hf [Hit [Hap [Hab [Hc [Hm [Hq [Hl [Hr Hfr]]]]]]]]]] Hstep.
    pose proof (iteration_step_frame (checks c) (checklist_items c) exec i s) as [Hi' _].
    pose proof (iteration_step_props (checks c) (checklist_items c) exec i s)
      as [Hcont [_ [[rn [Hrc Hrn]] [[qn [Hph [Hne Hqn]]] [Hmx Hfr']]]]].
    rewrite Hstep in Hi', Hrc, Hph, Hmx, Hfr'. cbn [flow_state] in *.
    destruct (Hcont s' Hstep) as [Hap' [Hab' Hc']].
    assert (Hlen : (1 <= List.length qn)%nat) by (destruct qn; [contradiction|cbn; lia]).
    split; [lia|]. split; [lia|]. split; [lia|]. split; [congruence|]. split; [congruence|].
    split; [exact Hc'|]. split; [lia|].
    split; [rewrite Hph; apply Forall_app; split; assumption|].
    split; [rewrite Hph, length_app; lia|].
    split; [rewrite Hrc; intros x Hx; apply in_app_iff in Hx as [Hx|Hx]; [exact (Hr x Hx)|exact (Hrn x Hx)]|].
    congruence.
  - intros f i s s' [H1 [Hf [Hit [Hap [Hab [Hc [Hm [Hq [Hl [Hr Hfr]]]]]]]]]] Hstep.
    pose proof (iteration_step_frame (checks c) (checklist_items c) exec i s) as [Hi' _].
    pose proof (iteration_step_props (checks c) (checklist_items c) exec i s)
      as [_ [Hbrk [[rn [Hrc Hrn]] [[qn [Hph [Hne Hqn]]] [Hmx Hfr']]]]].
    rewrite Hstep in Hi', Hrc, Hph, Hmx, Hfr'. cbn [flow_state] in *.
    assert (Hlen : (1 <= List.length qn)%nat) by (destruct qn; [contradiction|cbn; lia]).
    split; [lia|]. split; [lia|].
    split; [destruct (Hbrk s' Hstep); auto|]. split; [lia|].
    split; [rewrite Hph; apply Forall_app; split; assumption|].
    split; [rewrite Hph, length_app; lia|].
    split; [rewrite Hrc; intros x Hx; apply in_app_iff in Hx as [Hx|Hx]; [exact (Hr x Hx)|exact (Hrn x Hx)]|].
    congruence.
  - unfold P. cbn. repeat split; try lia; auto; intros x [].
Qed.

Lemma loop_codes_max_reached : ~ In "validation_failed/max_iterations_reached" loop_codes.
Proof. cbn. intros H. repeat destruct H as [H|H]; try discriminate H; exact H. Qed.

(** The loop never runs more than [max(0, max_iterations)] iterations and
    runs at least one when [max_iterations >= 1]; the [budget_respected]
    gate score is therefore true exactly when [max_iterations >= 0]; and the
    loop adds [max_iterations_reached] exactly when it ends neither passing
    nor aborted, which happens only after the whole budget ran. *)
Theorem iteration_budget (c : contract) (post_loop_codes : list string) (exec : executor) :
  let m := fst (run_until_green_main c post_loop_codes exec) in
  let s := loop_final c exec in
  (summary_iterations m <= Z.to_nat (max_iterations c))%nat /\
  ((1 <= max_iterations c)%Z -> (1 <= summary_iterations m)%nat) /\
  budget_respected c m = Z.leb 0 (max_iterations c) /\
  (In "validation_failed/max_iterations_reached" (loop_reason_codes c s) <->
     all_passed s = false /\ aborted s = false) /\
  (all_passed s = false -> aborted s = false -> summary_iterations m = Z.to_nat (max_iterations c)).
Proof.
  cbv zeta.
  pose proof (loop_final_bounds c exec) as [Hle [Hge [Hend [_ [_ [_ [Hcodes _]]]]]]].
  pose proof (main_fields c post_loop_codes exec) as [Hit _]. cbv zeta in Hit. rewrite Hit.
  set (s := loop_final c exec) in *.
  split; [exact Hle|]. split; [intros H; apply Hge; lia|].
  split.
  - unfold budget_respected. rewrite Hit. fold s.
    destruct (Z.leb_spec (Z.of_nat (iterations s)) (max_iterations c));
    destruct (Z.leb_spec 0 (max_iterations c)); try reflexivity; lia.
  - split.
    + unfold loop_reason_codes. rewrite in_app_iff. split.
      * intros [H|H]; [exfalso; exact (loop_codes_max_reached (Hcodes _ H))|].
        destruct (all_passed s); [destruct H|]. destruct (aborted s); [|auto].
        exfalso. rewrite andb_false_r in H. cbn in H. repeat destruct H as [H|H]; try discriminate H; exact H.
      * intros [Hp Ha]. right. rewrite Hp, Ha.
        destruct Hend as [E|[E|E]]; [congruence|congruence|].
        rewrite E. replace (Z.leb (max_iterations c) (Z.of_nat (Z.to_nat (max_iterations c)))) with true
          by (symmetry; apply Z.leb_le; lia).
        cbn. auto.
    + intros Hp Ha. destruct Hend as [E|[E|E]]; congruence.
Qed.

(** With [max_iterations <= 0] the loop body never runs: no check is
    executed or logged, no checklist line is written, and the run exits 1
    with [checks_failed] and [max_iterations_reached] first among its
    reason codes. *)
Theorem no_budget_no_run (c : contract) (post_loop_codes : list string) (exec : executor) :
  (max_iterations c <= 0)%Z ->
  let '(m, code) := run_until_green_main c post_loop_codes exec in
  summary_iterations m = 0%nat /\ summary_iteration_log m = [] /\ summary_checklist_timeline m = [] /\
  summary_progress_history m = [] /\ summary_all_passed m = false /\ code = 1%Z /\
  summary_reason_codes m =
    dedupe (["validation_failed/checks_failed"; "validation_failed/max_iterations_reached"] ++ post_loop_codes).
Proof.
  intros H. unfold run_until_green_main, loop_final.
  replace (Z.to_nat (max_iterations c)) with 0%nat by lia. cbn [run_loop].
  unfold loop_reason_codes. cbn [initial_state all_passed aborted iterations reason_codes].
  replace (Z.leb (max_iterations c) (Z.of_nat 0)) with true by (symmetry; apply Z.leb_le; lia).
  cbn [app andb negb].
  destruct (dedupe ("validation_failed/checks_failed" :: "validation_failed/max_iterations_reached" :: post_loop_codes))
    as [|x rest] eqn:E.
  - exfalso. assert (Hin : In "validation_failed/checks_failed" (dedupe ("validation_failed/checks_failed"
      :: "validation_failed/max_iterations_reached" :: post_loop_codes))) by (apply dedupe_in; left; reflexivity).
    rewrite E in Hin. exact Hin.
  - cbn. repeat split.
Qed.

Lemma no_budget_no_run_witness :
  (max_iterations (mk_contract [always_fail] [] 0) <= 0)%Z /\
  let '(m, code) := run_until_green_main (mk_contract [always_fail] [] 0) [] failing_exec in
  summary_iterations m = 0%nat /\ summary_iteration_log m = [] /\ summary_checklist_timeline m = [] /\
  summary_progress_history m = [] /\ summary_all_passed m = false /\ code = 1%Z /\
  summary_reason_codes m =
    dedupe (["validation_failed/checks_failed"; "validation_failed/max_iterations_reached"] ++ []).
Proof.
  split; [cbn; lia|].
  exact (no_budget_no_run (mk_contract [always_fail] [] 0) [] failing_exec ltac:(cbn; lia)).
Defined.

(** Every progress score the run records (one per iteration, plus the
    diagnostic score after each diagnostic that improved) lies between 0 and
    1, and there is at least one per iteration run. *)
Theorem progress_history_bounded (c : contract) (post_loop_codes : list string) (exec : executor) :
  let m := fst (run_until_green_main c post_loop_codes exec) in
  Forall (fun q => 0 <= q <= 1)%Q (summary_progress_history m) /\
  (summary_iterations m <= List.length (summary_progress_history m))%nat.
Proof.
  pose proof (loop_final_bounds c exec) as [_ [_ [_ [_ [Hq [Hl _]]]]]].
  split; exact Hq || exact Hl.
Qed.

(** [max_consecutive_no_progress] never exceeds the trigger threshold 2:
    the counter is reset or the run stops as soon as it reaches 2. *)
Theorem max_no_progress_at_most_two (c : contract) (exec : executor) :
  (max_consecutive_no_progress (loop_final c exec) <= 2)%nat.
Proof. exact (proj1 (proj2 (proj2 (proj2 (loop_final_bounds c exec))))). Qed.

(** The summary's [checklist_state] lists the contract's checklist items in
    order, each with every field but [status] and [satisfied_at_step] as the
    contract gives it. *)
Theorem checklist_state_frame (c : contract) (post_loop_codes : list string) (exec : executor) :
  map item_frame (summary_checklist_state (fst (run_until_green_main c post_loop_codes exec))) =
  map item_frame (checklist_items c).
Proof.
  pose proof (loop_final_bounds c exec) as [_ [_ [_ [_ [_ [_ [_ Hf]]]]]]]. exact Hf.
Qed.

(** ** The evidence, Letta pointer and rollout validators *)

Lemma ssorted_unique (l1 l2 : list string) :
  StronglySorted String_as_OT.lt l1 -> StronglySorted String_as_OT.lt l2 ->
  (forall x, In x l1 <-> In x l2) -> l1 = l2.
Proof.
  revert l2. induction l1 as [|a l1 IH]; intros [|b l2] H1 H2 Hin.
  - reflexivity.
  - exfalso. apply (proj2 (Hin b)). left. reflexivity.
  - exfalso. apply (proj1 (Hin a)). left. reflexivity.
  - apply StronglySorted_inv in H1 as [H1 A1]. apply StronglySorted_inv in H2 as [H2 A2].
    rewrite Forall_forall in A1, A2.
    assert (a = b) as <-.
    { destruct (proj1 (Hin a) (or_introl eq_refl)) as [|Ha]; [congruence|].
      destruct (proj2 (Hin b) (or_introl eq_refl)) as [|Hb]; [congruence|].
      exfalso. apply (StrictOrder_Irreflexive a). transitivity b; [apply A1 | apply A2]; assumption. }
    f_equal. apply IH; [exact H1 | exact H2|].
    intros x. split; intros Hx.
    + destruct (proj1 (Hin x) (or_intror Hx)) as [<-|H]; [|exact H].
      exfalso. exact (StrictOrder_Irreflexive a (A1 a Hx)).
    + destruct (proj2 (Hin x) (or_intror Hx)) as [<-|H]; [|exact H].
      exfalso. exact (StrictOrder_Irreflexive a (A2 a Hx)).
Qed.

Lemma sorted_set_ext (l1 l2 : list string) :
  (forall x, In x l1 <-> In x l2) -> sorted_set l1 = sorted_set l2.
Proof.
  intros H. apply ssorted_unique; try apply sorted_set_sorted.
  intros x. rewrite !sorted_set_in. apply H.
Qed.

Lemma sorted_set_dedupe (l : list string) : sorted_set (dedupe l) = sorted_set l.
Proof. apply sorted_set_ext. intros x. apply dedupe_in. Qed.

Lemma sorted_set_nil (l : list string) : sorted_set l = [] <-> l = [].
Proof.
  split; [|intros ->; reflexivity].
  destruct l as [|x l]; [reflexivity|]. intros H.
  assert (Hx : In x (sorted_set (x :: l))) by (apply sorted_set_in; left; reflexivity).
  rewrite H in Hx. destruct Hx.
Qed.

Lemma collect_same (f g : json -> option (list string)) (l : list json) :
  (forall x, In x l -> same_codes (f x) (g x)) -> same_codes (collect f l) (collect g l).
Proof.
  induction l as [|x l IH]; intros H; cbn.
  - tauto.
  - specialize (H x (or_introl eq_refl)) as Hx.
    assert (IH' := IH (fun y Hy => H y (or_intror Hy))).
    destruct (f x) as [a|], (g x) as [b|]; cbn in Hx |- *; try contradiction; [|exact I].
    destruct (collect f l) as [a'|], (collect g l) as [b'|]; cbn in IH' |- *; try contradiction; [|exact I].
    intros y. rewrite !in_app_iff, Hx, IH'. tauto.
Qed.

Lemma collect_none (f : json -> option (list string)) (l : list json) :
  collect f l = None <-> exists x, In x l /\ f x = None.
Proof.
  induction l as [|x l IH]; cbn.
  - split; [discriminate | intros [? [[] _]]].
  - destruct (f x) eqn:Hf.
    + destruct (collect f l) eqn:Hc.
      * split; [discriminate|]. intros [y [[<-|Hy] Hn]]; [congruence|].
        discriminate (proj2 IH (ex_intro _ y (conj Hy Hn))).
      * split; [|reflexivity]. intros _. destruct (proj1 IH eq_refl) as [y [Hy Hn]].
        exists y. split; [right|]; assumption.
    + split; [|reflexivity]. intros _. exists x. split; [left; reflexivity | exact Hf].
Qed.

Lemma collect_nil (f : json -> option (list string)) (l : list json) :
  collect f l = Some [] <-> Forall (fun x => f x = Some []) l.
Proof.
  induction l as [|x l IH]; cbn.
  - split; constructor.
  - rewrite Forall_cons_iff, <- IH.
    destruct (f x) as [a|]; [|split; [discriminate | intros [H _]; discriminate]].
    destruct (collect f l) as [b|].
    + split.
      * intros H. injection H as H. apply app_eq_nil in H as [-> ->]. tauto.
      * intros [Ha Hb]. injection Ha as ->. injection Hb as ->. reflexivity.
    + split; [discriminate | intros [_ H]; discriminate].
Qed.

Lemma missing_code_same (p : string -> bool) (code : string) (keys : list string) (x : string) :
  In x (match filter (fun k => negb (p k)) keys with [] => [] | _ :: _ => [code] end)
  <-> In x (flat_map (fun k => if p k then [] else [code]) keys).
Proof.
  assert (Hall : forall l, In x (flat_map (fun k => if p k then [] else [code]) l) -> code = x).
  { intros l Hl. apply in_flat_map in Hl as [k [_ Hk]].
    destruct (p k); [destruct Hk | destruct Hk as [<-|[]]; reflexivity]. }
  induction keys as [|k keys IH]; cbn; [tauto|].
  destruct (p k); cbn; [exact IH|].
  split; [tauto|]. intros [H|H]; [left; exact H | left; exact (Hall _ H)].
Qed.

Lemma filter_missing_nil (p : string -> bool) (keys : list string) :
  filter (fun k => negb (p k)) keys = [] <-> Forall (fun k => p k = true) keys.
Proof.
  induction keys as [|k keys IH]; cbn; [split; constructor|].
  rewrite Forall_cons_iff, <- IH. destruct (p k); cbn.
  - tauto.
  - split; [discriminate | intros [H _]; discriminate].
Qed.

Lemma evidence_item_same (item : json) :
  same_codes (CompileChecks.evidence_item_codes item) (RunUntilGreen.evidence_item_codes item).
Proof.
  destruct item as [| | | | | |fields];
    cbv beta iota zeta delta [CompileChecks.evidence_item_codes RunUntilGreen.evidence_item_codes same_codes];
    try tauto.
  destruct (negb (is_number (dict_get_default fields "confidence" JNull))); cbv beta iota delta [same_codes].
  - intros x. rewrite !in_app_iff, missing_code_same. tauto.
  - destruct (float_conv (dict_get_default fields "confidence" JNull)); cbv beta iota delta [same_codes]; [|exact I].
    intros x. rewrite !in_app_iff, missing_code_same. tauto.
Qed.

Lemma letta_item_same (item : json) :
  same_codes (CompileChecks.letta_item_codes item) (RunUntilGreen.letta_item_codes item).
Proof.
  destruct item as [| | | | | |fields];
    cbv beta iota zeta delta [CompileChecks.letta_item_codes RunUntilGreen.letta_item_codes same_codes];
    try tauto.
  rewrite negb_orb.
  replace (is_null (dict_get_default fields "synced_at_unix" JNull)
           || negb (is_number (dict_get_default fields "synced_at_unix" JNull)))
    with (negb (is_number (dict_get_default fields "synced_at_unix" JNull)))
    by (destruct (dict_get_default fields "synced_at_unix" JNull); reflexivity).
  destruct (negb (is_number (dict_get_default fields "synced_at_unix" JNull))); cbv beta iota delta [same_codes].
  - intros x. rewrite !in_app_iff, missing_code_same. tauto.
  - destruct (float_conv (dict_get_default fields "synced_at_unix" JNull)); cbv beta iota delta [same_codes]; [|exact I].
    intros x. rewrite !in_app_iff, missing_code_same. tauto.
Qed.

Lemma evidence_agree (raw : json) :
  option_map sorted_set (RunUntilGreen.validate_evidence_objects raw)
  = CompileChecks.validate_evidence_objects raw.
Proof.
  destruct raw as [| | | | |l|]; try reflexivity. cbn.
  assert (H := collect_same _ _ l (fun x _ => evidence_item_same x)).
  destruct (collect CompileChecks.evidence_item_codes l) as [a|],
           (collect RunUntilGreen.evidence_item_codes l) as [b|]; cbn in H |- *; try contradiction; [|reflexivity].
  f_equal. rewrite sorted_set_dedupe. apply sorted_set_ext. intros x. symmetry. apply H.
Qed.

Lemma letta_agree (raw : json) :
  option_map sorted_set (RunUntilGreen.validate_letta_pointers raw)
  = CompileChecks.validate_letta_pointers raw.
Proof.
  destruct raw as [| | | | |l|]; try reflexivity. cbn.
  assert (H := collect_same _ _ l (fun x _ => letta_item_same x)).
  destruct (collect CompileChecks.letta_item_codes l) as [a|],
           (collect RunUntilGreen.letta_item_codes l) as [b|]; cbn in H |- *; try contradiction; [|reflexivity].
  f_equal. rewrite sorted_set_dedupe. apply sorted_set_ext. intros x. symmetry. apply H.
Qed.

(** the two [_validate_evidence_objects] agree: on every document both
    raise, or the compile-time one returns exactly the run-time codes
    sorted (the run-time list has no repeats, in first-occurrence order). *)
Theorem evidence_validators_agree (raw : json) :
  option_map sorted_set (RunUntilGreen.validate_evidence_objects raw)
  = CompileChecks.validate_evidence_objects raw
  /\ match RunUntilGreen.validate_evidence_objects raw with Some codes => NoDup codes | None => True end.
Proof.
  split; [apply evidence_agree|].
  destruct raw as [| | | | |l|]; cbn; try constructor.
  destruct (collect RunUntilGreen.evidence_item_codes l); [apply dedupe_fold_nodup; constructor | exact I].
Qed.

(** the two [_validate_letta_pointers] agree: on every document both
    raise, or the compile-time one returns exactly the run-time codes
    sorted, and the run-time list has no repeats. *)
Theorem letta_validators_agree (raw : json) :
  option_map sorted_set (RunUntilGreen.validate_letta_pointers raw)
  = CompileChecks.validate_letta_pointers raw
  /\ match RunUntilGreen.validate_letta_pointers raw with Some codes => NoDup codes | None => True end.
Proof.
  split; [apply letta_agree|].
  destruct raw as [| | | | |l|]; cbn; try (repeat constructor; intros []).
  destruct (collect RunUntilGreen.letta_item_codes l); [apply dedupe_fold_nodup; constructor | exact I].
Qed.

(** the two [_validate_correction_rollout] agree: the compile-time codes
    are the run-time codes sorted, and the run-time list has no repeats. *)
Theorem rollout_validators_agree (raw : json) :
  sorted_set (RunUntilGreen.validate_correction_rollout raw) = CompileChecks.validate_correction_rollout raw
  /\ NoDup (RunUntilGreen.validate_correction_rollout raw).
Proof.
  destruct raw as [| | | | | |fields]; cbn [RunUntilGreen.validate_correction_rollout CompileChecks.validate_correction_rollout];
    try (split; [reflexivity | repeat constructor; intros []]).
  split; [apply sorted_set_dedupe | apply dedupe_fold_nodup; constructor].
Qed.

Lemma float_conv_some (j : json) (f : pyfloat) :
  float_conv j = Some f -> is_null j = false /\ is_number j = true.
Proof. destruct j; cbn [float_conv is_null is_number]; try discriminate; auto. Qed.

Lemma float_conv_none_number (j : json) :
  is_number j = true -> float_conv j = None ->
  exists z, j = JInt z /\ (float_overflow <= Z.abs z)%Z.
Proof.
  destruct j as [|b|z|f| | |]; cbn [float_conv is_number]; try discriminate. intros _.
  destruct (Z.leb float_overflow (Z.abs z)) eqn:E; [|discriminate].
  intros _. exists z. split; [reflexivity | apply Z.leb_le; exact E].
Qed.

Lemma float_conv_overflow (z : Z) : (float_overflow <= Z.abs z)%Z -> float_conv (JInt z) = None.
Proof. intros H. cbn [float_conv]. apply Z.leb_le in H. rewrite H. reflexivity. Qed.

Lemma evidence_item_none (item : json) :
  CompileChecks.evidence_item_codes item = None <->
  exists fields z, item = JObj fields /\ dict_get_default fields "confidence" JNull = JInt z
                   /\ (float_overflow <= Z.abs z)%Z.
Proof.
  split.
  - destruct item as [| | | | | |fields]; try discriminate.
    cbv beta iota zeta delta [CompileChecks.evidence_item_codes].
    destruct (is_number (dict_get_default fields "confidence" JNull)) eqn:Hn; cbn [negb]; [|discriminate].
    destruct (float_conv (dict_get_default fields "confidence" JNull)) eqn:Hc; [discriminate|]. intros _.
    destruct (float_conv_none_number _ Hn Hc) as [z [Hz Ho]]. exists fields, z. auto.
  - intros [fields [z [-> [Hz Ho]]]].
    cbv beta iota zeta delta [CompileChecks.evidence_item_codes].
    rewrite Hz, (float_conv_overflow z Ho). reflexivity.
Qed.

Lemma letta_item_none (item : json) :
  CompileChecks.letta_item_codes item = None <->
  exists fields z, item = JObj fields /\ dict_get_default fields "synced_at_unix" JNull = JInt z
                   /\ (float_overflow <= Z.abs z)%Z.
Proof.
  split.
  - destruct item as [| | | | | |fields]; try discriminate.
    cbv beta iota zeta delta [CompileChecks.letta_item_codes].
    destruct (is_null (dict_get_default fields "synced_at_unix" JNull)) eqn:Hnl; cbn [orb]; [discriminate|].
    destruct (is_number (dict_get_default fields "synced_at_unix" JNull)) eqn:Hn; cbn [negb]; [|discriminate].
    destruct (float_conv (dict_get_default fields "synced_at_unix" JNull)) eqn:Hc; [discriminate|]. intros _.
    destruct (float_conv_none_number _ Hn Hc) as [z [Hz Ho]]. exists fields, z. auto.
  - intros [fields [z [-> [Hz Ho]]]].
    cbv beta iota zeta delta [CompileChecks.letta_item_codes].
    rewrite Hz, (float_conv_overflow z Ho). reflexivity.
Qed.

(** [_validate_evidence_objects] of either script raises only when an
    evidence object's [confidence] is an int too large for [float()]
    (magnitude at least [2^1024 - 2^970]), and then it does raise. *)
Theorem evidence_validator_raises (raw : json) :
  let overflow := exists l fields z, raw = JList l /\ In (JObj fields) l
                    /\ dict_get_default fields "confidence" JNull = JInt z /\ (float_overflow <= Z.abs z)%Z in
  (CompileChecks.validate_evidence_objects raw = None <-> overflow)
  /\ (RunUntilGreen.validate_evidence_objects raw = None <-> overflow).
Proof.
  intros overflow.
  assert (Hc : CompileChecks.validate_evidence_objects raw = None <-> overflow).
  { unfold overflow. destruct raw as [| | | | |l|]; cbn [CompileChecks.validate_evidence_objects];
      try (split; [discriminate | intros [? [? [? [H _]]]]; discriminate]).
    transitivity (collect CompileChecks.evidence_item_codes l = None).
    { destruct (collect CompileChecks.evidence_item_codes l); split; congruence. }
    rewrite collect_none. split.
    - intros [x [Hx Hn]]. apply evidence_item_none in Hn as [fields [z [-> [Hz Ho]]]].
      exists l, fields, z. auto.
    - intros [l' [fields [z [Hl [Hin [Hz Ho]]]]]]. injection Hl as <-.
      exists (JObj fields). split; [exact Hin|]. apply evidence_item_none. exists fields, z. auto. }
  split; [exact Hc|]. rewrite <- Hc, <- evidence_agree.
  destruct (RunUntilGreen.validate_evidence_objects raw); cbn; split; congruence.
Qed.

(** [_validate_letta_pointers] of either script raises only when a
    pointer's [synced_at_unix] is an int too large for [float()], and then
    it does raise. *)
Theorem letta_validator_raises (raw : json) :
  let overflow := exists l fields z, raw = JList l /\ In (JObj fields) l
                    /\ dict_get_default fields "synced_at_unix" JNull = JInt z /\ (float_overflow <= Z.abs z)%Z in
  (CompileChecks.validate_letta_pointers raw = None <-> overflow)
  /\ (RunUntilGreen.validate_letta_pointers raw = None <-> overflow).
Proof.
  intros overflow.
  assert (Hc : CompileChecks.validate_letta_pointers raw = None <-> overflow).
  { unfold overflow. destruct raw as [| | | | |l|]; cbn [CompileChecks.validate_letta_pointers];
      try (split; [discriminate | intros [? [? [? [H _]]]]; discriminate]).
    transitivity (collect CompileChecks.letta_item_codes l = None).
    { destruct (collect CompileChecks.letta_item_codes l); split; congruence. }
    rewrite collect_none. split.
    - intros [x [Hx Hn]]. apply letta_item_none in Hn as [fields [z [-> [Hz Ho]]]].
      exists l, fields, z. auto.
    - intros [l' [fields [z [Hl [Hin [Hz Ho]]]]]]. injection Hl as <-.
      exists (JObj fields). split; [exact Hin|]. apply letta_item_none. exists fields, z. auto. }
  split; [exact Hc|]. rewrite <- Hc, <- letta_agree.
  destruct (RunUntilGreen.validate_letta_pointers raw); cbn; split; congruence.
Qed.

Lemma validated_nil (o : option (list string)) :
  match o with None => None | Some codes => Some (sorted_set codes) end = Some [] <-> o = Some [].
Proof.
  destruct o as [codes|]; [|split; discriminate].
  split; intros H; injection H as H.
  - apply (proj1 (sorted_set_nil codes)) in H. subst. reflexivity.
  - subst. reflexivity.
Qed.

Lemma evidence_item_clean (item : json) :
  CompileChecks.evidence_item_codes item = Some [] <->
  exists fields, item = JObj fields
    /\ Forall (fun key => dict_mem fields key = true) evidence_required_fields
    /\ (exists f, float_conv (dict_get_default fields "confidence" JNull) = Some f
                  /\ float_lt f 0 = false /\ float_gt f 1 = false)
    /\ is_dict (dict_get_default fields "location" JNull) = true.
Proof.
  destruct item as [| | | | | |fields];
    try (split; [discriminate | intros [? [H _]]; discriminate]).
  cbv beta iota zeta delta [CompileChecks.evidence_item_codes].
  remember (filter (fun key => negb (dict_mem fields key)) evidence_required_fields) as miss eqn:Hmiss.
  assert (Hloc_mem : miss = [] -> dict_mem fields "location" = true).
  { intros ->. symmetry in Hmiss. apply (filter_missing_nil (dict_mem fields)) in Hmiss.
    inversion Hmiss as [|? ? _ Hf1]. inversion Hf1 as [|? ? Hloc _]. exact Hloc. }
  split.
  - destruct (is_number (dict_get_default fields "confidence" JNull)) eqn:Hn; cbn [negb];
      [|intros H; injection H as H; apply app_eq_nil in H as [_ H]; discriminate H].
    destruct (float_conv (dict_get_default fields "confidence" JNull)) as [f|] eqn:Hc; [|intros H; discriminate H].
    intros H. injection H as H. apply app_eq_nil in H as [H1 H]. apply app_eq_nil in H as [H2 H3].
    destruct miss as [|m miss]; [|discriminate H1].
    exists fields. split; [reflexivity|].
    split; [apply (filter_missing_nil (dict_mem fields)); symmetry; exact Hmiss|]. split.
    + exists f. split; [exact Hc|].
      destruct (float_lt f 0), (float_gt f 1); cbn in H2; try discriminate. auto.
    + rewrite (Hloc_mem eq_refl) in H3.
      destruct (is_dict (dict_get_default fields "location" JNull)); [reflexivity | discriminate].
  - intros [fields' [Heq [Hall [[f [Hc [Hlt Hgt]]] Hloc]]]]. injection Heq as <-.
    rewrite (proj2 (float_conv_some _ _ Hc)), Hc, Hlt, Hgt, Hloc. cbn [negb orb].
    apply (filter_missing_nil (dict_mem fields)) in Hall. rewrite Hmiss, Hall, andb_false_r. reflexivity.
Qed.

(** [_validate_evidence_objects] (compile time) reports nothing for a
    list exactly when every entry is a dict holding [source], [location],
    [span] and [confidence], the confidence converts with [float()] to a
    value not below 0.0 and not above 1.0 (a NaN confidence passes), and the
    location is a dict. *)
Theorem evidence_validator_clean (l : list json) :
  CompileChecks.validate_evidence_objects (JList l) = Some [] <->
  Forall (fun item => exists fields, item = JObj fields
    /\ Forall (fun key => dict_mem fields key = true) evidence_required_fields
    /\ (exists f, float_conv (dict_get_default fields "confidence" JNull) = Some f
                  /\ float_lt f 0 = false /\ float_gt f 1 = false)
    /\ is_dict (dict_get_default fields "location" JNull) = true) l.
Proof.
  cbn [CompileChecks.validate_evidence_objects]. rewrite validated_nil, collect_nil.
  split; apply Forall_impl; intros item; apply evidence_item_clean.
Qed.

Lemma letta_item_clean (item : json) :
  CompileChecks.letta_item_codes item = Some [] <->
  exists fields, item = JObj fields
    /\ Forall (fun key => dict_mem fields key = true) letta_pointer_required_fields
    /\ (is_null (dict_get_default fields "provider" JNull) || is_letta (dict_get_default fields "provider" JNull)) = true
    /\ str_blank (dict_get_default fields "content_hash" (JStr "")) = false
    /\ (exists f, float_conv (dict_get_default fields "synced_at_unix" JNull) = Some f /\ float_le f 0 = false)
    /\ is_true (dict_get_default fields "stale" (JBool false)) = false
    /\ is_true (dict_get_default fields "is_stale" (JBool false)) = false.
Proof.
  destruct item as [| | | | | |fields];
    try (split; [discriminate | intros [? [H _]]; discriminate]).
  cbv beta iota zeta delta [CompileChecks.letta_item_codes].
  remember (filter (fun key => negb (dict_mem fields key)) letta_pointer_required_fields) as miss eqn:Hmiss.
  split.
  - destruct (is_null (dict_get_default fields "synced_at_unix" JNull)
              || negb (is_number (dict_get_default fields "synced_at_unix" JNull))) eqn:Hn;
      [intros H; injection H as H; apply app_eq_nil in H as [_ H]; apply app_eq_nil in H as [_ H];
       apply app_eq_nil in H as [_ H]; discriminate H|].
    destruct (float_conv (dict_get_default fields "synced_at_unix" JNull)) as [f|] eqn:Hc; [|intros H; discriminate H].
    intros H. injection H as H. apply app_eq_nil in H as [H1 H]. apply app_eq_nil in H as [H2 H].
    apply app_eq_nil in H as [H3 H]. apply app_eq_nil in H as [H4 H5].
    destruct miss as [|m miss]; [|discriminate H1].
    exists fields. split; [reflexivity|].
    split; [apply (filter_missing_nil (dict_mem fields)); symmetry; exact Hmiss|].
    split; [destruct (is_null (dict_get_default fields "provider" JNull)),
                     (is_letta (dict_get_default fields "provider" JNull)); cbn in H2 |- *; congruence|].
    split; [destruct (str_blank (dict_get_default fields "content_hash" (JStr ""))); congruence|].
    split; [exists f; split; [exact Hc | destruct (float_le f 0); congruence]|].
    destruct (is_true (dict_get_default fields "stale" (JBool false))),
             (is_true (dict_get_default fields "is_stale" (JBool false))); cbn in H5; split; congruence.
  - intros [fields' [Heq [Hall [Hp [Hh [[f [Hc Hle]] [Hs Hi]]]]]]]. injection Heq as <-.
    destruct (float_conv_some _ _ Hc) as [Hnl Hnum].
    rewrite Hnl, Hnum, Hc, Hle, Hh, Hs, Hi, <- negb_orb, Hp. cbn [negb orb andb].
    apply (filter_missing_nil (dict_mem fields)) in Hall. rewrite Hmiss, Hall. reflexivity.
Qed.

(** [_validate_letta_pointers] (compile time) reports nothing for a list
    exactly when every entry is a dict holding the seven required fields,
    its provider is [None] or ["letta"], its content hash is not blank, its
    [synced_at_unix] converts with [float()] to a value that is not [<= 0]
    (a NaN passes), and neither [stale] nor [is_stale] is [True]. *)
Theorem letta_validator_clean (l : list json) :
  CompileChecks.validate_letta_pointers (JList l) = Some [] <->
  Forall (fun item => exists fields, item = JObj fields
    /\ Forall (fun key => dict_mem fields key = true) letta_pointer_required_fields
    /\ (is_null (dict_get_default fields "provider" JNull) || is_letta (dict_get_default fields "provider" JNull)) = true
    /\ str_blank (dict_get_default fields "content_hash" (JStr "")) = false
    /\ (exists f, float_conv (dict_get_default fields "synced_at_unix" JNull) = Some f /\ float_le f 0 = false)
    /\ is_true (dict_get_default fields "stale" (JBool false)) = false
    /\ is_true (dict_get_default fields "is_stale" (JBool false)) = false) l.
Proof.
  cbn [CompileChecks.validate_letta_pointers]. rewrite validated_nil, collect_nil.
  split; apply Forall_impl; intros item; apply letta_item_clean.
Qed.

Lemma flag_codes_nil (p : string -> bool) (code : string) (keys : list string) :
  flat_map (fun k => if p k then [code] else []) keys = [] <-> Forall (fun k => p k = false) keys.
Proof.
  induction keys as [|k keys IH]; cbn; [split; constructor|].
  rewrite Forall_cons_iff, <- IH. destruct (p k); cbn.
  - split; [discriminate | intros [H _]; discriminate].
  - tauto.
Qed.

Lemma str_blank_default_mem (d : list (string * json)) (k : string) :
  str_blank (dict_get_default d k (JStr "")) = false ->
  dict_mem d k = true /\ dict_get_default d k JNull = dict_get_default d k (JStr "").
Proof.
  unfold dict_mem, dict_get_default. destruct (dict_get d k); [auto | intros H; discriminate H].
Qed.

(** [_validate_correction_rollout] (compile time) reports nothing for a
    dict exactly when [run_id], [task_signature], [attempt_1] and
    [attempt_2] are all present with a value whose [str()] is not blank and
    the task signature is a string. The code for a blank second attempt
    never comes without the code for a missing required field. *)
Theorem rollout_validator_clean (fields : list (string * json)) (raw : json) :
  (CompileChecks.validate_correction_rollout (JObj fields) = [] <->
   Forall (fun key => str_blank (dict_get_default fields key (JStr "")) = false) correction_rollout_required
   /\ is_str (dict_get_default fields "task_signature" JNull) = true)
  /\ (In "validation_failed/self_correction_missing_o2" (CompileChecks.validate_correction_rollout raw) ->
      In "schema_violation/correction_rollout_missing_required" (CompileChecks.validate_correction_rollout raw)).
Proof.
  split.
  - cbn [CompileChecks.validate_correction_rollout]. rewrite sorted_set_nil.
    rewrite <- (flag_codes_nil (fun key => str_blank (dict_get_default fields key (JStr "")))
                 "schema_violation/correction_rollout_missing_required").
    split.
    + intros H. apply app_eq_nil in H as [H1 H]. apply app_eq_nil in H as [_ H3].
      split; [exact H1|].
      apply (flag_codes_nil (fun key => str_blank (dict_get_default fields key (JStr "")))) in H1.
      rewrite Forall_forall in H1.
      destruct (str_blank_default_mem fields "task_signature" (H1 "task_signature" ltac:(cbn; tauto))) as [Hm Hg].
      rewrite Hm in H3. destruct (is_str (dict_get_default fields "task_signature" JNull)); [reflexivity | discriminate H3].
    + intros [H1 Hs]. rewrite H1, Hs.
      apply (flag_codes_nil (fun key => str_blank (dict_get_default fields key (JStr "")))) in H1.
      rewrite Forall_forall in H1. rewrite (H1 "attempt_2" ltac:(cbn; tauto)).
      rewrite !andb_false_r. reflexivity.
  - destruct raw as [| | | | | |fields']; cbn [CompileChecks.validate_correction_rollout];
      try (intros [H|[]]; discriminate H); [intros []|].
    rewrite !sorted_set_in, !in_app_iff.
    intros [H|[H|H]].
    + exfalso. apply in_flat_map in H as [k [_ Hk]].
      destruct (str_blank (dict_get_default fields' k (JStr ""))); [destruct Hk as [Hk|[]]; discriminate Hk | destruct Hk].
    + destruct (dict_mem fields' "attempt_2" && str_blank (dict_get_default fields' "attempt_2" (JStr ""))) eqn:E;
        [|destruct H].
      apply andb_true_iff in E as [_ E]. left. apply in_flat_map.
      exists "attempt_2". split; [cbn; tauto | rewrite E; left; reflexivity].
    + destruct (dict_mem fields' "task_signature"
                && negb (is_str (dict_get_default fields' "task_signature" JNull)));
        [destruct H as [H|[]]; discriminate H | destruct H].
Qed.
